(** * Twitter clone load tester: metrics, dispatch, pagination and verdict

    A shallow embedding of [load-test/demo_load_tester.py].

    Data.  Python floats (latencies, rates, the clock) are read as rationals
    [Q]: comparing floats and choosing one of them are exact.  The success
    rate is computed with rounding, and the verdict compares it with a
    threshold: that computation is given in binary64 as well
    ([print_results_float]).  Python integers that only count are [nat]; HTTP status codes are
    [Z]; strings are byte strings.  The dictionaries [by_endpoint] and
    [errors] are [gmap string _]; a JSON payload is a [pyval].

    Effects.  Code that only computes but may raise returns a [result].
    The coroutines of [LoadTester] thread a [State] (the collector, the
    lists of users, the clock, the requests sent, the numbers of UUIDs and
    random draws taken) and end in an [outcome]: a value, an exception, or
    out of fuel for the [while True] loop of pagination.  The transport,
    [uuid.UUID], [uuid.uuid4], the random module and the health probe are
    the environment [Env] of a run.

    Left out.  Console output (banner, tables, progress bars) is modelled
    only where it reads a value that may raise or prints the verdict.
    Tasks awaited through [asyncio.gather] run concurrently and record
    their outcomes as they complete; the model runs them one after the
    other in the order of their creation, which is one of their schedules.
    What is stated of a phase that gathers its tasks is stated of counts and
    of collections up to order, which no schedule changes.  The semaphore
    appears as the time a call is suspended waiting for its permit. *)

From Stdlib Require Import ZArith QArith Qround String Ascii List Lia DecimalString.
From Stdlib Require Import Permutation Sorted.
From Stdlib Require PrimFloat Uint63.
From stdpp Require Import base gmap strings list.

Local Open Scope string_scope.
Local Open Scope list_scope.
#[local] Arguments String.append !_ _ / : simpl nomatch.

(** ** Python values and exceptions *)

(** A value as [resp.json()] or [resp.text()] hands it back. *)
#[warnings="-register-all"]
Inductive pyval : Type :=
  | PNone
  | PBool (b : bool)
  | PInt (z : Z)
  | PFloat (q : Q)
  | PStr (s : string)
  | PList (l : list pyval)
  | PDict (d : list (string * pyval)).

(** [bool(v)]: None, False, zero and the empty string, list and dict are falsy. *)
Definition truthy (v : pyval) : bool :=
  match v with
  | PNone => false
  | PBool b => b
  | PInt z => negb (z =? 0)%Z
  | PFloat q => negb (Qeq_bool q 0)
  | PStr s => negb (String.eqb s "")
  | PList l => match l with [] => false | _ => true end
  | PDict d => match d with [] => false | _ => true end
  end.

(** [d.get(k)] on a dict: the bound value, or None. *)
Fixpoint dict_get (k : string) (d : list (string * pyval)) : pyval :=
  match d with
  | [] => PNone
  | (k', v) :: d' => if String.eqb k k' then v else dict_get k d'
  end.

Inductive exn : Type :=
  | KeyError (key : string)
  | IndexError
  | AttributeError (attr : string)
  | StatisticsError.

(** The result of code that only computes: a value, or a raised exception. *)
Inductive result (A : Type) : Type :=
  | Ok (a : A)
  | Err (e : exn).
Arguments Ok {A} a.
Arguments Err {A} e.

Definition rbind {A B : Type} (r : result A) (k : A -> result B) : result B :=
  match r with
  | Ok a => k a
  | Err e => Err e
  end.

(** [l[i]]: IndexError out of range. *)
Definition index {A : Type} (l : list A) (i : nat) : result A :=
  match l !! i with
  | Some a => Ok a
  | None => Err IndexError
  end.

(** [str(n)] for an integer. *)
Definition str_nat (n : nat) : string := NilZero.string_of_uint (Nat.to_uint n).
Definition str_Z (z : Z) : string := NilZero.string_of_int (Z.to_int z).

(** ** String operations used on endpoints *)

(** [s.startswith(p)] *)
Fixpoint starts_with (p s : string) : bool :=
  match p, s with
  | EmptyString, _ => true
  | String a p', String b s' => if Ascii.eqb a b then starts_with p' s' else false
  | String _ _, EmptyString => false
  end.

(** [s.replace(old, new)] for a non-empty [old]: occurrences are taken from
    the left and do not overlap; [skip] counts the characters of the current
    occurrence still to be dropped. *)
Fixpoint py_replace_from (old new : string) (skip : nat) (s : string) : string :=
  match s with
  | EmptyString => EmptyString
  | String c s' =>
      match skip with
      | S k => py_replace_from old new k s'
      | O =>
          if starts_with old s
          then new +:+ py_replace_from old new (String.length old - 1) s'
          else String c (py_replace_from old new 0 s')
      end
  end.

(** [s.replace("", new)]: [new] before every character and at the end. *)
Fixpoint py_interleave (new s : string) : string :=
  match s with
  | EmptyString => new
  | String c s' => new +:+ String c (py_interleave new s')
  end.

Definition py_replace (old new s : string) : string :=
  match old with
  | EmptyString => py_interleave new s
  | String _ _ => py_replace_from old new 0 s
  end.

(** [s.split(sep)] for a one-character separator; never the empty list. *)
Fixpoint py_split (sep : ascii) (s : string) : list string :=
  match s with
  | EmptyString => [EmptyString]
  | String c s' =>
      if Ascii.eqb c sep then EmptyString :: py_split sep s'
      else match py_split sep s' with
           | h :: t => String c h :: t
           | [] => [String c EmptyString]
           end
  end.

(** [sep.join(l)] *)
Fixpoint py_join (sep : ascii) (l : list string) : string :=
  match l with
  | [] => EmptyString
  | [s] => s
  | s :: l' => s +:+ String sep (py_join sep l')
  end.

(** [api_call], lines 229-236: the bucket path of an endpoint.  [uuid_ok s]
    says that [uuid.UUID(s)] does not raise. *)
Definition normalize_endpoint (uuid_ok : string -> bool) (endpoint : string) : string :=
  let endpoint_key := hd EmptyString (py_split "?" endpoint) in
  fold_left
    (fun endpoint_key segment =>
       if uuid_ok segment then py_replace segment "{id}" endpoint_key else endpoint_key)
    (py_split "/" endpoint_key) endpoint_key.

(** The text [str(uuid.uuid4())] produces: 36 characters, hexadecimal digits
    in groups of 8-4-4-4-12 separated by dashes. *)
Definition is_hex (c : ascii) : bool :=
  let n := nat_of_ascii c in
  (((48 <=? n) && (n <=? 57)) || ((97 <=? n) && (n <=? 102))
   || ((65 <=? n) && (n <=? 70)))%nat.

Fixpoint canonical_from (i : nat) (s : string) : bool :=
  match s with
  | EmptyString => (i =? 36)%nat
  | String c s' =>
      (if ((i =? 8) || (i =? 13) || (i =? 18) || (i =? 23))%nat
       then Ascii.eqb c "-" else is_hex c)
      && canonical_from (S i) s'
  end.

Definition uuid_canonical (s : string) : bool := canonical_from 0 s.

(** ** Numbers, sorting and the median *)

(** An integer count read as a float. *)
Definition Qnat (n : nat) : Q := inject_Z (Z.of_nat n).

(** [int(n * q)] for a count [n] and a non-negative factor [q].  The doubles
    written 0.95 and 0.99 give the same integer as the exact product for
    every list length a run can reach. *)
Definition int_of_product (n : nat) (q : Q) : nat :=
  Z.to_nat (Qfloor (Qnat n * q)).

(** [sorted(l)] on floats: a stable sort, here by insertion. *)
Fixpoint insert_sorted (x : Q) (l : list Q) : list Q :=
  match l with
  | [] => [x]
  | y :: l' => if Qle_bool x y then x :: y :: l' else y :: insert_sorted x l'
  end.

Fixpoint sorted (l : list Q) : list Q :=
  match l with
  | [] => []
  | x :: l' => insert_sorted x (sorted l')
  end.

(** [statistics.median(data)]: the middle sample of the sorted data, or the
    mean of the two middle samples when their number is even. *)
Definition median (data : list Q) : result Q :=
  let data := sorted data in
  let n := length data in
  if (n =? 0)%nat then Err StatisticsError
  else if (n mod 2 =? 1)%nat then index data (n / 2)
  else
    let i := (n / 2)%nat in
    rbind (index data (i - 1)) (fun a =>
    rbind (index data i) (fun b => Ok ((a + b) / 2)%Q)).

(** ** RequestMetrics, EndpointStats, MetricsCollector *)

Module RequestMetrics.

Record t : Type := mk {
  endpoint : string;
  method : string;
  status : Z;
  latency_ms : Q;
  success : bool;
  error : option string
}.

End RequestMetrics.

Module EndpointStats.

Record t : Type := mk {
  total : nat;
  success : nat;
  failed : nat;
  latencies : list Q;
  errors : gmap string nat
}.

(** The dataclass defaults. *)
Definition default : t := mk 0 0 0 [] ∅.

Definition success_rate (self : t) : Q :=
  if (0 <? total self)%nat
  then (Qnat (success self) / Qnat (total self) * 100)%Q
  else 0%Q.

Definition p50 (self : t) : result Q :=
  match latencies self with
  | [] => Ok 0%Q
  | _ => median (latencies self)
  end.

Definition p95 (self : t) : result Q :=
  match latencies self with
  | [] => Ok 0%Q
  | _ =>
      let sorted_lat := sorted (latencies self) in
      let idx := int_of_product (length sorted_lat) (95 # 100) in
      index sorted_lat (Nat.min idx (length sorted_lat - 1))
  end.

Definition p99 (self : t) : result Q :=
  match latencies self with
  | [] => Ok 0%Q
  | _ =>
      let sorted_lat := sorted (latencies self) in
      let idx := int_of_product (length sorted_lat) (99 # 100) in
      index sorted_lat (Nat.min idx (length sorted_lat - 1))
  end.

End EndpointStats.

(** The dict [get_phase_stats] returns.  [success_rate = None] stands for a
    dict without that key (the one built for a phase with no request). *)
Module PhaseStats.

Record t : Type := mk {
  total : nat;
  success : nat;
  failed : nat;
  success_rate : option Q;
  p50 : Q;
  p95 : Q;
  p99 : Q
}.

(** [stats['success_rate']] *)
Definition get_success_rate (stats : t) : result Q :=
  match success_rate stats with
  | Some r => Ok r
  | None => Err (KeyError "success_rate")
  end.

End PhaseStats.

Module MetricsCollector.

Record t : Type := mk {
  requests : list RequestMetrics.t;
  by_endpoint : gmap string EndpointStats.t;
  start_time : Q;
  end_time : Q;
  phase : string;
  setup_requests : list RequestMetrics.t;
  runtime_requests : list RequestMetrics.t
}.

Definition init : t := mk [] ∅ 0 0 "setup" [] [].

Definition set_phase (phase : string) (self : t) : t :=
  mk (requests self) (by_endpoint self) (start_time self) (end_time self)
     phase (setup_requests self) (runtime_requests self).

Definition set_start_time (now : Q) (self : t) : t :=
  mk (requests self) (by_endpoint self) now (end_time self)
     (phase self) (setup_requests self) (runtime_requests self).

Definition set_end_time (now : Q) (self : t) : t :=
  mk (requests self) (by_endpoint self) (start_time self) now
     (phase self) (setup_requests self) (runtime_requests self).

(** The key under which a failure is counted in [stats.errors]. *)
Definition err_key (metric : RequestMetrics.t) : string :=
  if (RequestMetrics.status metric =? 0)%Z
  then match RequestMetrics.error metric with
       | Some e => if String.eqb e "" then "unknown" else e
       | None => "unknown"
       end
  else str_Z (RequestMetrics.status metric).

(** The bucket's stats after one more metric ([record], lines 102-109). *)
Definition record_stats (metric : RequestMetrics.t) (stats : EndpointStats.t)
  : EndpointStats.t :=
  let total := S (EndpointStats.total stats) in
  let latencies := EndpointStats.latencies stats ++ [RequestMetrics.latency_ms metric] in
  if RequestMetrics.success metric
  then EndpointStats.mk total (S (EndpointStats.success stats))
         (EndpointStats.failed stats) latencies (EndpointStats.errors stats)
  else
    let k := err_key metric in
    let errors := EndpointStats.errors stats in
    EndpointStats.mk total (EndpointStats.success stats)
      (S (EndpointStats.failed stats)) latencies
      (<[k := S (default 0%nat (errors !! k))]> errors).

Definition bucket_key (metric : RequestMetrics.t) : string :=
  RequestMetrics.method metric +:+ " " +:+ RequestMetrics.endpoint metric.

Definition record (metric : RequestMetrics.t) (self : t) : t :=
  let in_setup := String.eqb (phase self) "setup" in
  let key := bucket_key metric in
  let stats := default EndpointStats.default (by_endpoint self !! key) in
  mk (requests self ++ [metric])
     (<[key := record_stats metric stats]> (by_endpoint self))
     (start_time self) (end_time self) (phase self)
     (if in_setup then setup_requests self ++ [metric] else setup_requests self)
     (if in_setup then runtime_requests self else runtime_requests self ++ [metric]).

Definition count_success (requests : list RequestMetrics.t) : nat :=
  length (filter (fun r => RequestMetrics.success r = true) requests).

(** [get_phase_stats] (lines 111-128).  The success rate is the exact
    quotient here; [float_success_rate] is the float line 124 computes. *)
Definition get_phase_stats (phase : string) (self : t) : result PhaseStats.t :=
  let requests :=
    if String.eqb phase "setup" then setup_requests self else runtime_requests self in
  match requests with
  | [] => Ok (PhaseStats.mk 0 0 0 None 0 0 0)
  | _ =>
      let latencies := sorted (map RequestMetrics.latency_ms requests) in
      let success := count_success requests in
      let n := length latencies in
      rbind (index latencies (n / 2)) (fun p50 =>
      rbind (index latencies (int_of_product n (95 # 100))) (fun p95 =>
      rbind (index latencies (int_of_product n (99 # 100))) (fun p99 =>
      Ok (PhaseStats.mk (length requests) success (length requests - success)
            (Some (Qnat success / Qnat (length requests) * 100)%Q)
            p50 p95 p99))))
  end.

(** The properties of the whole collector (lines 130-177). *)
Definition total_requests (self : t) : nat := length (requests self).

Definition total_success (self : t) : nat :=
  length (filter (fun r => RequestMetrics.success r = true) (requests self)).

Definition total_failed (self : t) : nat :=
  length (filter (fun r => RequestMetrics.success r = false) (requests self)).

Definition overall_success_rate (self : t) : Q :=
  if (0 <? total_requests self)%nat
  then (Qnat (total_success self) / Qnat (total_requests self) * 100)%Q
  else 0%Q.

(** [end_time] is falsy while it is 0. *)
Definition duration_seconds (self : t) : Q :=
  if negb (Qeq_bool (end_time self) 0) then (end_time self - start_time self)%Q else 0%Q.

Definition tps (self : t) : Q :=
  if negb (Qle_bool (duration_seconds self) 0)
  then (Qnat (total_requests self) / duration_seconds self)%Q
  else 0%Q.

Definition all_latencies (self : t) : list Q :=
  map RequestMetrics.latency_ms (requests self).

Definition overall_p50 (self : t) : result Q :=
  let lats := all_latencies self in
  match lats with
  | [] => Ok 0%Q
  | _ => median lats
  end.

Definition overall_p95 (self : t) : result Q :=
  let lats := sorted (all_latencies self) in
  match lats with
  | [] => Ok 0%Q
  | _ =>
      let idx := int_of_product (length lats) (95 # 100) in
      index lats (Nat.min idx (length lats - 1))
  end.

Definition overall_p99 (self : t) : result Q :=
  let lats := sorted (all_latencies self) in
  match lats with
  | [] => Ok 0%Q
  | _ =>
      let idx := int_of_product (length lats) (99 # 100) in
      index lats (Nat.min idx (length lats - 1))
  end.

End MetricsCollector.

(** ** The transport, the environment and the tester's state *)

Module Request.

(** What [session.request] is called with. *)
Record t : Type := mk {
  method : string;
  url : string;
  headers : list (string * string);
  json : option pyval
}.

End Request.

(** Reading the body: [resp.json()], else [resp.text()], which may raise too. *)
Inductive body_read : Type :=
  | BodyJson (v : pyval)
  | BodyText (s : string)
  | BodyRaises (e : string).

(** What one [session.request] does: it yields a response with a status, or
    raises (timeout, connection fault); [e] is [str(e)]. *)
Inductive reply : Type :=
  | Responds (status : Z) (body : body_read)
  | Fails (e : string).

(** One exchange with its durations in seconds: the time the caller is
    suspended in [async with self.semaphore], the time from the permit to
    the response (or the exception), and the time reading the body takes. *)
Record Exchange : Type := mkExchange {
  permit_wait : Q;
  response_time : Q;
  body_time : Q;
  answer : reply
}.

(** Everything a run takes from outside the repository.  [transport n r] is
    the exchange for the [n]-th request sent, [uuid4 n] the text of the
    [n]-th generated UUID, [random_sample n] and [random_choice n] the
    [n]-th draw of the random module, [py_repr] is [str()] on values other
    than strings. *)
Record Env : Type := mkEnv {
  uuid_ok : string -> bool;
  py_repr : pyval -> string;
  uuid4 : nat -> string;
  random_sample : nat -> list string -> nat -> list string;
  random_choice : nat -> list string -> string;
  transport : nat -> Request.t -> Exchange;
  health : bool;
  RICH_AVAILABLE : bool
}.

(** The keys of config.json the tester reads.  [None] is an absent optional key. *)
Record Config : Type := mkConfig {
  host : string;
  regular : nat;
  celebrities_count : nat;
  follows_per_regular_user : nat;
  tweets_per_user : nat;
  timeline_reads_per_user : nat;
  unfollows_per_user : option nat;
  pagination_page_size : option nat;
  delay_after_writes_ms : Q;
  max_error_rate_percent : Q;
  max_p95_latency_ms : Q
}.

(** [s.rstrip(c)] for one character. *)
Fixpoint py_rstrip (c : ascii) (s : string) : string :=
  match s with
  | EmptyString => EmptyString
  | String a s' =>
      match py_rstrip c s' with
      | EmptyString => if Ascii.eqb a c then EmptyString else String a EmptyString
      | r => String a r
      end
  end.

Definition base_url (config : Config) : string := py_rstrip "/" (host config).

(** The fields of a [LoadTester] that change during a run, with the clock
    ([time.perf_counter()]), the requests sent so far and the numbers of
    UUIDs and random draws taken so far. *)
Record State : Type := mkState {
  metrics : MetricsCollector.t;
  regular_users : list string;
  celebrities : list string;
  celebrity_followers : list string;
  all_users : list string;
  follow_graph : gmap string (list string);
  now : Q;
  sent : list Request.t;
  uuids : nat;
  randoms : nat
}.

Definition init_state : State :=
  mkState MetricsCollector.init [] [] [] [] ∅ 0 [] 0 0.

(** How a coroutine of the tester ends: with a value, with an exception, or
    still looping when the fuel of the model is spent. *)
Inductive outcome (A : Type) : Type :=
  | Done (a : A) (s : State)
  | Raised (e : exn) (s : State)
  | Pending.
Arguments Done {A} a s.
Arguments Raised {A} e s.
Arguments Pending {A}.

Definition M (A : Type) : Type := State -> outcome A.

Definition ret {A : Type} (a : A) : M A := fun s => Done a s.

Definition bind {A B : Type} (c : M A) (k : A -> M B) : M B :=
  fun s =>
    match c s with
    | Done a s' => k a s'
    | Raised e s' => Raised e s'
    | Pending => Pending
    end.

Definition raise {A : Type} (e : exn) : M A := fun s => Raised e s.
Definition pending {A : Type} : M A := fun _ => Pending.
Definition get_state : M State := fun s => Done s s.
Definition modify (f : State -> State) : M unit := fun s => Done tt (f s).

Notation "'let!' x ':=' c 'in' k" := (bind c (fun x => k))
  (at level 10, x name, c at level 100, k at level 200, only parsing).
Notation "c ;;; k" := (bind c (fun _ => k))
  (at level 100, k at level 200, right associativity, only parsing).

(** [for x in l: await f(x)], and tasks awaited through [asyncio.gather]: the
    model runs them one after the other in the order they were created.
    For a gather this is one schedule among those the event loop may choose:
    the requests of a gathered phase and their order of completion are
    known up to order only. *)
Fixpoint for_each {A : Type} (l : list A) (f : A -> M unit) : M unit :=
  match l with
  | [] => ret tt
  | x :: l' => f x ;;; for_each l' f
  end.

Definition set_metrics (f : MetricsCollector.t -> MetricsCollector.t) (s : State) : State :=
  mkState (f (metrics s)) (regular_users s) (celebrities s) (celebrity_followers s)
    (all_users s) (follow_graph s) (now s) (sent s) (uuids s) (randoms s).

Definition set_now (t : Q) (s : State) : State :=
  mkState (metrics s) (regular_users s) (celebrities s) (celebrity_followers s)
    (all_users s) (follow_graph s) t (sent s) (uuids s) (randoms s).

Definition add_sent (r : Request.t) (s : State) : State :=
  mkState (metrics s) (regular_users s) (celebrities s) (celebrity_followers s)
    (all_users s) (follow_graph s) (now s) (sent s ++ [r]) (uuids s) (randoms s).

(** [str(uuid.uuid4())] *)
Definition fresh_uuid (E : Env) : M string :=
  fun s =>
    Done (uuid4 E (uuids s))
      (mkState (metrics s) (regular_users s) (celebrities s) (celebrity_followers s)
         (all_users s) (follow_graph s) (now s) (sent s) (S (uuids s)) (randoms s)).

(** The index of the next random draw. *)
Definition next_random : M nat :=
  fun s =>
    Done (randoms s)
      (mkState (metrics s) (regular_users s) (celebrities s) (celebrity_followers s)
         (all_users s) (follow_graph s) (now s) (sent s) (uuids s) (S (randoms s))).

(** ** The dispatcher: [LoadTester.api_call] *)

Module ApiResult.

(** The dict [api_call] returns; [None] is an absent key. *)
Record t : Type := mk {
  success : bool;
  status : Z;
  data : option pyval;
  error : option string
}.

(** [result.get("data")] *)
Definition get_data (r : t) : pyval :=
  match data r with
  | Some v => v
  | None => PNone
  end.

End ApiResult.

Definition status_in (status : Z) (expected_status : list Z) : bool :=
  existsb (Z.eqb status) expected_status.

(** [api_call] once the transport's exchange [x] for the request is known. *)
Definition api_call_with (E : Env) (x : Exchange) (request : Request.t)
    (method endpoint : string) (expected_status : list Z) : M ApiResult.t :=
  fun s =>
    let endpoint_key := normalize_endpoint (uuid_ok E) endpoint in
    let start := now s in
    let s := add_sent request s in
    let responded := (start + permit_wait x + response_time x)%Q in
    match answer x with
    | Responds status (BodyJson _ as body) | Responds status (BodyText _ as body) =>
        let latency_ms := ((responded - start) * 1000)%Q in
        let data := match body with BodyText t => PStr t | BodyJson v => v | _ => PNone end in
        let success := status_in status expected_status in
        let metric :=
          RequestMetrics.mk endpoint_key method status latency_ms success
            (if success then None else Some ("HTTP " +:+ str_Z status)) in
        Done (ApiResult.mk success status (Some data) None)
          (set_metrics (MetricsCollector.record metric)
             (set_now (responded + body_time x)%Q s))
    | Responds _ (BodyRaises e) =>
        let raised := (responded + body_time x)%Q in
        let latency_ms := ((raised - start) * 1000)%Q in
        let metric := RequestMetrics.mk endpoint_key method 0 latency_ms false (Some e) in
        Done (ApiResult.mk false 0 None (Some e))
          (set_metrics (MetricsCollector.record metric) (set_now raised s))
    | Fails e =>
        let latency_ms := ((responded - start) * 1000)%Q in
        let metric := RequestMetrics.mk endpoint_key method 0 latency_ms false (Some e) in
        Done (ApiResult.mk false 0 None (Some e))
          (set_metrics (MetricsCollector.record metric) (set_now responded s))
    end.

Definition api_call (E : Env) (config : Config) (method endpoint user_id : string)
    (body : option pyval) (expected_status : option (list Z)) : M ApiResult.t :=
  fun s =>
    let expected_status := default [200%Z] expected_status in
    let url := base_url config +:+ endpoint in
    let headers := [("X-User-Id", user_id); ("Content-Type", "application/json")] in
    let request := Request.mk method url headers body in
    api_call_with E (transport E (length (sent s)) request) request
      method endpoint expected_status s.

(** ** API operations *)

Section Operations.

Context (E : Env) (config : Config).

(** [str(v)] inside an f-string. *)
Definition py_str (v : pyval) : string :=
  match v with
  | PStr s => s
  | _ => py_repr E v
  end.

Definition create_tweet (user_id content : string) : M ApiResult.t :=
  api_call E config "POST" "/api/v1/tweets" user_id
    (Some (PDict [("content", PStr content)])) (Some [201%Z]).

Definition follow_user (follower_id followee_id : string) : M ApiResult.t :=
  api_call E config "POST"
    ("/api/v1/users/" +:+ follower_id +:+ "/follow/" +:+ followee_id)
    follower_id None (Some [201%Z; 409%Z]).

Definition unfollow_user (follower_id followee_id : string) : M ApiResult.t :=
  api_call E config "DELETE"
    ("/api/v1/users/" +:+ follower_id +:+ "/follow/" +:+ followee_id)
    follower_id None (Some [200%Z; 204%Z; 404%Z]).

(** The url of a page: the cursor is appended when it is truthy. *)
Definition page_url (user_id what : string) (limit : nat) (cursor : pyval) : string :=
  let url := "/api/v1/users/" +:+ user_id +:+ what +:+ "?limit=" +:+ str_nat limit in
  if truthy cursor then url +:+ "&cursor=" +:+ py_str cursor else url.

Definition get_timeline (user_id : string) (limit : nat) (cursor : pyval) : M ApiResult.t :=
  api_call E config "GET" (page_url user_id "/timeline" limit cursor) user_id
    None (Some [200%Z]).

Definition get_user_tweets (user_id : string) (limit : nat) (cursor : pyval) : M ApiResult.t :=
  api_call E config "GET" (page_url user_id "/tweets" limit cursor) user_id
    None (Some [200%Z]).

(** [result["data"].get("nextCursor")]: only a dict has [get]. *)
Definition next_cursor (data : pyval) : M pyval :=
  match data with
  | PDict d => ret (dict_get "nextCursor" d)
  | _ => raise (AttributeError "get")
  end.

(** The [while True] loop of [paginate_timeline] and of [paginate_tweets]
    (the two bodies differ in the getter only); [fuel] bounds the number of
    iterations the model follows. *)
Fixpoint paginate (get_page : pyval -> M ApiResult.t) (fuel : nat)
    (pages : nat) (cursor : pyval) : M nat :=
  match fuel with
  | O => pending
  | S fuel' =>
      let! result := get_page cursor in
      let pages := (pages + 1)%nat in
      if negb (ApiResult.success result) || negb (truthy (ApiResult.get_data result))
      then ret pages
      else
        let! cursor := next_cursor (ApiResult.get_data result) in
        if negb (truthy cursor) then ret pages
        else paginate get_page fuel' pages cursor
  end.

Definition paginate_timeline (fuel : nat) (user_id : string) (limit : nat) : M nat :=
  paginate (get_timeline user_id limit) fuel 0 PNone.

Definition paginate_tweets (fuel : nat) (user_id : string) (limit : nat) : M nat :=
  paginate (get_user_tweets user_id limit) fuel 0 PNone.

Definition get_followers (user_id : string) : M ApiResult.t :=
  api_call E config "GET" ("/api/v1/users/" +:+ user_id +:+ "/followers?limit=" +:+ str_nat 20)
    user_id None (Some [200%Z]).

Definition get_following (user_id : string) : M ApiResult.t :=
  api_call E config "GET" ("/api/v1/users/" +:+ user_id +:+ "/following?limit=" +:+ str_nat 20)
    user_id None (Some [200%Z]).

(** ** Test phases *)

Definition set_regular_users (l : list string) (s : State) : State :=
  mkState (metrics s) l (celebrities s) (celebrity_followers s)
    (all_users s) (follow_graph s) (now s) (sent s) (uuids s) (randoms s).

Definition set_celebrities (l : list string) (s : State) : State :=
  mkState (metrics s) (regular_users s) l (celebrity_followers s)
    (all_users s) (follow_graph s) (now s) (sent s) (uuids s) (randoms s).

Definition set_celebrity_followers (l : list string) (s : State) : State :=
  mkState (metrics s) (regular_users s) (celebrities s) l
    (all_users s) (follow_graph s) (now s) (sent s) (uuids s) (randoms s).

Definition set_all_users (l : list string) (s : State) : State :=
  mkState (metrics s) (regular_users s) (celebrities s) (celebrity_followers s)
    l (follow_graph s) (now s) (sent s) (uuids s) (randoms s).

Definition set_follow_graph (g : gmap string (list string)) (s : State) : State :=
  mkState (metrics s) (regular_users s) (celebrities s) (celebrity_followers s)
    (all_users s) g (now s) (sent s) (uuids s) (randoms s).

(** [x in l] for strings. *)
Definition inb (x : string) (l : list string) : bool := existsb (String.eqb x) l.

(** The first 8 characters of [uuid.uuid4().hex] are those of its text. *)
Definition hex8 (u : string) : string := String.substring 0 8 u.

(** Phase 1: every user posts a first tweet. *)
Definition phase_create_users : M unit :=
  for_each (seq 0 (regular config)) (fun i =>
    let! user_id := fresh_uuid E in
    modify (fun s => set_regular_users (regular_users s ++ [user_id]) s) ;;;
    create_tweet user_id ("Hello! I'm regular user " +:+ str_nat (i + 1)) ;;;
    ret tt) ;;;
  for_each (seq 0 (celebrities_count config)) (fun i =>
    let! user_id := fresh_uuid E in
    modify (fun s => set_celebrities (celebrities s ++ [user_id]) s) ;;;
    create_tweet user_id ("Hello! I'm celebrity " +:+ str_nat (i + 1) +:+ " 🌟") ;;;
    ret tt) ;;;
  modify (fun s => set_all_users (regular_users s ++ celebrities s) s).

Definition threshold : nat := 5000.

(** Phase 2: [threshold] fresh followers for every celebrity.  The follower
    ids are drawn while the task list is built, the follows run afterwards. *)
Fixpoint draw_followers (celeb : string) (n : nat) : M (list (string * string)) :=
  match n with
  | O => ret []
  | S n' =>
      let! follower_id := fresh_uuid E in
      modify (fun s => set_celebrity_followers (celebrity_followers s ++ [follower_id]) s) ;;;
      let! tasks := draw_followers celeb n' in
      ret ((follower_id, celeb) :: tasks)
  end.

Fixpoint collect {A B : Type} (l : list A) (f : A -> M (list B)) : M (list B) :=
  match l with
  | [] => ret []
  | x :: l' => let! ys := f x in let! zs := collect l' f in ret (ys ++ zs)
  end.

Definition phase_build_celebrity_followers : M unit :=
  let! s := get_state in
  let! tasks := collect (celebrities s) (fun celeb => draw_followers celeb threshold) in
  for_each tasks (fun '(follower_id, celeb) => follow_user follower_id celeb ;;; ret tt).

(** Phase 3: every regular user follows a sample of the others and all
    celebrities. *)
Definition phase_build_social_graph : M unit :=
  let! s := get_state in
  let! tasks := collect (regular_users s) (fun user =>
    let! s := get_state in
    let others := filter (fun u => u <> user) (regular_users s) in
    let! n := next_random in
    let to_follow :=
      random_sample E n others (Nat.min (follows_per_regular_user config) (length others))
      ++ celebrities s in
    modify (fun s => set_follow_graph (<[user := to_follow]> (follow_graph s)) s) ;;;
    ret (map (fun target => (user, target)) to_follow)) in
  for_each tasks (fun '(user, target) => follow_user user target ;;; ret tt).

(** Phase 4: all users post tweets; the contents are made while the task
    list is built. *)
Definition phase_create_tweets : M unit :=
  let! tasks := collect (seq 0 (tweets_per_user config)) (fun round_num =>
    let! s := get_state in
    collect (all_users s) (fun user =>
      let! s := get_state in
      let user_type := if inb user (celebrities s) then "celebrity 🌟" else "user" in
      let! u := fresh_uuid E in
      ret [(user, "Tweet " +:+ str_nat (round_num + 1) +:+ " from " +:+ user_type
                   +:+ " - " +:+ hex8 u)])) in
  for_each tasks (fun '(user, content) => create_tweet user content ;;; ret tt).

Definition page_size : nat := default 10%nat (pagination_page_size config).

(** Phase 5: users read their timelines with pagination. *)
Definition phase_read_timelines (fuel : nat) : M unit :=
  let! s := get_state in
  let tasks := concat (map (fun _ => regular_users s) (seq 0 (timeline_reads_per_user config))) in
  for_each tasks (fun user => paginate_timeline fuel user page_size ;;; ret tt).

(** Phase 6: users check profiles with pagination. *)
Definition phase_check_profiles (fuel : nat) : M unit :=
  let! s := get_state in
  for_each (all_users s) (fun user =>
    paginate_tweets fuel user page_size ;;;
    get_followers user ;;;
    get_following user ;;;
    ret tt).

(** Phase 7: some users unfollow others. *)
Definition phase_unfollow_some : M unit :=
  let unfollows_per := default 1%nat (unfollows_per_user config) in
  let! s := get_state in
  for_each (regular_users s) (fun user =>
    let! s := get_state in
    let following := default [] (follow_graph s !! user) in
    let regular_following := filter (fun f => inb f (celebrities s) = false) following in
    for_each (seq 0 (Nat.min unfollows_per (length regular_following))) (fun i =>
      match index regular_following i with
      | Ok followee => unfollow_user user followee ;;; ret tt
      | Err e => raise e
      end)).

(** Phase 8: two rounds in which every regular user tweets, follows someone
    new if there is someone, and reads the timeline. *)
Definition mixed_user_activity (fuel : nat) (user : string) (round_num : nat) : M unit :=
  let! u := fresh_uuid E in
  create_tweet user ("Live tweet " +:+ str_nat (round_num + 1) +:+ " - " +:+ hex8 u) ;;;
  let! s := get_state in
  let not_following :=
    filter (fun u => u <> user /\ inb u (default [] (follow_graph s !! user)) = false)
      (regular_users s) in
  match not_following with
  | [] => ret tt
  | _ =>
      let! n := next_random in
      follow_user user (random_choice E n not_following) ;;; ret tt
  end ;;;
  paginate_timeline fuel user page_size ;;;
  ret tt.

Definition phase_mixed_activity (fuel : nat) : M unit :=
  let! s := get_state in
  let tasks := concat (map (fun round_num => map (fun user => (user, round_num)) (regular_users s))
                         (seq 0 2)) in
  for_each tasks (fun '(user, round_num) => mixed_user_activity fuel user round_num).

End Operations.

(** ** Results and verdict: [LoadTester.print_results] *)

(** A failure reason of the verdict panel, with the measured value and the
    threshold its message prints. *)
Inductive Reason : Type :=
  | ErrorRateReason (measured threshold : Q)
  | P95Reason (measured threshold : Q).

(** The verdict panel printed when rich is available. *)
Inductive Panel : Type :=
  | PassedPanel (success_rate p95 : Q)
  | FailedPanel (reasons : list Reason).

Definition Qlt_bool (a b : Q) : bool := negb (Qle_bool b a).

(** [needle in s] for strings. *)
Fixpoint contains (needle s : string) : bool :=
  starts_with needle s ||
  match s with
  | EmptyString => false
  | String _ s' => contains needle s'
  end.

Fixpoint rmap {A B : Type} (f : A -> result B) (l : list A) : result (list B) :=
  match l with
  | [] => Ok []
  | x :: l' => rbind (f x) (fun y => rbind (rmap f l') (fun ys => Ok (y :: ys)))
  end.

(** The values of one row of the endpoint table (lines 650-661). *)
Definition endpoint_row (stats : EndpointStats.t) : result (Q * Q * Q) :=
  rbind (EndpointStats.p50 stats) (fun p50 =>
  rbind (EndpointStats.p95 stats) (fun p95 =>
  Ok (EndpointStats.success_rate stats, p50, p95))).

Definition endpoint_rows (m : MetricsCollector.t) : result (list (Q * Q * Q)) :=
  rmap (fun '(ep, stats) => endpoint_row stats)
    (filter (fun '(ep, stats) =>
               (contains "follow" ep && (1000 <? EndpointStats.total stats)%nat) = false)
       (map_to_list (MetricsCollector.by_endpoint m))).

(** The value [print_results] returns, with the verdict panel it prints
    (none without rich).  Tables are not modelled beyond the values they
    read, which may raise.  The success rate and its comparison with the
    threshold are exact here; [print_results_float] has them in binary64. *)
Definition print_results (E : Env) (config : Config) (m : MetricsCollector.t)
  : result (bool * option Panel) :=
  rbind (MetricsCollector.get_phase_stats "setup" m) (fun setup_stats =>
  rbind (MetricsCollector.get_phase_stats "runtime" m) (fun runtime_stats =>
  if RICH_AVAILABLE E then
    rbind (PhaseStats.get_success_rate setup_stats) (fun _ =>
    rbind (PhaseStats.get_success_rate runtime_stats) (fun runtime_success_rate =>
    let rate_ok := Qle_bool (100 - max_error_rate_percent config) runtime_success_rate in
    let p95_ok := Qlt_bool (PhaseStats.p95 runtime_stats) (max_p95_latency_ms config) in
    rbind (endpoint_rows m) (fun _ =>
    let passed := rate_ok && p95_ok in
    if passed
    then Ok (passed, Some (PassedPanel runtime_success_rate (PhaseStats.p95 runtime_stats)))
    else
      let reasons :=
        (if negb rate_ok
         then [ErrorRateReason (100 - runtime_success_rate) (max_error_rate_percent config)]
         else [])
        ++ (if negb p95_ok
            then [P95Reason (PhaseStats.p95 runtime_stats) (max_p95_latency_ms config)]
            else []) in
      Ok (passed, Some (FailedPanel reasons)))))
  else
    rbind (PhaseStats.get_success_rate runtime_stats) (fun runtime_success_rate =>
    Ok (Qle_bool 95 runtime_success_rate, None)))).

(** ** The verdict in double precision

    Python's floats are IEEE 754 binary64 numbers, the kernel's
    [PrimFloat.float].  [get_phase_stats] computes the success rate with a
    division and a multiplication, each rounded (line 124), and
    [print_results] compares it with a difference (line 621); the other
    values the verdict reads are compared only. *)

(** An integer as a float: exact below 2^53. *)
Definition float_of_Z (z : Z) : PrimFloat.float :=
  if (z <? 0)%Z then PrimFloat.opp (PrimFloat.of_uint63 (Uint63.of_Z (- z)))
  else PrimFloat.of_uint63 (Uint63.of_Z z).

Definition float_of_nat (n : nat) : PrimFloat.float := float_of_Z (Z.of_nat n).

(** The float a number of config.json is read as: the float nearest to the
    decimal written there (numerator and denominator below 2^53); an
    integer is itself. *)
Definition float_of_Q (q : Q) : PrimFloat.float :=
  PrimFloat.div (float_of_Z (Qnum q)) (float_of_Z (Zpos (Qden q))).

(** [success / len(requests) * 100] (line 124) *)
Definition float_success_rate (success total : nat) : PrimFloat.float :=
  PrimFloat.mul (PrimFloat.div (float_of_nat success) (float_of_nat total))
    (float_of_nat 100).

(** [runtime_success_rate >= (100 - cfg["max_error_rate_percent"])] (line 621) *)
Definition float_rate_ok (success_rate : PrimFloat.float) (max_error_rate : Q) : bool :=
  PrimFloat.leb (PrimFloat.sub (float_of_nat 100) (float_of_Q max_error_rate)) success_rate.

(** The verdict panel with the rates as the floats they are. *)
Inductive FloatReason : Type :=
  | FloatErrorRateReason (measured : PrimFloat.float) (threshold : Q)
  | FloatP95Reason (measured threshold : Q).

Inductive FloatPanel : Type :=
  | FloatPassedPanel (success_rate : PrimFloat.float) (p95 : Q)
  | FloatFailedPanel (reasons : list FloatReason).

(** [print_results] with the success rate of the runtime phase computed and
    compared in binary64, from the 'success' and 'total' of the dict that
    holds it. *)
Definition print_results_float (E : Env) (config : Config) (m : MetricsCollector.t)
  : result (bool * option FloatPanel) :=
  rbind (MetricsCollector.get_phase_stats "setup" m) (fun setup_stats =>
  rbind (MetricsCollector.get_phase_stats "runtime" m) (fun runtime_stats =>
  let rate :=
    float_success_rate (PhaseStats.success runtime_stats) (PhaseStats.total runtime_stats) in
  if RICH_AVAILABLE E then
    rbind (PhaseStats.get_success_rate setup_stats) (fun _ =>
    rbind (PhaseStats.get_success_rate runtime_stats) (fun _ =>
    let runtime_success_rate := rate in
    let rate_ok := float_rate_ok runtime_success_rate (max_error_rate_percent config) in
    let p95_ok := Qlt_bool (PhaseStats.p95 runtime_stats) (max_p95_latency_ms config) in
    rbind (endpoint_rows m) (fun _ =>
    let passed := rate_ok && p95_ok in
    if passed
    then Ok (passed,
             Some (FloatPassedPanel runtime_success_rate (PhaseStats.p95 runtime_stats)))
    else
      let reasons :=
        (if negb rate_ok
         then [FloatErrorRateReason (PrimFloat.sub (float_of_nat 100) runtime_success_rate)
                 (max_error_rate_percent config)]
         else [])
        ++ (if negb p95_ok
            then [FloatP95Reason (PhaseStats.p95 runtime_stats) (max_p95_latency_ms config)]
            else []) in
      Ok (passed, Some (FloatFailedPanel reasons)))))
  else
    rbind (PhaseStats.get_success_rate runtime_stats) (fun _ =>
    Ok (PrimFloat.leb (float_of_nat 95) rate, None)))).

(** ** The scenario: [LoadTester.run] and [main] *)

(** [await asyncio.sleep(seconds)] *)
Definition sleep (seconds : Q) : M unit :=
  modify (fun s => set_now (now s + seconds)%Q s).

Definition run (E : Env) (config : Config) (fuel : nat) : M bool :=
  if negb (health E) then ret false
  else
    modify (fun s => set_metrics (MetricsCollector.set_start_time (now s)) s) ;;;
    modify (set_metrics (MetricsCollector.set_phase "setup")) ;;;
    phase_create_users E config ;;;
    phase_build_celebrity_followers E config ;;;
    phase_build_social_graph E config ;;;
    modify (set_metrics (MetricsCollector.set_phase "runtime")) ;;;
    phase_create_tweets E config ;;;
    sleep (delay_after_writes_ms config / 1000) ;;;
    phase_read_timelines E config fuel ;;;
    phase_check_profiles E config fuel ;;;
    phase_unfollow_some E config ;;;
    phase_mixed_activity E config fuel ;;;
    modify (fun s => set_metrics (MetricsCollector.set_end_time (now s)) s) ;;;
    let! s := get_state in
    match print_results E config (metrics s) with
    | Ok (passed, _) => ret passed
    | Err e => raise e
    end.

(** [sys.exit(0 if passed else 1)] *)
Definition exit_status (passed : bool) : Z := if passed then 0%Z else 1%Z.

(** The exit status of the process for a load test: that of [sys.exit], 1
    when an exception escapes [main]; [None] while the model is out of fuel. *)
Definition main (E : Env) (config : Config) (fuel : nat) : option Z :=
  match run E config fuel init_state with
  | Done passed _ => Some (exit_status passed)
  | Raised _ _ => Some 1%Z
  | Pending => None
  end.

(** ** The volumes announced: [print_config] and the progress totals of [run] *)

(** [print_config], lines 528-543. *)
Definition total_celeb_follows (config : Config) : nat :=
  celebrities_count config * threshold.

Definition setup_ops (config : Config) : nat :=
  regular config + celebrities_count config
  + total_celeb_follows config
  + regular config * (follows_per_regular_user config + celebrities_count config).

Definition runtime_ops (config : Config) : nat :=
  (regular config + celebrities_count config) * tweets_per_user config
  + regular config * timeline_reads_per_user config
  + (regular config + celebrities_count config)
  + regular config * default 1%nat (unfollows_per_user config)
  + regular config * 2.

(** [run], lines 738-746 and 810. *)
Definition phase1_ops (config : Config) : nat := regular config + celebrities_count config.

Definition phase2_ops (config : Config) : nat := celebrities_count config * threshold.

Definition phase3_ops (config : Config) : nat :=
  regular config * (follows_per_regular_user config + celebrities_count config).

Definition phase4_ops (config : Config) : nat :=
  (regular config + celebrities_count config) * tweets_per_user config.

Definition phase5_ops (config : Config) : nat :=
  regular config * timeline_reads_per_user config.

Definition phase6_ops (config : Config) : nat := regular config + celebrities_count config.

Definition phase7_ops (config : Config) : nat :=
  regular config * default 1%nat (unfollows_per_user config).

Definition phase8_ops (config : Config) : nat := regular config * 2.

(** ** Notions used to state the properties *)

(** [c in s] for one character. *)
Fixpoint has_char (c : ascii) (s : string) : bool :=
  match s with
  | EmptyString => false
  | String a s' => Ascii.eqb a c || has_char c s'
  end.

(** [s[k:]] *)
Fixpoint sdrop (k : nat) (s : string) : string :=
  match k, s with
  | O, _ => s
  | S k', String _ s' => sdrop k' s'
  | S _, EmptyString => EmptyString
  end.

(** One pass of the normalization loop of [api_call] over a segment. *)
Definition normalize_step (uuid_ok : string -> bool) (endpoint_key segment : string) : string :=
  if uuid_ok segment then py_replace segment "{id}" endpoint_key else endpoint_key.

(** The specification's quantile over recorded samples: the sample at sorted
    index floor(n * q), clamped to [0, n-1]; zero when there is no sample. *)
Definition quantile (q : Q) (samples : list Q) : Q :=
  match samples with
  | [] => 0%Q
  | _ =>
      let n := length samples in
      nth (Nat.min (int_of_product n q) (n - 1)) (sorted samples) 0%Q
  end.

(** The statistical median: the middle sample, or the mean of the two
    middle samples of an even number of samples; zero when there is none. *)
Definition median_value (samples : list Q) : Q :=
  match samples with
  | [] => 0%Q
  | _ =>
      let n := length samples in
      if Nat.odd n then nth (n / 2) (sorted samples) 0%Q
      else ((nth (n / 2 - 1) (sorted samples) 0 + nth (n / 2) (sorted samples) 0) / 2)%Q
  end.

(** The requests recorded under a phase tag, and their latencies. *)
Definition phase_requests (phase : string) (m : MetricsCollector.t) : list RequestMetrics.t :=
  if String.eqb phase "setup" then MetricsCollector.setup_requests m
  else MetricsCollector.runtime_requests m.

Definition phase_latencies (phase : string) (m : MetricsCollector.t) : list Q :=
  map RequestMetrics.latency_ms (phase_requests phase m).

(** [by_endpoint[key]] of the defaultdict: the default stats for a new key. *)
Definition bucket (key : string) (m : MetricsCollector.t) : EndpointStats.t :=
  default EndpointStats.default (MetricsCollector.by_endpoint m !! key).

(** The calls that change a collector, and the collector after a sequence
    of them on a fresh one. *)
Inductive collector_call : Type :=
  | CallRecord (metric : RequestMetrics.t)
  | CallSetPhase (phase : string).

Definition apply_call (m : MetricsCollector.t) (c : collector_call) : MetricsCollector.t :=
  match c with
  | CallRecord metric => MetricsCollector.record metric m
  | CallSetPhase phase => MetricsCollector.set_phase phase m
  end.

Definition collector_after (calls : list collector_call) : MetricsCollector.t :=
  fold_left apply_call calls MetricsCollector.init.

(** The error rate of a list of requests, in percent. *)
Definition error_rate (requests : list RequestMetrics.t) : Q :=
  (Qnat (length requests - MetricsCollector.count_success requests)
   / Qnat (length requests) * 100)%Q.

(** The number of failed requests in a list. *)
Definition failures (requests : list RequestMetrics.t) : nat :=
  (length requests - MetricsCollector.count_success requests)%nat.

(** Whether an exchange ends with an exception while the body is read. *)
Definition raised_in_body (x : Exchange) : bool :=
  match answer x with
  | Responds _ (BodyRaises _) => true
  | _ => false
  end.

(** The seconds from the call of [api_call] to the moment its latency is
    taken: the wait for a permit, the time to the response or exception,
    and the body time when the exception comes from reading the body. *)
Definition measured_interval (x : Exchange) : Q :=
  (permit_wait x + response_time x + (if raised_in_body x then body_time x else 0))%Q.

(** The seconds the transport itself takes, from its invocation (with the
    permit held) to its completion: response and body. *)
Definition transport_interval (x : Exchange) : Q :=
  (response_time x + body_time x)%Q.

(** The request [api_call] hands to the transport. *)
Definition request_of (config : Config) (method endpoint user_id : string)
    (body : option pyval) : Request.t :=
  Request.mk method (base_url config +:+ endpoint)
    [("X-User-Id", user_id); ("Content-Type", "application/json")] body.

(** ** A concrete environment for examples *)

Definition hex_digit (k : nat) : ascii :=
  ascii_of_nat (if (k <? 10)%nat then 48 + k else 87 + k).

Fixpoint hex_of (digits n : nat) : string :=
  match digits with
  | O => EmptyString
  | S d => hex_of d (n / 16) +:+ String (hex_digit (n mod 16)) EmptyString
  end.

(** The [n]-th identifier of the example runs, in the form of a UUID text. *)
Definition demo_uuid (n : nat) : string := hex_of 8 n +:+ "-0000-4000-8000-000000000000".

(** A transport that answers every POST with 201 and every other request
    with 200, after [seconds], with the JSON object [payload]. *)
Definition ok_exchange (seconds : Q) (payload : list (string * pyval)) (r : Request.t)
  : Exchange :=
  mkExchange 0 seconds 0
    (Responds (if String.eqb (Request.method r) "POST" then 201%Z else 200%Z)
       (BodyJson (PDict payload))).

(** An environment with that transport, a healthy target, samples and
    choices taken from the front of the population. *)
Definition demo_env (rich : bool) (transport : nat -> Request.t -> Exchange) : Env :=
  mkEnv uuid_canonical (fun _ => EmptyString) demo_uuid
    (fun _ population k => take k population) (fun _ population => hd EmptyString population)
    transport true rich.

Definition ok_env (rich : bool) (seconds : Q) : Env :=
  demo_env rich (fun _ r => ok_exchange seconds [] r).

(** An exchange that waits 2 s for a permit and is answered after 1 s. *)
Definition queued_exchange : Exchange :=
  mkExchange 2 1 0 (Responds 200%Z (BodyJson (PDict []))).

(** The reasons a verdict panel lists. *)
Definition panel_reasons (panel : Panel) : list Reason :=
  match panel with
  | PassedPanel _ _ => []
  | FailedPanel reasons => reasons
  end.

(** A transport that answers every request with status 409 and no payload fields. *)
Definition conflict_env : Env :=
  demo_env true (fun _ _ => mkExchange 0 1 0 (Responds 409%Z (BodyJson (PDict [])))).

Definition demo_config : Config :=
  mkConfig "http://localhost:8080" 10 0 0 1 0 None None 0 5 2000.

(** A metric of the examples: a tweet post that took [latency] ms. *)
Definition sample_metric (success : bool) (latency : Q) : RequestMetrics.t :=
  RequestMetrics.mk "/api/v1/tweets" "POST" (if success then 201%Z else 500%Z) latency
    success (if success then None else Some "HTTP 500").

(** One request in setup; in runtime [ok] successes and [failed] failures,
    each of [latency] ms. *)
Definition sample_collector (ok failed : nat) (latency : Q) : MetricsCollector.t :=
  collector_after
    ([CallRecord (sample_metric true 10); CallSetPhase "runtime"]
     ++ repeat (CallRecord (sample_metric true latency)) ok
     ++ repeat (CallRecord (sample_metric false latency)) failed).

(** Thresholds 5 % and 200 ms, two regular users. *)
Definition small_config : Config :=
  mkConfig "http://localhost:8080" 2 0 0 1 0 None None 0 5 200.

(** Thresholds 43 % and 200 ms. *)
Definition lenient_config : Config :=
  mkConfig "http://localhost:8080" 2 0 0 1 0 None None 0 43 200.

(** Thresholds 2.1 % and 200 ms. *)
Definition strict_config : Config :=
  mkConfig "http://localhost:8080" 2 0 0 1 0 None None 0 (21 # 10) 200.

Definition float_panel_reasons (panel : FloatPanel) : list FloatReason :=
  match panel with
  | FloatPassedPanel _ _ => []
  | FloatFailedPanel reasons => reasons
  end.

(** What a coroutine's outcome holds. *)
Definition outcome_value {A : Type} (o : outcome A) : option A :=
  match o with
  | Done a _ => Some a
  | _ => None
  end.

Definition outcome_exn {A : Type} (o : outcome A) : option exn :=
  match o with
  | Raised e _ => Some e
  | _ => None
  end.

Definition outcome_state {A : Type} (o : outcome A) : option State :=
  match o with
  | Done _ s | Raised _ s => Some s
  | Pending => None
  end.

(** The pagination sub-protocol in the specification's words: after a
    response, the cursor to repeat with, if any.  A response that is
    unsuccessful or carries no payload gives none; a payload whose next
    cursor is absent or empty gives none (a payload that is no JSON object
    has no such field). *)
Definition next_page (result : ApiResult.t) : option pyval :=
  if ApiResult.success result && truthy (ApiResult.get_data result)
  then match ApiResult.get_data result with
       | PDict d =>
           if truthy (dict_get "nextCursor" d) then Some (dict_get "nextCursor" d) else None
       | _ => None
       end
  else None.

Definition is_dict (v : pyval) : bool :=
  match v with
  | PDict _ => true
  | _ => false
  end.

(** A transport that answers every request with status 200 and the text "OK". *)
Definition text_env : Env :=
  demo_env true (fun _ _ => mkExchange 0 1 0 (Responds 200%Z (BodyText "OK"))).

(** A paginated endpoint whose successive responses carry the cursors "a",
    "b" and then the empty cursor. *)
Definition cursor_env : Env :=
  demo_env true (fun n _ =>
    mkExchange 0 1 0
      (Responds 200%Z
         (BodyJson (PDict [("data", PList []);
                           ("nextCursor",
                            PStr (match n with O => "a" | 1%nat => "b" | _ => "" end))])))).

(** The statuses every operation sent with a method accepts: create_tweet
    and follow_user share 201 for POST, unfollow_user takes 200, 204 and 404
    for DELETE, every GET takes 200. *)
Definition accepted (method : string) (status : Z) : bool :=
  if String.eqb method "POST" then (status =? 201)%Z
  else if String.eqb method "DELETE"
       then ((status =? 200) || (status =? 204) || (status =? 404))%Z
       else (status =? 200)%Z.

(** A payload after which pagination ends with its page count: it is falsy,
    or a JSON object whose next cursor is absent or empty. *)
Definition last_page (v : pyval) : bool :=
  negb (truthy v)
  || match v with
     | PDict d => negb (truthy (dict_get "nextCursor" d))
     | _ => false
     end.

Definition body_value (b : body_read) : option pyval :=
  match b with
  | BodyJson v => Some v
  | BodyText t => Some (PStr t)
  | BodyRaises _ => None
  end.

(** A transport that always returns a success status, with a payload that
    ends pagination. *)
Definition always_succeeds (E : Env) : Prop :=
  forall (n : nat) (r : Request.t),
    exists status body v,
      answer (transport E n r) = Responds status body
      /\ accepted (Request.method r) status = true
      /\ body_value body = Some v
      /\ last_page v = true.

(** [c] started in a state of [P] returns, in a state of [Q]. *)
Definition triple {A : Type} (P : State -> Prop) (c : M A) (Q : A -> State -> Prop) : Prop :=
  forall s, P s -> exists a s', c s = Done a s' /\ Q a s'.

(** The tester in the setup phase once the users [U] exist, and in the
    runtime phase with at least [n] runtime requests, none of them failed. *)
Definition setup_ready (U : list string) (s : State) : Prop :=
  regular_users s = U /\ all_users s = U /\ celebrities s = []
  /\ MetricsCollector.phase (metrics s) = "setup"
  /\ MetricsCollector.setup_requests (metrics s) <> []
  /\ MetricsCollector.runtime_requests (metrics s) = [].

Definition runtime_inv (U : list string) (n : nat) (s : State) : Prop :=
  regular_users s = U /\ all_users s = U /\ celebrities s = []
  /\ MetricsCollector.phase (metrics s) = "runtime"
  /\ MetricsCollector.setup_requests (metrics s) <> []
  /\ (n <= length (MetricsCollector.runtime_requests (metrics s)))%nat
  /\ failures (MetricsCollector.runtime_requests (metrics s)) = 0%nat.

(** What a finished run leaves: the value returned, the number of runtime
    requests recorded and the number of them that failed. *)
Definition run_summary (o : outcome bool) : option (bool * nat * nat) :=
  match o with
  | Done passed s =>
      Some (passed, length (MetricsCollector.runtime_requests (metrics s)),
            failures (MetricsCollector.runtime_requests (metrics s)))
  | _ => None
  end.

(** A bucket whose counters agree with each other and with its samples. *)
Definition balanced (stats : EndpointStats.t) : Prop :=
  EndpointStats.total stats = (EndpointStats.success stats + EndpointStats.failed stats)%nat
  /\ EndpointStats.total stats = length (EndpointStats.latencies stats).

(** The state while the first tweets are posted: [i] regular users exist. *)
Definition creating_users (i : nat) (s : State) : Prop :=
  (celebrities s = [] /\ length (regular_users s) = i)
  /\ MetricsCollector.phase (metrics s) = "setup"
  /\ MetricsCollector.runtime_requests (metrics s) = []
  /\ ((0 < i)%nat -> MetricsCollector.setup_requests (metrics s) <> []).

(** No user at all: nothing is ever requested. *)
Definition empty_config : Config :=
  mkConfig "http://localhost:8080" 0 0 0 1 0 None None 0 5 200.

(** ** Notions used to state further properties *)

(** The metrics a sequence of collector calls records, in their order. *)
Definition recorded (calls : list collector_call) : list RequestMetrics.t :=
  flat_map (fun c => match c with CallRecord metric => [metric] | CallSetPhase _ => [] end)
    calls.

(** The requests of a list that go to the bucket [key]. *)
Definition in_bucket (key : string) (requests : list RequestMetrics.t)
  : list RequestMetrics.t :=
  filter (fun r => MetricsCollector.bucket_key r = key) requests.

(** The failed requests of a list that are counted under the error [k]. *)
Definition with_error (k : string) (requests : list RequestMetrics.t)
  : list RequestMetrics.t :=
  filter (fun r => RequestMetrics.success r = false /\ MetricsCollector.err_key r = k)
    requests.

(** A column of the endpoint table summed over all of its rows. *)
Definition table_sum (column : EndpointStats.t -> nat) (m : MetricsCollector.t) : nat :=
  sum_list (map (fun row => column row.2) (map_to_list (MetricsCollector.by_endpoint m))).

(** The counts of a bucket's error dict summed over its keys. *)
Definition errors_sum (stats : EndpointStats.t) : nat :=
  sum_list (map snd (map_to_list (EndpointStats.errors stats))).

(** A paginated endpoint whose every response carries the next cursor "a". *)
Definition endless_env : Env :=
  demo_env true (fun _ _ =>
    mkExchange 0 1 0 (Responds 200%Z (BodyJson (PDict [("nextCursor", PStr "a")])))).

(** A getter that sends and records one request per call. *)
Definition one_request (get_page : pyval -> M ApiResult.t) : Prop :=
  forall cursor s, exists result s',
    get_page cursor s = Done result s'
    /\ length (sent s') = S (length (sent s))
    /\ length (MetricsCollector.requests (metrics s'))
       = S (length (MetricsCollector.requests (metrics s))).

(** The requests sent and recorded from [s] to [s']: [k] more of each. *)
Definition grown_by (k : nat) (s s' : State) : Prop :=
  length (sent s') = (length (sent s) + k)%nat
  /\ length (MetricsCollector.requests (metrics s'))
     = (length (MetricsCollector.requests (metrics s)) + k)%nat.

(** What an operation records: one metric, in the bucket [key]. *)
Definition recorded_under (c : M ApiResult.t) (s : State) (key : string) : Prop :=
  exists result metric s',
    c s = Done result s'
    /\ MetricsCollector.requests (metrics s')
       = MetricsCollector.requests (metrics s) ++ [metric]
    /\ MetricsCollector.bucket_key metric = key.


(** ** Whatever the outcome *)

(** [c] started in a state of [P] ends, if it ends, in a state of [Q],
    whether it returns or raises. *)
Definition ensures {A : Type} (P : State -> Prop) (c : M A) (Q : State -> Prop) : Prop :=
  forall s, P s ->
    match c s with
    | Done _ s' | Raised _ s' => Q s'
    | Pending => True
    end.

(** A metric that is the outcome of a request: it has the request's method,
    and its path is the bucket path of the endpoint the request went to. *)
Definition outcome_of (E : Env) (config : Config) (request : Request.t)
    (metric : RequestMetrics.t) : Prop :=
  RequestMetrics.method metric = Request.method request
  /\ exists endpoint,
       Request.url request = base_url config +:+ endpoint
       /\ RequestMetrics.endpoint metric = normalize_endpoint (uuid_ok E) endpoint.

(** A property of the requests sent and of the collector alone, which
    every dispatched call keeps. *)
Definition stable (E : Env) (config : Config) (J : State -> Prop) : Prop :=
  (forall s s', metrics s' = metrics s -> sent s' = sent s -> J s -> J s')
  /\ (forall s metric t request,
        outcome_of E config request metric -> J s ->
        J (set_metrics (MetricsCollector.record metric) (set_now t (add_sent request s)))).

(** Two collectors that differ in their start and end times at most. *)
Definition same_log (m m' : MetricsCollector.t) : Prop :=
  MetricsCollector.requests m = MetricsCollector.requests m'
  /\ MetricsCollector.by_endpoint m = MetricsCollector.by_endpoint m'
  /\ MetricsCollector.phase m = MetricsCollector.phase m'
  /\ MetricsCollector.setup_requests m = MetricsCollector.setup_requests m'
  /\ MetricsCollector.runtime_requests m = MetricsCollector.runtime_requests m'.

(** The collector of a run agrees with the requests the run has sent: the
    k-th metric is the outcome of the k-th request, the setup requests come
    before the runtime requests, and the collector is one that [record] and
    [set_phase] calls on a fresh collector produce. *)
Definition log_consistent (E : Env) (config : Config) (s : State) : Prop :=
  Forall2 (outcome_of E config) (sent s) (MetricsCollector.requests (metrics s))
  /\ MetricsCollector.requests (metrics s)
     = MetricsCollector.setup_requests (metrics s)
       ++ MetricsCollector.runtime_requests (metrics s)
  /\ (MetricsCollector.phase (metrics s) = "setup" ->
      MetricsCollector.runtime_requests (metrics s) = [])
  /\ exists calls, same_log (metrics s) (collector_after calls).

(** ** The phases, whatever the target answers *)

(** The users of [s'] are those of [s]. *)
Definition same_users (s s' : State) : Prop :=
  regular_users s' = regular_users s
  /\ celebrities s' = celebrities s
  /\ celebrity_followers s' = celebrity_followers s
  /\ all_users s' = all_users s
  /\ follow_graph s' = follow_graph s.

(** The users a regular user may be given to follow in phase 3. *)
Definition others_of (user : string) (users : list string) : list string :=
  filter (fun u => u <> user) users.

(** [random.sample(population, k)] returns [k] elements. *)
Definition sample_sized (E : Env) : Prop :=
  forall (n : nat) (population : list string) (k : nat),
    (k <= length population)%nat -> length (random_sample E n population k) = k.

(** The requests sent from [s] to [s']. *)
Definition sent_since (s s' : State) : list Request.t := drop (length (sent s)) (sent s').

(** From [s0] on, [k] requests were sent and recorded and the users are unchanged. *)
Definition counting (s0 : State) (k : nat) (s : State) : Prop :=
  grown_by k s0 s /\ same_users s0 s.

(** The first tweet of the [i]-th user made by a loop of phase 1. *)
Definition first_tweet (E : Env) (config : Config) (first_uuid : nat) (greeting : nat -> string)
    (i : nat) : Request.t :=
  request_of config "POST" "/api/v1/tweets" (uuid4 E (first_uuid + i))
    (Some (PDict [("content", PStr (greeting i))])).

Definition regular_greeting (i : nat) : string :=
  "Hello! I'm regular user " +:+ str_nat (i + 1).

Definition celebrity_greeting (i : nat) : string :=
  "Hello! I'm celebrity " +:+ str_nat (i + 1) +:+ " 🌟".

(** The follows phase 3 asks of [user]: a sample of the other regular
    users, of the configured size if there are that many, and every
    celebrity. *)
Definition follows_of (config : Config) (users celebs : list string) (user : string) : nat :=
  (Nat.min (follows_per_regular_user config) (length (others_of user users))
   + length celebs)%nat.

(** The unfollow request of [user] for [followee]. *)
Definition unfollow_request (config : Config) (user followee : string) : Request.t :=
  request_of config "DELETE" ("/api/v1/users/" +:+ user +:+ "/follow/" +:+ followee)
    user None.

(** An unfollow that phase 7 may send from the state [s]: a regular user
    drops someone of its entry in the follow graph who is no celebrity. *)
Definition regular_unfollow (config : Config) (s : State) (r : Request.t) : Prop :=
  exists user followee,
    In user (regular_users s)
    /\ In followee (default [] (follow_graph s !! user))
    /\ inb followee (celebrities s) = false
    /\ r = unfollow_request config user followee.

(** [s.endswith(c)] for one character, and the string of [k] characters [c]. *)
Fixpoint ends_with (c : ascii) (s : string) : bool :=
  match s with
  | EmptyString => false
  | String a EmptyString => Ascii.eqb a c
  | String _ s' => ends_with c s'
  end.

Fixpoint repeat_char (c : ascii) (k : nat) : string :=
  match k with
  | O => EmptyString
  | S k' => String c (repeat_char c k')
  end.

(** [c] raises no exception but those of [allowed], each with the state
    it is raised in. *)
Definition raises_only {A : Type} (allowed : exn -> State -> Prop) (c : M A) : Prop :=
  forall s,
    match c s with
    | Raised e s' => allowed e s'
    | _ => True
    end.

(** The two exceptions that end a run: the AttributeError of pagination on
    a payload that is no JSON object, and the KeyError of [print_results] on
    the statistics of a phase without requests. *)
Definition run_exception (E : Env) (e : exn) (s : State) : Prop :=
  e = AttributeError "get"
  \/ (e = KeyError "success_rate"
      /\ (MetricsCollector.runtime_requests (metrics s) = []
          \/ (RICH_AVAILABLE E = true /\ MetricsCollector.setup_requests (metrics s) = []))).

(** The tester in the runtime phase, with the regular users [Rs] and the
    users [As], requests recorded in the setup phase and at least [n]
    runtime requests, none of them failed. *)
Definition runtime_ok (Rs As : list string) (n : nat) (s : State) : Prop :=
  regular_users s = Rs /\ all_users s = As
  /\ MetricsCollector.phase (metrics s) = "runtime"
  /\ MetricsCollector.setup_requests (metrics s) <> []
  /\ (n <= length (MetricsCollector.runtime_requests (metrics s)))%nat
  /\ failures (MetricsCollector.runtime_requests (metrics s)) = 0%nat.
(** * Properties *)

(** ** Strings *)

Lemma append_nil_r (s : string) : s +:+ "" = s.
Proof. induction s as [|c s IH]; simpl; [reflexivity | now rewrite IH]. Qed.

Lemma append_assoc (a b c : string) : (a +:+ b) +:+ c = a +:+ (b +:+ c).
Proof. induction a as [|x a IH]; simpl; [reflexivity | now rewrite IH]. Qed.

Lemma has_char_append (c : ascii) (a b : string) :
  has_char c (a +:+ b) = has_char c a || has_char c b.
Proof.
  induction a as [|x a IH]; simpl; [reflexivity |].
  rewrite IH. now rewrite orb_assoc.
Qed.

Lemma starts_with_refl (p r : string) : starts_with p (p +:+ r) = true.
Proof.
  induction p as [|a p IH]; simpl; [reflexivity |].
  now rewrite Ascii.eqb_refl.
Qed.

Lemma starts_with_same (p : string) : starts_with p p = true.
Proof. induction p as [|a p IH]; simpl; [reflexivity | now rewrite Ascii.eqb_refl]. Qed.

Lemma starts_with_length (p s : string) :
  starts_with p s = true -> (String.length p <= String.length s)%nat.
Proof.
  revert s. induction p as [|a p IH]; intros [|b s] H; simpl in *; try lia; try discriminate.
  destruct (Ascii.eqb a b); [| discriminate].
  specialize (IH _ H). lia.
Qed.

(** A character that does not occur in [p] ends every attempt to match [p]. *)
Lemma starts_with_sep (p a b : string) (c : ascii) :
  has_char c p = false ->
  starts_with p (a +:+ String c b) = starts_with p a.
Proof.
  revert a. induction p as [|x p IH]; intros a Hc; [now destruct a |].
  simpl in Hc. apply orb_false_elim in Hc as [Hx Hp].
  destruct a as [|y a]; simpl.
  - now rewrite Hx.
  - destruct (Ascii.eqb x y); [now apply IH | reflexivity].
Qed.

Lemma contains_unfold (p s : string) :
  contains p s
  = starts_with p s || match s with EmptyString => false | String _ s' => contains p s' end.
Proof. now destruct s. Qed.

Lemma contains_prefix (p r : string) : contains p (p +:+ r) = true.
Proof. rewrite contains_unfold, starts_with_refl. reflexivity. Qed.

Lemma contains_cons (p s : string) (c : ascii) :
  contains p s = true -> contains p (String c s) = true.
Proof. intros H. cbn [contains]. rewrite H. apply orb_true_r. Qed.

(** ** [str.replace] *)

Section Replace.

Variables old new : string.

Lemma py_replace_from_short (s : string) (k : nat) :
  (String.length s <= k)%nat -> py_replace_from old new k s = "".
Proof.
  revert k. induction s as [|c s IH]; intros k Hk; [reflexivity |].
  simpl in *. destruct k as [|k]; [lia |]. apply IH. lia.
Qed.

(** No occurrence fits in a string shorter than the pattern. *)
Lemma py_replace_from_shorter (s : string) :
  (String.length s < String.length old)%nat -> py_replace_from old new 0 s = s.
Proof.
  induction s as [|c s IH]; intros Hlen; [reflexivity |].
  cbn [py_replace_from].
  destruct (starts_with old (String c s)) eqn:Hst.
  - apply starts_with_length in Hst. lia.
  - rewrite IH; [reflexivity | simpl in Hlen; lia].
Qed.

(** Replacing leaves a string as it is or puts [new] into it. *)
Lemma py_replace_from_changes (s : string) (k : nat) :
  py_replace_from old new k s = sdrop k s
  \/ contains new (py_replace_from old new k s) = true.
Proof.
  revert k. induction s as [|c s IH]; intros k.
  - left. now destruct k.
  - destruct k as [|k]; cbn [py_replace_from sdrop].
    + destruct (starts_with old (String c s)).
      * right. apply contains_prefix.
      * destruct (IH 0%nat) as [H | H].
        -- left. rewrite H. now destruct s.
        -- right. now apply contains_cons.
    + apply IH.
Qed.

Lemma has_char_py_replace_from (c : ascii) (s : string) (k : nat) :
  has_char c new = false -> has_char c s = false ->
  has_char c (py_replace_from old new k s) = false.
Proof.
  intros Hnew. revert k. induction s as [|x s IH]; intros k Hs; [reflexivity |].
  simpl in Hs. apply orb_false_elim in Hs as [Hx Hs].
  destruct k as [|k]; cbn [py_replace_from]; [| now apply IH].
  destruct (starts_with old (String x s)).
  - rewrite has_char_append, Hnew. now apply IH.
  - simpl. rewrite Hx. now apply IH.
Qed.

(** Occurrences of a pattern without [c] never span a [c]: replacing works
    on both sides of it separately. *)
Lemma py_replace_from_sep (c : ascii) (a b : string) (k : nat) :
  has_char c old = false -> old <> "" -> (k <= String.length a)%nat ->
  py_replace_from old new k (a +:+ String c b)
  = py_replace_from old new k a +:+ String c (py_replace_from old new 0 b).
Proof.
  intros Hc Hne. revert k. induction a as [|x a IH]; intros k Hk.
  - simpl in Hk. assert (k = 0)%nat as -> by lia.
    cbn [append py_replace_from].
    change (String c b) with ("" +:+ String c b) at 1.
    rewrite starts_with_sep by exact Hc.
    destruct old; [congruence | reflexivity].
  - destruct k as [|k]; cbn [append py_replace_from].
    + change (String x (a +:+ String c b)) with (String x a +:+ String c b).
      rewrite starts_with_sep by exact Hc.
      destruct (starts_with old (String x a)) eqn:Hst.
      * apply starts_with_length in Hst. simpl in Hst.
        rewrite IH by lia. now rewrite append_assoc.
      * rewrite IH by lia. reflexivity.
    + apply IH. simpl in Hk. lia.
Qed.

End Replace.

Lemma py_replace_from_self (old new : string) :
  old <> "" -> py_replace_from old new 0 old = new.
Proof.
  destruct old as [|c s]; [congruence | intros _].
  cbn [py_replace_from].
  rewrite starts_with_same.
  rewrite py_replace_from_short by (simpl; lia).
  apply append_nil_r.
Qed.

(** ** [str.split] and [str.join] *)

Lemma py_split_nonempty (sep : ascii) (s : string) : py_split sep s <> [].
Proof.
  induction s as [|c s IH]; simpl; [discriminate |].
  destruct (Ascii.eqb c sep); [discriminate |].
  destruct (py_split sep s); [contradiction | discriminate].
Qed.

Lemma py_join_cons (sep : ascii) (s : string) (l : list string) :
  l <> [] -> py_join sep (s :: l) = s +:+ String sep (py_join sep l).
Proof. destruct l; [contradiction | reflexivity]. Qed.

Lemma py_join_split (sep : ascii) (s : string) : py_join sep (py_split sep s) = s.
Proof.
  induction s as [|c s IH]; [reflexivity |].
  simpl. destruct (Ascii.eqb c sep) eqn:Hc.
  - apply Ascii.eqb_eq in Hc as ->.
    rewrite py_join_cons by apply py_split_nonempty. now rewrite IH.
  - pose proof (py_split_nonempty sep s) as Hne.
    destruct (py_split sep s) as [|h t]; [contradiction |].
    destruct t as [|h' t]; simpl in *; now rewrite <- IH.
Qed.

Lemma py_split_no_sep (sep : ascii) (s : string) :
  Forall (fun seg => has_char sep seg = false) (py_split sep s).
Proof.
  induction s as [|c s IH]; simpl; [now constructor |].
  destruct (Ascii.eqb c sep) eqn:Hc; [now constructor |].
  destruct (py_split sep s) as [|h t]; [now repeat constructor; simpl; rewrite Hc |].
  inversion IH; subst. constructor; [| assumption].
  simpl. now rewrite Hc.
Qed.

Lemma py_split_append_sep (sep : ascii) (a b : string) :
  has_char sep a = false ->
  py_split sep (a +:+ String sep b) = a :: py_split sep b.
Proof.
  induction a as [|c a IH]; intros Ha; simpl.
  - now rewrite Ascii.eqb_refl.
  - simpl in Ha. apply orb_false_elim in Ha as [Hc Ha].
    rewrite Hc, IH by assumption. reflexivity.
Qed.

Lemma py_split_none (sep : ascii) (s : string) :
  has_char sep s = false -> py_split sep s = [s].
Proof.
  induction s as [|c s IH]; intros Hs; [reflexivity |].
  simpl in *. apply orb_false_elim in Hs as [Hc Hs].
  now rewrite Hc, IH.
Qed.

Lemma py_split_join (sep : ascii) (l : list string) :
  l <> [] -> Forall (fun seg => has_char sep seg = false) l ->
  py_split sep (py_join sep l) = l.
Proof.
  induction l as [|s l IH]; [contradiction | intros _ Hall].
  inversion Hall as [|? ? Hs Hl]; subst.
  destruct l as [|s' l].
  - now apply py_split_none.
  - rewrite py_join_cons by discriminate.
    rewrite py_split_append_sep by assumption.
    now rewrite IH.
Qed.

(** The characters of the pieces are those of the string. *)
Lemma has_char_py_split (c sep : ascii) (s : string) :
  has_char c s = false -> Forall (fun seg => has_char c seg = false) (py_split sep s).
Proof.
  induction s as [|x s IH]; intros Hs; simpl; [now constructor |].
  simpl in Hs. apply orb_false_elim in Hs as [Hx Hs]. specialize (IH Hs).
  destruct (Ascii.eqb x sep); [now constructor |].
  destruct (py_split sep s) as [|h t]; [now repeat constructor; simpl; rewrite Hx |].
  inversion IH; subst. constructor; [| assumption].
  simpl. now rewrite Hx.
Qed.

Lemma has_char_py_join (c sep : ascii) (l : list string) :
  Ascii.eqb sep c = false -> Forall (fun seg => has_char c seg = false) l ->
  has_char c (py_join sep l) = false.
Proof.
  intros Hsep. induction l as [|s l IH]; intros Hall; [reflexivity |].
  inversion Hall as [|? ? Hs Hl]; subst.
  destruct l as [|s' l]; [exact Hs |].
  rewrite py_join_cons by discriminate.
  rewrite has_char_append, Hs. simpl. rewrite Hsep. now apply IH.
Qed.

Lemma has_char_hd_split (sep : ascii) (s : string) :
  has_char sep (hd "" (py_split sep s)) = false.
Proof.
  pose proof (py_split_no_sep sep s) as H.
  destruct (py_split sep s); [reflexivity | now inversion H].
Qed.

(** Replacing a pattern without the separator works piece by piece. *)
Lemma py_replace_from_join (old new : string) (sep : ascii) (l : list string) :
  old <> "" -> has_char sep old = false ->
  py_replace_from old new 0 (py_join sep l)
  = py_join sep (map (py_replace_from old new 0) l).
Proof.
  intros Hne Hsep. induction l as [|s l IH]; [reflexivity |].
  destruct l as [|s' l]; [reflexivity |].
  rewrite py_join_cons by discriminate.
  rewrite py_replace_from_sep; [| assumption | assumption | lia].
  rewrite IH. cbn [map].
  now rewrite (py_join_cons sep (py_replace_from old new 0 s)) by discriminate.
Qed.

(** ** Path normalization *)

Section Normalize.

Variable uuid_ok : string -> bool.

(** What the proofs use of [uuid.UUID]: it takes 32 hexadecimal digits from
    its argument, so it accepts no shorter string, and it rejects a string
    in which the text "{id}" stands, whose "i" is no digit (only the "i" of a
    "uuid:" prefix is dropped before the digits are read). *)
Hypothesis uuid_ok_length : forall s, uuid_ok s = true -> (32 <= String.length s)%nat.
Hypothesis uuid_ok_placeholder : forall s, contains "{id}" s = true -> uuid_ok s = false.

Lemma normalize_endpoint_fold (endpoint : string) :
  normalize_endpoint uuid_ok endpoint
  = fold_left (normalize_step uuid_ok)
      (py_split "/" (hd "" (py_split "?" endpoint))) (hd "" (py_split "?" endpoint)).
Proof. reflexivity. Qed.

Lemma uuid_ok_nonempty (s : string) : uuid_ok s = true -> s <> "".
Proof. intros H ->. apply uuid_ok_length in H. simpl in H. lia. Qed.

Lemma py_replace_nonempty (old new s : string) :
  old <> "" -> py_replace old new s = py_replace_from old new 0 s.
Proof. destruct old; [congruence | reflexivity]. Qed.

Lemma fold_normalize_step_rejected (l : list string) (key : string) :
  Forall (fun seg => uuid_ok seg = false) l -> fold_left (normalize_step uuid_ok) l key = key.
Proof.
  revert key. induction l as [|s l IH]; intros key Hall; [reflexivity |].
  inversion Hall as [|? ? Hs Hl]; subst.
  simpl. unfold normalize_step at 2. rewrite Hs. now apply IH.
Qed.

(** A replaced piece is unchanged or holds the placeholder. *)
Lemma replaced_piece (old s : string) :
  py_replace_from old "{id}" 0 s = s
  \/ contains "{id}" (py_replace_from old "{id}" 0 s) = true.
Proof. exact (py_replace_from_changes old "{id}" s 0). Qed.

(** The loop over the segments: [todo] are the segments still to visit,
    [cd] and [ct] the current pieces of the key before and from the visited
    position on. *)
Lemma normalize_loop (todo cd ct : list string) :
  Forall (fun o => has_char "/" o = false) todo ->
  Forall2 (fun o c => c = o \/ contains "{id}" c = true) todo ct ->
  Forall (fun c => uuid_ok c = false) cd ->
  exists final,
    fold_left (normalize_step uuid_ok) todo (py_join "/" (cd ++ ct)) = py_join "/" final
    /\ Forall (fun c => uuid_ok c = false) final
    /\ length final = length (cd ++ ct)
    /\ forall c, has_char c "{id}" = false ->
         Forall (fun seg => has_char c seg = false) (cd ++ ct) ->
         Forall (fun seg => has_char c seg = false) final.
Proof.
  revert cd ct. induction todo as [|o todo IH]; intros cd ct Hslash Hrel Hcd.
  - inversion Hrel; subst. exists cd. rewrite app_nil_r. simpl. auto.
  - inversion Hrel as [|? c0 ? ct' Hc0 Hrel']; subst.
    inversion Hslash as [|? ? Ho Hslash']; subst.
    cbn [fold_left]. unfold normalize_step at 2.
    destruct (uuid_ok o) eqn:Hok.
    + pose proof (uuid_ok_nonempty _ Hok) as Hne.
      rewrite py_replace_nonempty, py_replace_from_join by assumption.
      set (R := py_replace_from o "{id}" 0).
      rewrite map_app. cbn [map].
      replace (map R cd ++ R c0 :: map R ct') with ((map R cd ++ [R c0]) ++ map R ct')
        by now rewrite <- app_assoc.
      destruct (IH (map R cd ++ [R c0]) (map R ct')) as (final & Hfold & Hrej & Hlen & Hchar).
      * assumption.
      * clear -Hrel'. induction Hrel' as [|o' c' ? ? Hoc ? IHrel]; cbn [map]; constructor; auto.
        subst R. destruct (replaced_piece o c') as [-> | Hin]; auto.
      * apply Forall_app. split.
        -- clear -Hcd uuid_ok_placeholder. induction Hcd as [|c cd' Hc ? IHcd]; cbn [map]; constructor; auto.
           subst R. destruct (replaced_piece o c) as [-> | Hin]; auto.
        -- constructor; [| constructor]. subst R.
           destruct Hc0 as [-> | Hin].
           ++ rewrite py_replace_from_self by assumption. now apply uuid_ok_placeholder.
           ++ destruct (replaced_piece o c0) as [-> | Hin']; auto.
      * exists final. split; [exact Hfold |]. split; [exact Hrej |]. split.
        -- rewrite Hlen. rewrite !length_app, !length_map. simpl. lia.
        -- intros c Hc Hall. apply Hchar; [exact Hc |].
           rewrite <- app_assoc. cbn [app].
           replace (map R cd ++ R c0 :: map R ct') with (map R (cd ++ c0 :: ct'))
             by now rewrite map_app.
           clear -Hall Hc. induction Hall; cbn [map]; constructor; auto.
           subst R. now apply has_char_py_replace_from.
    + replace (cd ++ c0 :: ct') with ((cd ++ [c0]) ++ ct') by now rewrite <- app_assoc.
      apply IH; try assumption.
      apply Forall_app. split; [assumption |].
      constructor; [| constructor].
      destruct Hc0 as [-> | Hin]; auto.
Qed.

(** After normalization no segment of the key is accepted any more. *)
Lemma normalize_endpoint_segments (endpoint : string) :
  exists final,
    normalize_endpoint uuid_ok endpoint = py_join "/" final
    /\ final <> []
    /\ Forall (fun c => uuid_ok c = false) final
    /\ Forall (fun seg => has_char "/" seg = false) final
    /\ Forall (fun seg => has_char "?" seg = false) final.
Proof.
  rewrite normalize_endpoint_fold.
  set (key := hd "" (py_split "?" endpoint)).
  pose proof (has_char_hd_split "?" endpoint) as Hq. fold key in Hq.
  pose proof (py_split_no_sep "/" key) as Hslash.
  destruct (normalize_loop (py_split "/" key) [] (py_split "/" key)) as
    (final & Hfold & Hrej & Hlen & Hchar).
  - exact Hslash.
  - clear. induction (py_split "/" key); constructor; auto.
  - constructor.
  - cbn [app] in *. rewrite py_join_split in Hfold.
    exists final. split; [exact Hfold |]. split.
    + intros ->. simpl in Hlen. symmetry in Hlen. apply length_zero_iff_nil in Hlen.
      now apply (py_split_nonempty "/" key).
    + split; [exact Hrej |]. split.
      * apply Hchar; [reflexivity | exact Hslash].
      * apply Hchar; [reflexivity |]. now apply has_char_py_split.
Qed.

Lemma normalize_endpoint_idempotent (endpoint : string) :
  normalize_endpoint uuid_ok (normalize_endpoint uuid_ok endpoint)
  = normalize_endpoint uuid_ok endpoint.
Proof.
  destruct (normalize_endpoint_segments endpoint) as (final & -> & Hne & Hrej & Hslash & Hq).
  rewrite normalize_endpoint_fold.
  rewrite (py_split_none "?") by (apply has_char_py_join; [reflexivity | exact Hq]).
  cbn [hd]. rewrite py_split_join by assumption.
  now apply fold_normalize_step_rejected.
Qed.

(** The tweets path of any accepted identifier goes to one bucket path. *)
Lemma normalize_endpoint_user_tweets (A : string) :
  uuid_ok A = true -> has_char "/" A = false -> has_char "?" A = false ->
  normalize_endpoint uuid_ok ("/users/" +:+ A +:+ "/tweets") = "/users/{id}/tweets".
Proof.
  intros Hok Hslash Hq.
  pose proof (uuid_ok_length _ Hok) as Hlen.
  pose proof (uuid_ok_nonempty _ Hok) as Hne.
  assert (Hpath : "/users/" +:+ A +:+ "/tweets" = py_join "/" [""; "users"; A; "tweets"]).
  { simpl. reflexivity. }
  rewrite normalize_endpoint_fold.
  rewrite (py_split_none "?").
  2:{ rewrite !has_char_append, Hq. reflexivity. }
  cbn [hd]. rewrite Hpath.
  rewrite py_split_join; [| discriminate | repeat constructor; assumption].
  assert (Hshort : forall s, (String.length s < 32)%nat -> uuid_ok s = false).
  { intros s Hs. destruct (uuid_ok s) eqn:H; [| reflexivity].
    apply uuid_ok_length in H. lia. }
  cbn [fold_left]. unfold normalize_step.
  rewrite !Hshort by (simpl; lia). rewrite Hok.
  rewrite !Hshort by (simpl; lia).
  rewrite py_replace_nonempty, py_replace_from_join by assumption.
  cbn [map].
  rewrite py_replace_from_self by assumption.
  rewrite !py_replace_from_shorter by (simpl; lia).
  reflexivity.
Qed.

End Normalize.

(** ** Sorting and indexing *)

Lemma index_nth {A : Type} (l : list A) (i : nat) (d : A) :
  (i < length l)%nat -> index l i = Ok (nth i l d).
Proof.
  intros Hi. unfold index.
  destruct (lookup_lt_is_Some_2 l i Hi) as [x Hx].
  rewrite Hx. now rewrite (nth_lookup_Some l i d x Hx).
Qed.

Lemma insert_sorted_length (x : Q) (l : list Q) :
  length (insert_sorted x l) = S (length l).
Proof.
  induction l as [|y l IH]; simpl; [reflexivity |].
  destruct (Qle_bool x y); simpl; [reflexivity | now rewrite IH].
Qed.

Lemma sorted_length (l : list Q) : length (sorted l) = length l.
Proof.
  induction l as [|x l IH]; simpl; [reflexivity |].
  now rewrite insert_sorted_length, IH.
Qed.

Lemma insert_sorted_perm (x : Q) (l : list Q) : Permutation (insert_sorted x l) (x :: l).
Proof.
  induction l as [|y l IH]; simpl; [reflexivity |].
  destruct (Qle_bool x y); [reflexivity |].
  rewrite IH. apply perm_swap.
Qed.

Lemma sorted_perm (l : list Q) : Permutation (sorted l) l.
Proof.
  induction l as [|x l IH]; simpl; [reflexivity |].
  now rewrite insert_sorted_perm, IH.
Qed.

Lemma insert_sorted_sorted (x : Q) (l : list Q) :
  StronglySorted Qle l -> StronglySorted Qle (insert_sorted x l).
Proof.
  induction l as [|y l IH]; intros Hs; simpl.
  - repeat constructor.
  - inversion Hs as [|? ? Hl Hy]; subst.
    destruct (Qle_bool x y) eqn:Hxy.
    + apply Qle_bool_iff in Hxy. constructor; [exact Hs |].
      constructor; [exact Hxy |].
      eapply Forall_impl; [exact Hy |]. intros z Hz. simpl in Hz.
      now apply Qle_trans with y.
    + assert (Hyx : (y <= x)%Q).
      { apply Qlt_le_weak, Qnot_le_lt. intros H. apply Qle_bool_iff in H. congruence. }
      constructor; [now apply IH |].
      rewrite insert_sorted_perm. now constructor.
Qed.

Lemma sorted_sorted (l : list Q) : StronglySorted Qle (sorted l).
Proof.
  induction l as [|x l IH]; simpl; [constructor | now apply insert_sorted_sorted].
Qed.

(** ** The indices [int(n * 0.5)], [int(n * 0.95)], [int(n * 0.99)] *)

Lemma int_of_product_ratio (n : nat) (a b : positive) :
  int_of_product n (Zpos a # b) = (n * Pos.to_nat a / Pos.to_nat b)%nat.
Proof.
  unfold int_of_product, Qnat, Qfloor, Qmult, inject_Z. cbn [Qnum Qden].
  rewrite Pos.mul_1_l.
  rewrite <- (Nat2Z.id (n * Pos.to_nat a / Pos.to_nat b)). f_equal.
  rewrite Nat2Z.inj_div, Nat2Z.inj_mul, !positive_nat_Z. reflexivity.
Qed.

Lemma int_of_product_lt (n : nat) (a b : positive) :
  (0 < n)%nat -> (a < b)%positive -> (int_of_product n (Zpos a # b) < n)%nat.
Proof.
  intros Hn Hab. rewrite int_of_product_ratio.
  apply Nat.Div0.div_lt_upper_bound. nia.
Qed.

Lemma int_of_product_half (n : nat) : int_of_product n (1 # 2) = (n / 2)%nat.
Proof. rewrite int_of_product_ratio. simpl. now rewrite Nat.mul_1_r. Qed.

(** For a non-empty list the unclamped index is in range: it is the clamped one. *)
Lemma clamp_in_range (n : nat) (a b : positive) :
  (0 < n)%nat -> (a < b)%positive ->
  Nat.min (int_of_product n (Zpos a # b)) (n - 1) = int_of_product n (Zpos a # b).
Proof. intros Hn Hab. pose proof (int_of_product_lt n a b Hn Hab). lia. Qed.

(** ** The accessors of [EndpointStats] *)

Lemma EndpointStats_p95_quantile (stats : EndpointStats.t) :
  EndpointStats.p95 stats = Ok (quantile (95 # 100) (EndpointStats.latencies stats)).
Proof.
  unfold EndpointStats.p95, quantile.
  destruct (EndpointStats.latencies stats) as [|x l] eqn:Hl; [reflexivity |].
  rewrite sorted_length.
  apply index_nth. rewrite sorted_length. simpl. lia.
Qed.

Lemma EndpointStats_p99_quantile (stats : EndpointStats.t) :
  EndpointStats.p99 stats = Ok (quantile (99 # 100) (EndpointStats.latencies stats)).
Proof.
  unfold EndpointStats.p99, quantile.
  destruct (EndpointStats.latencies stats) as [|x l] eqn:Hl; [reflexivity |].
  rewrite sorted_length.
  apply index_nth. rewrite sorted_length. simpl. lia.
Qed.

Lemma median_ok (data : list Q) : data <> [] -> median data = Ok (median_value data).
Proof.
  intros Hne. unfold median, median_value.
  destruct data as [|x l] eqn:Hd; [contradiction |]. rewrite <- Hd in *.
  assert (Hn : (0 < length data)%nat) by (subst; simpl; lia).
  rewrite sorted_length.
  destruct (Nat.eqb_spec (length data) 0) as [H0 | _]; [lia |].
  pose proof (Nat.div_lt (length data) 2 Hn ltac:(lia)) as Hhalf.
  rewrite <- Nat.bit0_odd, Nat.bit0_eqb.
  destruct (Nat.eqb_spec (length data mod 2) 1) as [Hodd | Heven].
  - apply index_nth. now rewrite sorted_length.
  - rewrite (index_nth _ _ 0%Q) by (rewrite sorted_length; lia).
    rewrite (index_nth _ _ 0%Q) by (rewrite sorted_length; lia).
    reflexivity.
Qed.

Lemma EndpointStats_p50_median (stats : EndpointStats.t) :
  EndpointStats.p50 stats = Ok (median_value (EndpointStats.latencies stats)).
Proof.
  unfold EndpointStats.p50.
  destruct (EndpointStats.latencies stats) as [|x l] eqn:Hl; [reflexivity |].
  now apply median_ok.
Qed.

(** An odd number of samples has its median at index floor(n / 2). *)
Lemma median_value_odd (samples : list Q) :
  Nat.odd (length samples) = true -> median_value samples = quantile (1 # 2) samples.
Proof.
  intros Hodd. unfold median_value, quantile.
  destruct samples as [|x l] eqn:Hs; [reflexivity |]. rewrite <- Hs in *.
  rewrite Hodd, int_of_product_half.
  assert (0 < length samples)%nat by (subst; simpl; lia).
  pose proof (Nat.div_lt (length samples) 2). f_equal. lia.
Qed.

(** ** [get_phase_stats] *)

Lemma get_phase_stats_ok (phase : string) (m : MetricsCollector.t) :
  exists stats,
    MetricsCollector.get_phase_stats phase m = Ok stats
    /\ PhaseStats.total stats = length (phase_requests phase m)
    /\ PhaseStats.success stats = MetricsCollector.count_success (phase_requests phase m)
    /\ PhaseStats.failed stats
       = (length (phase_requests phase m)
          - MetricsCollector.count_success (phase_requests phase m))%nat
    /\ PhaseStats.success_rate stats
       = match phase_requests phase m with
         | [] => None
         | _ => Some (Qnat (MetricsCollector.count_success (phase_requests phase m))
                      / Qnat (length (phase_requests phase m)) * 100)%Q
         end
    /\ PhaseStats.p50 stats = quantile (1 # 2) (phase_latencies phase m)
    /\ PhaseStats.p95 stats = quantile (95 # 100) (phase_latencies phase m)
    /\ PhaseStats.p99 stats = quantile (99 # 100) (phase_latencies phase m).
Proof.
  unfold MetricsCollector.get_phase_stats, phase_latencies, phase_requests.
  destruct (if String.eqb phase "setup" then MetricsCollector.setup_requests m
            else MetricsCollector.runtime_requests m) as [|r rs] eqn:Hreq.
  - eexists. split; [reflexivity |]. simpl. repeat split; reflexivity.
  - set (requests := r :: rs).
    set (lats := map RequestMetrics.latency_ms requests).
    assert (Hn : (0 < length lats)%nat) by (subst lats requests; simpl; lia).
    rewrite sorted_length.
    pose proof (Nat.div_lt (length lats) 2 Hn ltac:(lia)) as Hhalf.
    pose proof (int_of_product_lt (length lats) 95 100 Hn ltac:(lia)) as H95.
    pose proof (int_of_product_lt (length lats) 99 100 Hn ltac:(lia)) as H99.
    rewrite (index_nth _ _ 0%Q) by now rewrite sorted_length.
    rewrite (index_nth _ _ 0%Q) by now rewrite sorted_length.
    rewrite (index_nth _ _ 0%Q) by now rewrite sorted_length.
    eexists. split; [reflexivity |]. cbn [rbind PhaseStats.total PhaseStats.success
      PhaseStats.failed PhaseStats.success_rate PhaseStats.p50 PhaseStats.p95 PhaseStats.p99].
    assert (Hq : forall a b, (a < b)%positive ->
              quantile (Zpos a # b) lats
              = nth (int_of_product (length lats) (Zpos a # b)) (sorted lats) 0%Q).
    { intros a b Hab. unfold quantile.
      destruct lats eqn:Hl; [simpl in Hn; lia |]. rewrite <- Hl in *.
      now rewrite clamp_in_range. }
    repeat split.
    + rewrite (Hq 1%positive 2%positive) by lia. now rewrite int_of_product_half.
    + now rewrite (Hq 95%positive 100%positive) by lia.
    + now rewrite (Hq 99%positive 100%positive) by lia.
Qed.

(** C5, as amended.  The per-endpoint p95 and p99 accessors and the
    per-phase p50, p95 and p99 statistics return the sample at sorted index
    floor(n * q), clamped to [0, n-1] (q = 0.5, 0.95, 0.99); the per-endpoint
    p50 accessor returns the statistical median instead (the middle sample of
    an odd number of samples, the mean of the two middle samples of an even
    number).  Each of them returns 0 over zero samples and none ever fails.
    The sorted list they index is an ordered permutation of the samples. *)
Theorem quantile_convention :
  (forall stats : EndpointStats.t,
      EndpointStats.p95 stats = Ok (quantile (95 # 100) (EndpointStats.latencies stats))
      /\ EndpointStats.p99 stats = Ok (quantile (99 # 100) (EndpointStats.latencies stats))
      /\ EndpointStats.p50 stats = Ok (median_value (EndpointStats.latencies stats)))
  /\ (forall (phase : string) (m : MetricsCollector.t),
        exists stats,
          MetricsCollector.get_phase_stats phase m = Ok stats
          /\ PhaseStats.p50 stats = quantile (1 # 2) (phase_latencies phase m)
          /\ PhaseStats.p95 stats = quantile (95 # 100) (phase_latencies phase m)
          /\ PhaseStats.p99 stats = quantile (99 # 100) (phase_latencies phase m))
  /\ (forall q : Q, quantile q [] = 0%Q)
  /\ median_value [] = 0%Q
  /\ (forall samples : list Q,
        (Nat.odd (length samples) = true ->
         median_value samples = quantile (1 # 2) samples)
        /\ Permutation (sorted samples) samples
        /\ StronglySorted Qle (sorted samples)).
Proof.
  split; [| split; [| split; [| split]]].
  - intros stats. split; [apply EndpointStats_p95_quantile |].
    split; [apply EndpointStats_p99_quantile | apply EndpointStats_p50_median].
  - intros phase m.
    destruct (get_phase_stats_ok phase m) as (stats & H & _ & _ & _ & _ & H50 & H95 & H99).
    exists stats. auto.
  - reflexivity.
  - reflexivity.
  - intros samples. split; [apply median_value_odd |].
    split; [apply sorted_perm | apply sorted_sorted].
Qed.

(** C5, as stated, fails for the per-endpoint p50: over the two samples 1
    and 3 it returns their mean 2, while the sample at sorted index
    floor(2 * 0.5) = 1 is 3. *)
Lemma p50_is_not_the_quantile :
  EndpointStats.p50 (EndpointStats.mk 2 2 0 [1%Q; 3%Q] ∅) = Ok (4 # 2)
  /\ quantile (1 # 2) [1%Q; 3%Q] = 3%Q
  /\ ~ (4 # 2 == 3)%Q.
Proof.
  split; [reflexivity |]. split; [reflexivity |].
  intros H. unfold Qeq in H. simpl in H. lia.
Qed.

(** ** The collector's buckets *)

Lemma bucket_record (metric : RequestMetrics.t) (m : MetricsCollector.t) (key : string) :
  bucket key (MetricsCollector.record metric m)
  = if String.eqb key (MetricsCollector.bucket_key metric)
    then MetricsCollector.record_stats metric (bucket key m)
    else bucket key m.
Proof.
  unfold bucket, MetricsCollector.record. cbn [MetricsCollector.by_endpoint].
  destruct (String.eqb_spec key (MetricsCollector.bucket_key metric)) as [-> | Hne].
  - now rewrite lookup_insert_eq.
  - now rewrite lookup_insert_ne by congruence.
Qed.

Lemma bucket_set_phase (phase : string) (m : MetricsCollector.t) (key : string) :
  bucket key (MetricsCollector.set_phase phase m) = bucket key m.
Proof. reflexivity. Qed.

Lemma record_stats_balanced (metric : RequestMetrics.t) (stats : EndpointStats.t) :
  balanced stats -> balanced (MetricsCollector.record_stats metric stats).
Proof.
  unfold balanced, MetricsCollector.record_stats. intros [Hsum Hlen].
  destruct (RequestMetrics.success metric); simpl; rewrite length_app; simpl; lia.
Qed.

Lemma collector_after_balanced (calls : list collector_call) (key : string) :
  balanced (bucket key (collector_after calls)).
Proof.
  unfold collector_after.
  assert (Hinit : forall k, balanced (bucket k MetricsCollector.init)).
  { intros k. unfold bucket. simpl. rewrite lookup_empty. now split. }
  revert key. generalize dependent MetricsCollector.init.
  induction calls as [|c calls IH]; intros m Hm key; [apply Hm |].
  simpl. apply IH. intros k. destruct c as [metric | phase]; simpl.
  - rewrite bucket_record. destruct (String.eqb k _); [| apply Hm].
    apply record_stats_balanced, Hm.
  - rewrite bucket_set_phase. apply Hm.
Qed.

(** C8.  After any sequence of [record] (and [set_phase]) calls on a fresh
    collector every bucket satisfies total = success + failed, and one more
    [record] adds exactly 1 to the total of the metric's bucket and exactly
    1 to one of its success and failed counts (success when the metric
    succeeded, failed otherwise), leaving every other bucket as it was. *)
Theorem endpoint_stats_total_invariant
    (calls : list collector_call) (metric : RequestMetrics.t) (key : string) :
  let m := collector_after calls in
  let before := bucket key m in
  let after := bucket key (MetricsCollector.record metric m) in
  EndpointStats.total before
  = (EndpointStats.success before + EndpointStats.failed before)%nat
  /\ EndpointStats.total after
     = (EndpointStats.success after + EndpointStats.failed after)%nat
  /\ if String.eqb key (MetricsCollector.bucket_key metric)
     then EndpointStats.total after = S (EndpointStats.total before)
          /\ if RequestMetrics.success metric
             then EndpointStats.success after = S (EndpointStats.success before)
                  /\ EndpointStats.failed after = EndpointStats.failed before
             else EndpointStats.success after = EndpointStats.success before
                  /\ EndpointStats.failed after = S (EndpointStats.failed before)
     else after = before.
Proof.
  intros m before after.
  pose proof (collector_after_balanced calls key) as [Hsum _]. fold m before in Hsum.
  pose proof (collector_after_balanced (calls ++ [CallRecord metric]) key) as [Hsum' _].
  unfold collector_after in Hsum'. rewrite fold_left_app in Hsum'. simpl in Hsum'.
  fold (collector_after calls) in Hsum'. fold m after in Hsum'.
  split; [exact Hsum |]. split; [exact Hsum' |].
  subst after. rewrite bucket_record. fold before.
  destruct (String.eqb key (MetricsCollector.bucket_key metric)); [| reflexivity].
  unfold MetricsCollector.record_stats.
  destruct (RequestMetrics.success metric); simpl; auto.
Qed.

(** ** The dispatcher *)

Lemma api_call_with_done (E : Env) (x : Exchange) (request : Request.t)
    (method endpoint : string) (expected_status : list Z) (s : State) :
  exists result metric t,
    api_call_with E x request method endpoint expected_status s
    = Done result (set_metrics (MetricsCollector.record metric) (set_now t (add_sent request s)))
    /\ RequestMetrics.endpoint metric = normalize_endpoint (uuid_ok E) endpoint
    /\ RequestMetrics.method metric = method
    /\ (RequestMetrics.latency_ms metric == measured_interval x * 1000)%Q
    /\ ApiResult.success result = RequestMetrics.success metric
    /\ ApiResult.status result = RequestMetrics.status metric
    /\ match answer x with
       | Responds status (BodyJson v) =>
           RequestMetrics.success metric = status_in status expected_status
           /\ RequestMetrics.status metric = status
           /\ ApiResult.data result = Some v
       | Responds status (BodyText text) =>
           RequestMetrics.success metric = status_in status expected_status
           /\ RequestMetrics.status metric = status
           /\ ApiResult.data result = Some (PStr text)
       | Responds _ (BodyRaises e) | Fails e =>
           RequestMetrics.success metric = false
           /\ RequestMetrics.status metric = 0%Z
           /\ RequestMetrics.error metric = Some e
           /\ ApiResult.data result = None
       end.
Proof.
  unfold api_call_with, measured_interval, raised_in_body.
  destruct (answer x) as [status [v | text | e] | e];
    (eexists _, _, _; split; [reflexivity |]);
    cbn [RequestMetrics.endpoint RequestMetrics.method RequestMetrics.latency_ms
         RequestMetrics.success RequestMetrics.status RequestMetrics.error
         ApiResult.success ApiResult.status ApiResult.data now add_sent];
    repeat split; ring.
Qed.

Lemma api_call_unfold (E : Env) (config : Config) (method endpoint user_id : string)
    (body : option pyval) (expected_status : option (list Z)) (s : State) :
  api_call E config method endpoint user_id body expected_status s
  = api_call_with E
      (transport E (length (sent s)) (request_of config method endpoint user_id body))
      (request_of config method endpoint user_id body)
      method endpoint (default [200%Z] expected_status) s.
Proof. reflexivity. Qed.

Lemma count_success_app (l l' : list RequestMetrics.t) :
  MetricsCollector.count_success (l ++ l')
  = (MetricsCollector.count_success l + MetricsCollector.count_success l')%nat.
Proof. unfold MetricsCollector.count_success. now rewrite filter_app, length_app. Qed.

Lemma count_success_le (l : list RequestMetrics.t) :
  (MetricsCollector.count_success l <= length l)%nat.
Proof. unfold MetricsCollector.count_success. apply length_filter. Qed.

Lemma count_success_one (metric : RequestMetrics.t) :
  MetricsCollector.count_success [metric]
  = if RequestMetrics.success metric then 1%nat else 0%nat.
Proof.
  unfold MetricsCollector.count_success. rewrite filter_cons.
  destruct (RequestMetrics.success metric); reflexivity.
Qed.

(** C7.  Whatever the transport does with the request, [api_call] returns
    to its caller (it neither raises nor loops), has sent exactly one
    request, and has recorded exactly one metric: in the list of all
    requests, in the list of the current phase and in its bucket.  When the
    transport answers with a status and a body, the metric carries that
    status and succeeded iff the status is in the expected list; when it
    raises, at the request or while the body is read, the metric is a
    failure with status 0 and the exception's text as its error. *)
Theorem api_call_records_one_outcome
    (E : Env) (config : Config) (method endpoint user_id : string)
    (body : option pyval) (expected_status : option (list Z)) (s : State) :
  let request := request_of config method endpoint user_id body in
  let m := metrics s in
  exists result metric s',
    api_call E config method endpoint user_id body expected_status s = Done result s'
    /\ sent s' = sent s ++ [request]
    /\ MetricsCollector.requests (metrics s') = MetricsCollector.requests m ++ [metric]
    /\ phase_requests (MetricsCollector.phase m) (metrics s')
       = phase_requests (MetricsCollector.phase m) m ++ [metric]
    /\ EndpointStats.total (bucket (MetricsCollector.bucket_key metric) (metrics s'))
       = S (EndpointStats.total (bucket (MetricsCollector.bucket_key metric) m))
    /\ ApiResult.success result = RequestMetrics.success metric
    /\ match answer (transport E (length (sent s)) request) with
       | Responds status (BodyJson _) | Responds status (BodyText _) =>
           RequestMetrics.success metric
           = status_in status (default [200%Z] expected_status)
           /\ RequestMetrics.status metric = status
       | Responds _ (BodyRaises e) | Fails e =>
           RequestMetrics.success metric = false
           /\ RequestMetrics.status metric = 0%Z
           /\ RequestMetrics.error metric = Some e
       end.
Proof.
  intros request m. rewrite api_call_unfold. fold request.
  destruct (api_call_with_done E (transport E (length (sent s)) request) request
              method endpoint (default [200%Z] expected_status) s)
    as (result & metric & t & -> & _ & _ & _ & Hres & _ & Hcase).
  exists result, metric. eexists. split; [reflexivity |].
  split; [reflexivity |]. split; [reflexivity |]. split.
  { unfold phase_requests, MetricsCollector.record.
    cbn [metrics set_metrics set_now add_sent MetricsCollector.setup_requests
         MetricsCollector.runtime_requests MetricsCollector.phase].
    fold m. destruct (String.eqb (MetricsCollector.phase m) "setup"); reflexivity. }
  split.
  { cbn [metrics set_metrics set_now add_sent]. fold m.
    rewrite bucket_record, String.eqb_refl.
    unfold MetricsCollector.record_stats.
    destruct (RequestMetrics.success metric); reflexivity. }
  split; [exact Hres |].
  destruct (answer (transport E (length (sent s)) request)) as [status [v | text | e] | e];
    tauto.
Qed.

(** C3, as amended.  The latency stored in the metric of a dispatched call
    is the time from the start of [api_call], before it waits for a
    concurrency permit, to the arrival of the response or the exception:
    the time suspended waiting for the permit is part of it. *)
Theorem latency_includes_permit_wait
    (E : Env) (x : Exchange) (request : Request.t)
    (method endpoint : string) (expected_status : list Z) (s : State) :
  exists result metric s',
    api_call_with E x request method endpoint expected_status s = Done result s'
    /\ MetricsCollector.requests (metrics s')
       = MetricsCollector.requests (metrics s) ++ [metric]
    /\ (RequestMetrics.latency_ms metric
        == (permit_wait x + response_time x
            + (if raised_in_body x then body_time x else 0)) * 1000)%Q.
Proof.
  destruct (api_call_with_done E x request method endpoint expected_status s)
    as (result & metric & t & -> & _ & _ & Hlat & _).
  exists result, metric. eexists. split; [reflexivity |].
  split; [reflexivity | exact Hlat].
Qed.

(** C3, as stated, fails: a call that waits 2 s for a permit and whose
    request is answered after 1 s is recorded with 3000 ms, not with the
    1000 ms the transport took. *)
Lemma latency_counts_the_permit_wait :
  match api_call_with (ok_env true 1) queued_exchange
          (request_of (mkConfig "http://localhost:8080" 1 0 0 1 0 None None 0 5 200)
             "GET" "/api/v1/tweets" "u" None)
          "GET" "/api/v1/tweets" [200%Z] init_state with
  | Done _ s' => map RequestMetrics.latency_ms (MetricsCollector.requests (metrics s'))
  | _ => []
  end = [3000%Q]
  /\ (transport_interval queued_exchange * 1000 == 1000)%Q
  /\ ~ (3000 == 1000)%Q.
Proof.
  split; [vm_compute; reflexivity |]. split; [reflexivity |].
  intros H. unfold Qeq in H. simpl in H. lia.
Qed.

(** ** The canonical UUID text meets what the proofs ask of [uuid.UUID] *)

Lemma canonical_from_length (i : nat) (s : string) :
  canonical_from i s = true -> (i + String.length s = 36)%nat.
Proof.
  revert i. induction s as [|c s IH]; intros i H; simpl in H.
  - apply Nat.eqb_eq in H. simpl. lia.
  - apply andb_prop in H as [_ H]. apply IH in H. simpl. lia.
Qed.

Lemma canonical_from_chars (i : nat) (s : string) (c : ascii) :
  canonical_from i s = true -> has_char c s = true -> c = "-"%char \/ is_hex c = true.
Proof.
  revert i. induction s as [|a s IH]; intros i H Hc; simpl in *; [discriminate |].
  apply andb_prop in H as [Ha H].
  apply orb_prop in Hc as [Hac | Hc]; [| now apply (IH (S i))].
  apply Ascii.eqb_eq in Hac as ->.
  destruct ((i =? 8) || (i =? 13) || (i =? 18) || (i =? 23))%nat.
  - left. now apply Ascii.eqb_eq in Ha.
  - now right.
Qed.

Lemma uuid_canonical_no_char (c : ascii) (s : string) :
  Ascii.eqb c "-" = false -> is_hex c = false ->
  uuid_canonical s = true -> has_char c s = false.
Proof.
  intros Hdash Hhex Hs. destruct (has_char c s) eqn:Hc; [| reflexivity].
  destruct (canonical_from_chars 0 s c Hs Hc) as [-> | H].
  - discriminate.
  - congruence.
Qed.

Lemma contains_head_char (c : ascii) (p s : string) :
  contains (String c p) s = true -> has_char c s = true.
Proof.
  induction s as [|a s IH]; intros H; [discriminate |].
  rewrite contains_unfold in H. simpl in *.
  destruct (Ascii.eqb c a) eqn:Hca.
  - apply Ascii.eqb_eq in Hca as ->. now rewrite Ascii.eqb_refl.
  - simpl in H. rewrite (IH H). apply orb_true_r.
Qed.

Lemma uuid_canonical_length (s : string) :
  uuid_canonical s = true -> (32 <= String.length s)%nat.
Proof. intros H. apply canonical_from_length in H. lia. Qed.

Lemma uuid_canonical_placeholder (s : string) :
  contains "{id}" s = true -> uuid_canonical s = false.
Proof.
  intros H. apply contains_head_char in H.
  destruct (uuid_canonical s) eqn:Hs; [| reflexivity].
  rewrite (uuid_canonical_no_char "{" s) in H by (reflexivity || assumption).
  discriminate.
Qed.

Lemma uuid_canonical_separators (s : string) :
  uuid_canonical s = true -> has_char "/" s = false /\ has_char "?" s = false.
Proof.
  intros H. split; apply uuid_canonical_no_char; reflexivity || assumption.
Qed.

(** C9.  For an identifier check that, like [uuid.UUID], needs 32 digits,
    accepts no text holding the placeholder and no text with "/" or "?":
    normalizing a normalized key leaves it unchanged; the tweets paths of
    any two accepted identifiers have the same key; and the bucket path a
    dispatched call records is that function of the raw endpoint alone,
    whatever the state, the request and the transport's exchange are. *)
Theorem normalize_endpoint_idempotent_collapsing
    (E : Env)
    (uuid_ok_length : forall s, uuid_ok E s = true -> (32 <= String.length s)%nat)
    (uuid_ok_placeholder : forall s, contains "{id}" s = true -> uuid_ok E s = false)
    (uuid_ok_separators :
       forall s, uuid_ok E s = true -> has_char "/" s = false /\ has_char "?" s = false) :
  (forall endpoint,
      normalize_endpoint (uuid_ok E) (normalize_endpoint (uuid_ok E) endpoint)
      = normalize_endpoint (uuid_ok E) endpoint)
  /\ (forall A B,
        uuid_ok E A = true -> uuid_ok E B = true ->
        normalize_endpoint (uuid_ok E) ("/users/" +:+ A +:+ "/tweets")
        = normalize_endpoint (uuid_ok E) ("/users/" +:+ B +:+ "/tweets"))
  /\ (forall x request method endpoint expected_status s,
        exists result metric s',
          api_call_with E x request method endpoint expected_status s = Done result s'
          /\ MetricsCollector.requests (metrics s')
             = MetricsCollector.requests (metrics s) ++ [metric]
          /\ MetricsCollector.bucket_key metric
             = method +:+ " " +:+ normalize_endpoint (uuid_ok E) endpoint).
Proof.
  split; [| split].
  - intros endpoint. now apply normalize_endpoint_idempotent.
  - intros A B HA HB.
    destruct (uuid_ok_separators A HA) as [HA1 HA2].
    destruct (uuid_ok_separators B HB) as [HB1 HB2].
    rewrite !normalize_endpoint_user_tweets by assumption. reflexivity.
  - intros x request method endpoint expected_status s.
    destruct (api_call_with_done E x request method endpoint expected_status s)
      as (result & metric & t & -> & Hep & Hm & _).
    exists result, metric. eexists. split; [reflexivity |]. split; [reflexivity |].
    unfold MetricsCollector.bucket_key. now rewrite Hep, Hm.
Qed.

(** C9 at the tweets endpoint of one user, with the canonical UUID text as
    the identifier check. *)
Lemma normalize_endpoint_idempotent_collapsing_witness :
  normalize_endpoint uuid_canonical
    (normalize_endpoint uuid_canonical
       "/api/v1/users/123e4567-e89b-42d3-a456-426614174000/tweets?limit=10")
  = normalize_endpoint uuid_canonical
      "/api/v1/users/123e4567-e89b-42d3-a456-426614174000/tweets?limit=10".
Proof.
  exact (proj1 (normalize_endpoint_idempotent_collapsing (ok_env true 1)
                  uuid_canonical_length uuid_canonical_placeholder
                  uuid_canonical_separators)
           "/api/v1/users/123e4567-e89b-42d3-a456-426614174000/tweets?limit=10").
Defined.

(** ** Failures per phase *)

Lemma failures_app_one (l : list RequestMetrics.t) (metric : RequestMetrics.t) :
  failures (l ++ [metric])
  = (failures l + if RequestMetrics.success metric then 0 else 1)%nat.
Proof.
  unfold failures. rewrite count_success_app, length_app, count_success_one.
  pose proof (count_success_le l).
  destruct (RequestMetrics.success metric); simpl; lia.
Qed.

Lemma phase_requests_record (p : string) (metric : RequestMetrics.t)
    (m : MetricsCollector.t) :
  phase_requests p (MetricsCollector.record metric m)
  = phase_requests p m
    ++ (if Bool.eqb (String.eqb p "setup") (String.eqb (MetricsCollector.phase m) "setup")
        then [metric] else []).
Proof.
  unfold phase_requests, MetricsCollector.record.
  cbn [MetricsCollector.setup_requests MetricsCollector.runtime_requests].
  destruct (String.eqb p "setup"), (String.eqb (MetricsCollector.phase m) "setup");
    simpl; now rewrite ?app_nil_r.
Qed.

Lemma failures_record_success (p : string) (metric : RequestMetrics.t)
    (m : MetricsCollector.t) :
  RequestMetrics.success metric = true ->
  failures (phase_requests p (MetricsCollector.record metric m))
  = failures (phase_requests p m).
Proof.
  intros Hs. rewrite phase_requests_record.
  destruct (Bool.eqb _ _); [| now rewrite app_nil_r].
  rewrite failures_app_one, Hs. lia.
Qed.

(** What an operation records when the transport answers with a status. *)
Lemma api_call_answered (E : Env) (config : Config) (method endpoint user_id : string)
    (body : option pyval) (expected : list Z) (s : State) (status : Z) (b : body_read) :
  (forall r, answer (transport E (length (sent s)) r) = Responds status b) ->
  match b with BodyRaises _ => False | _ => True end ->
  exists result metric s',
    api_call E config method endpoint user_id body (Some expected) s = Done result s'
    /\ MetricsCollector.requests (metrics s')
       = MetricsCollector.requests (metrics s) ++ [metric]
    /\ RequestMetrics.success metric = status_in status expected
    /\ ApiResult.success result = status_in status expected
    /\ forall p, RequestMetrics.success metric = true ->
         failures (phase_requests p (metrics s')) = failures (phase_requests p (metrics s)).
Proof.
  intros Hanswer Hbody. rewrite api_call_unfold.
  destruct (api_call_with_done E
              (transport E (length (sent s)) (request_of config method endpoint user_id body))
              (request_of config method endpoint user_id body)
              method endpoint (default [200%Z] (Some expected)) s)
    as (result & metric & t & -> & _ & _ & _ & Hres & _ & Hcase).
  rewrite Hanswer in Hcase.
  assert (Hsucc : RequestMetrics.success metric = status_in status expected).
  { destruct b; [apply Hcase | apply Hcase | contradiction]. }
  exists result, metric. eexists. split; [reflexivity |].
  split; [reflexivity |]. split; [exact Hsucc |]. split; [congruence |].
  intros p Hs. cbn [metrics set_metrics]. now apply failures_record_success.
Qed.

(** C10.  When the transport answers a follow with a status and a body, the
    metric recorded for it succeeds iff the status is 201 or 409, and the
    one recorded for an unfollow iff the status is 200, 204 or 404; a
    metric that succeeds leaves the number of failed requests of either
    phase, hence the error rate's numerator, as it was. *)
Theorem follow_unfollow_accept_conflicts
    (E : Env) (config : Config) (follower_id followee_id : string) (s : State)
    (status : Z) (b : body_read)
    (Hanswer : forall r, answer (transport E (length (sent s)) r) = Responds status b)
    (Hbody : match b with BodyRaises _ => False | _ => True end) :
  (exists result metric s',
      follow_user E config follower_id followee_id s = Done result s'
      /\ MetricsCollector.requests (metrics s')
         = MetricsCollector.requests (metrics s) ++ [metric]
      /\ RequestMetrics.success metric = ((status =? 201) || (status =? 409))%Z
      /\ forall p, RequestMetrics.success metric = true ->
           failures (phase_requests p (metrics s')) = failures (phase_requests p (metrics s)))
  /\ (exists result metric s',
        unfollow_user E config follower_id followee_id s = Done result s'
        /\ MetricsCollector.requests (metrics s')
           = MetricsCollector.requests (metrics s) ++ [metric]
        /\ RequestMetrics.success metric
           = ((status =? 200) || (status =? 204) || (status =? 404))%Z
        /\ forall p, RequestMetrics.success metric = true ->
             failures (phase_requests p (metrics s')) = failures (phase_requests p (metrics s))).
Proof.
  split.
  - unfold follow_user.
    destruct (api_call_answered E config "POST"
                ("/api/v1/users/" +:+ follower_id +:+ "/follow/" +:+ followee_id)
                follower_id None [201%Z; 409%Z] s status b Hanswer Hbody)
      as (result & metric & s' & Hcall & Hreq & Hsucc & _ & Hfail).
    exists result, metric, s'. repeat split; try assumption.
    rewrite Hsucc. unfold status_in. simpl. now rewrite orb_false_r.
  - unfold unfollow_user.
    destruct (api_call_answered E config "DELETE"
                ("/api/v1/users/" +:+ follower_id +:+ "/follow/" +:+ followee_id)
                follower_id None [200%Z; 204%Z; 404%Z] s status b Hanswer Hbody)
      as (result & metric & s' & Hcall & Hreq & Hsucc & _ & Hfail).
    exists result, metric, s'. repeat split; try assumption.
    rewrite Hsucc. unfold status_in. simpl. now rewrite orb_false_r, orb_assoc.
Qed.

(** C10 for a follow that the target answers with 409 (already following). *)
Lemma follow_unfollow_accept_conflicts_witness :
  exists result metric s',
    follow_user conflict_env demo_config (demo_uuid 1) (demo_uuid 2) init_state
    = Done result s'
    /\ MetricsCollector.requests (metrics s')
       = MetricsCollector.requests (metrics init_state) ++ [metric]
    /\ RequestMetrics.success metric = ((409 =? 201) || (409 =? 409))%Z
    /\ forall p, RequestMetrics.success metric = true ->
         failures (phase_requests p (metrics s'))
         = failures (phase_requests p (metrics init_state)).
Proof.
  exact (proj1 (follow_unfollow_accept_conflicts conflict_env demo_config
                  (demo_uuid 1) (demo_uuid 2) init_state 409%Z (BodyJson (PDict []))
                  (fun _ => eq_refl) I)).
Defined.

(** ** The verdict *)

Lemma rmap_ok {A B : Type} (f : A -> result B) (l : list A) :
  (forall x, exists y, f x = Ok y) -> exists ys, rmap f l = Ok ys.
Proof.
  intros Hf. induction l as [|x l [ys IH]]; simpl; [now eexists |].
  destruct (Hf x) as [y ->]. simpl. rewrite IH. simpl. now eexists.
Qed.

(** The values the endpoint table reads never raise. *)
Lemma endpoint_rows_ok (m : MetricsCollector.t) : exists rows, endpoint_rows m = Ok rows.
Proof.
  unfold endpoint_rows. apply rmap_ok. intros [ep stats]. unfold endpoint_row.
  rewrite EndpointStats_p50_median, EndpointStats_p95_quantile. simpl. now eexists.
Qed.

Lemma Qnat_sub (n k : nat) : (k <= n)%nat -> (Qnat (n - k) == Qnat n - Qnat k)%Q.
Proof.
  intros Hk. unfold Qnat. rewrite Nat2Z.inj_sub by exact Hk.
  unfold Z.sub. rewrite inject_Z_plus, inject_Z_opp. reflexivity.
Qed.

Lemma Qnat_nonzero (n : nat) : (0 < n)%nat -> ~ (Qnat n == 0)%Q.
Proof. intros Hn H. unfold Qnat, Qeq in H. simpl in H. lia. Qed.

(** The error rate is what the success rate leaves of 100. *)
Lemma error_rate_complement (requests : list RequestMetrics.t) :
  requests <> [] ->
  (error_rate requests
   == 100 - Qnat (MetricsCollector.count_success requests) / Qnat (length requests) * 100)%Q.
Proof.
  intros Hne. unfold error_rate.
  rewrite Qnat_sub by apply count_success_le.
  assert (Hn : ~ (Qnat (length requests) == 0)%Q).
  { apply Qnat_nonzero. destruct requests; [contradiction | simpl; lia]. }
  field. exact Hn.
Qed.

Lemma Qle_bool_complement (rate success_rate threshold : Q) :
  (rate == 100 - success_rate)%Q ->
  Qle_bool (100 - threshold) success_rate = Qle_bool rate threshold.
Proof.
  intros Hrate.
  destruct (Qle_bool (100 - threshold) success_rate) eqn:H1,
           (Qle_bool rate threshold) eqn:H2; try reflexivity.
  - apply Qle_bool_iff in H1.
    assert (H : (rate <= threshold)%Q).
    { rewrite Hrate. apply Qplus_le_l with (z := (success_rate - threshold)%Q).
      ring_simplify. ring_simplify in H1. exact H1. }
    apply Qle_bool_iff in H. congruence.
  - apply Qle_bool_iff in H2. rewrite Hrate in H2.
    assert (H : (100 - threshold <= success_rate)%Q).
    { apply Qplus_le_l with (z := (threshold - success_rate)%Q).
      ring_simplify. ring_simplify in H2. exact H2. }
    apply Qle_bool_iff in H. congruence.
Qed.

Lemma Qlt_bool_iff (a b : Q) : Qlt_bool a b = true <-> (a < b)%Q.
Proof.
  unfold Qlt_bool. split.
  - intros H. apply Qnot_le_lt. intros Hle. apply Qle_bool_iff in Hle.
    rewrite Hle in H. discriminate.
  - intros H. destruct (Qle_bool b a) eqn:Hle; [| reflexivity].
    apply Qle_bool_iff in Hle. exfalso. now apply (Qlt_not_le a b).
Qed.

(** What [print_results] returns and prints with rich, once both phases
    have requests. *)
Lemma print_results_rich (E : Env) (config : Config) (m : MetricsCollector.t) :
  RICH_AVAILABLE E = true ->
  MetricsCollector.setup_requests m <> [] ->
  MetricsCollector.runtime_requests m <> [] ->
  let requests := MetricsCollector.runtime_requests m in
  let p95 := quantile (95 # 100) (map RequestMetrics.latency_ms requests) in
  let rate_ok := Qle_bool (error_rate requests) (max_error_rate_percent config) in
  let p95_ok := Qlt_bool p95 (max_p95_latency_ms config) in
  exists success_rate,
    (error_rate requests == 100 - success_rate)%Q
    /\ print_results E config m
       = Ok (rate_ok && p95_ok,
             Some (if rate_ok && p95_ok then PassedPanel success_rate p95
                   else FailedPanel
                          ((if rate_ok then []
                            else [ErrorRateReason (100 - success_rate)
                                    (max_error_rate_percent config)])
                           ++ (if p95_ok then []
                               else [P95Reason p95 (max_p95_latency_ms config)])))).
Proof.
  intros Hrich Hsetup Hruntime requests p95 rate_ok p95_ok.
  unfold print_results.
  destruct (get_phase_stats_ok "setup" m) as (st & -> & _ & _ & _ & Hsr & _).
  destruct (get_phase_stats_ok "runtime" m) as (rt & -> & _ & _ & _ & Hrr & _ & H95 & _).
  change (phase_requests "setup" m) with (MetricsCollector.setup_requests m) in Hsr.
  change (phase_requests "runtime" m) with requests in Hrr.
  change (phase_latencies "runtime" m) with (map RequestMetrics.latency_ms requests) in H95.
  fold p95 in H95.
  assert (Hsome : forall (A B : Type) (l : list A) (v : B),
            l <> [] -> match l with [] => None | _ :: _ => Some v end = Some v).
  { intros A B [|x l] v Hl; [contradiction | reflexivity]. }
  rewrite Hsome in Hsr, Hrr by assumption.
  cbn [rbind]. rewrite Hrich. unfold PhaseStats.get_success_rate. rewrite Hsr, Hrr.
  cbn [rbind]. destruct (endpoint_rows_ok m) as [rows ->]. cbn [rbind].
  set (sr := (Qnat (MetricsCollector.count_success requests)
              / Qnat (length requests) * 100)%Q).
  assert (Hrate : (error_rate requests == 100 - sr)%Q).
  { now apply error_rate_complement. }
  exists sr. split; [exact Hrate |].
  rewrite H95.
  rewrite (Qle_bool_complement _ _ _ Hrate).
  subst rate_ok p95_ok.
  destruct (Qle_bool (error_rate requests) (max_error_rate_percent config));
    destruct (Qlt_bool p95 (max_p95_latency_ms config)); reflexivity.
Qed.

(** Read over the rationals, the verdict with rich is the formula of the
    specification: passed iff the runtime error rate is at most
    max_error_rate_percent and the runtime p95 latency is strictly below
    max_p95_latency_ms, with one reason for each violated condition.  The
    code departs from it by the rounding of the success rate only. *)
Lemma verdict_formula_exact
    (E : Env) (config : Config) (m : MetricsCollector.t)
    (Hrich : RICH_AVAILABLE E = true)
    (Hsetup : MetricsCollector.setup_requests m <> [])
    (Hruntime : MetricsCollector.runtime_requests m <> []) :
  let requests := MetricsCollector.runtime_requests m in
  let rate := error_rate requests in
  let p95 := quantile (95 # 100) (map RequestMetrics.latency_ms requests) in
  exists passed panel measured_rate,
    print_results E config m = Ok (passed, Some panel)
    /\ (measured_rate == rate)%Q
    /\ (passed = true <->
        (rate <= max_error_rate_percent config)%Q /\ (p95 < max_p95_latency_ms config)%Q)
    /\ panel_reasons panel
       = (if Qle_bool rate (max_error_rate_percent config) then []
          else [ErrorRateReason measured_rate (max_error_rate_percent config)])
         ++ (if Qlt_bool p95 (max_p95_latency_ms config) then []
             else [P95Reason p95 (max_p95_latency_ms config)])
    /\ (passed = true -> panel_reasons panel = []).
Proof.
  intros requests rate p95.
  destruct (print_results_rich E config m Hrich Hsetup Hruntime) as (sr & Hrate & Hprint).
  fold requests rate p95 in Hrate, Hprint.
  eexists _, _, (100 - sr)%Q. split; [exact Hprint |].
  split; [now symmetry |]. split.
  { rewrite andb_true_iff, Qle_bool_iff, Qlt_bool_iff. reflexivity. }
  destruct (Qle_bool rate (max_error_rate_percent config)),
           (Qlt_bool p95 (max_p95_latency_ms config)); simpl; split; try reflexivity;
    discriminate.
Qed.

(** What [print_results] returns and prints with rich, in binary64, once
    both phases have requests. *)
Lemma print_results_float_rich (E : Env) (config : Config) (m : MetricsCollector.t) :
  RICH_AVAILABLE E = true ->
  MetricsCollector.setup_requests m <> [] ->
  MetricsCollector.runtime_requests m <> [] ->
  let requests := MetricsCollector.runtime_requests m in
  let success_rate :=
    float_success_rate (MetricsCollector.count_success requests) (length requests) in
  let p95 := quantile (95 # 100) (map RequestMetrics.latency_ms requests) in
  let rate_ok := float_rate_ok success_rate (max_error_rate_percent config) in
  let p95_ok := Qlt_bool p95 (max_p95_latency_ms config) in
  print_results_float E config m
  = Ok (rate_ok && p95_ok,
        Some (if rate_ok && p95_ok then FloatPassedPanel success_rate p95
              else FloatFailedPanel
                     ((if rate_ok then []
                       else [FloatErrorRateReason
                               (PrimFloat.sub (float_of_nat 100) success_rate)
                               (max_error_rate_percent config)])
                      ++ (if p95_ok then []
                          else [FloatP95Reason p95 (max_p95_latency_ms config)])))).
Proof.
  intros Hrich Hsetup Hruntime requests success_rate p95 rate_ok p95_ok.
  unfold print_results_float.
  destruct (get_phase_stats_ok "setup" m) as (st & -> & _ & _ & _ & Hsr & _).
  destruct (get_phase_stats_ok "runtime" m)
    as (rt & -> & Htotal & Hsuccess & _ & Hrr & _ & H95 & _).
  change (phase_requests "setup" m) with (MetricsCollector.setup_requests m) in Hsr.
  change (phase_requests "runtime" m) with requests in Hrr, Htotal, Hsuccess.
  change (phase_latencies "runtime" m) with (map RequestMetrics.latency_ms requests) in H95.
  fold p95 in H95.
  assert (Hsome : forall (A B : Type) (l : list A) (v : B),
            l <> [] -> match l with [] => None | _ :: _ => Some v end = Some v).
  { intros A B [|x l] v Hl; [contradiction | reflexivity]. }
  rewrite Hsome in Hsr, Hrr by assumption.
  cbn [rbind]. rewrite Hrich. unfold PhaseStats.get_success_rate. rewrite Hsr, Hrr.
  cbn [rbind]. destruct (endpoint_rows_ok m) as [rows ->]. cbn [rbind].
  rewrite H95, Htotal, Hsuccess. fold success_rate rate_ok p95_ok.
  destruct rate_ok, p95_ok; reflexivity.
Qed.

(** The two readings of [print_results] raise the same exceptions, and
    differ in the comparison of the success rate only. *)
Lemma print_results_float_raises (E : Env) (config : Config) (m : MetricsCollector.t)
    (e : exn) :
  print_results_float E config m = Err e <-> print_results E config m = Err e.
Proof.
  unfold print_results_float, print_results.
  destruct (MetricsCollector.get_phase_stats "setup" m) as [st | e1];
    cbn [rbind]; [| split; intros [= ->]; reflexivity].
  destruct (MetricsCollector.get_phase_stats "runtime" m) as [rt | e2];
    cbn [rbind]; [| split; intros [= ->]; reflexivity].
  cbv zeta. destruct (RICH_AVAILABLE E).
  - destruct (PhaseStats.get_success_rate st) as [r1 | e3]; cbn [rbind]; [| split; intros [= ->]; reflexivity].
    destruct (PhaseStats.get_success_rate rt) as [r2 | e4]; cbn [rbind]; [| split; intros [= ->]; reflexivity].
    destruct (endpoint_rows m) as [rows | e5]; cbn [rbind]; [| split; intros [= ->]; reflexivity].
    destruct (float_rate_ok _ _ && _), (Qle_bool _ _ && _); split; discriminate.
  - destruct (PhaseStats.get_success_rate rt) as [r2 | e4]; cbn [rbind]; [| split; intros [= ->]; reflexivity].
    split; discriminate.
Qed.




(** The example of the specification in double precision: 9 successes of 10
    and a p95 of 300 ms against thresholds 5 % and 200 ms fail with exactly
    two reasons, the measured error rate being 100 - 90 = 10. *)
Example verdict_two_reasons_float :
  print_results_float (ok_env true 1) small_config (sample_collector 9 1 300)
  = Ok (false,
        Some (FloatFailedPanel [FloatErrorRateReason (float_of_nat 10) 5;
                                FloatP95Reason 300 200])).
Proof. vm_compute. reflexivity. Qed.

(** The two verdicts the specification gives as examples: an error rate of
    10 % and a p95 of 300 ms against thresholds 5 % and 200 ms fail with
    exactly two reasons; 2 % and 150 ms pass with none. *)
Example verdict_two_reasons :
  print_results (ok_env true 1) small_config (sample_collector 9 1 300)
  = Ok (false, Some (FailedPanel [ErrorRateReason (100 - (900 # 10)) 5; P95Reason 300 200])).
Proof. vm_compute. reflexivity. Qed.

Example verdict_passes :
  print_results (ok_env true 1) small_config (sample_collector 49 1 150)
  = Ok (true, Some (PassedPanel (4900 # 50) 150)).
Proof. vm_compute. reflexivity. Qed.

(** C4 fails without rich: a run whose every request succeeds after 1 s has
    a runtime p95 of 1000 ms against a threshold of 200 ms; with rich the
    process exits with status 1, without rich the same run exits with
    status 0, because that path returns success_rate >= 95 and reads
    neither threshold. *)
Lemma plain_output_ignores_thresholds :
  main (ok_env false 1) small_config 1 = Some 0%Z
  /\ main (ok_env true 1) small_config 1 = Some 1%Z
  /\ print_results (ok_env false 1) small_config (sample_collector 9 1 300)
     = Ok (false, None)
  /\ print_results (ok_env false 1) small_config (sample_collector 10 0 300)
     = Ok (true, None)
  /\ print_results (ok_env true 1) small_config (sample_collector 10 0 300)
     = Ok (false, Some (FailedPanel [P95Reason 300 200])).
Proof.
  split; [vm_compute; reflexivity |]. split; [vm_compute; reflexivity |].
  split; [vm_compute; reflexivity |]. split; vm_compute; reflexivity.
Qed.

(** ** Pagination *)

(** One iteration of the pagination loop, after the response to its one
    request: it repeats with the returned cursor when the response is
    successful and its payload is a JSON object with a non-empty next
    cursor; otherwise it sends no further request and returns the number of
    pages, unless the payload is non-empty and no JSON object, on which
    [.get] raises AttributeError. *)
Theorem paginate_follows_cursor
    (get_page : pyval -> M ApiResult.t) (fuel pages : nat) (cursor : pyval)
    (s s1 : State) (result : ApiResult.t)
    (Hpage : get_page cursor s = Done result s1) :
  paginate get_page (S fuel) pages cursor s
  = match next_page result with
    | Some c => paginate get_page fuel (pages + 1) c s1
    | None =>
        if ApiResult.success result && truthy (ApiResult.get_data result)
           && negb (is_dict (ApiResult.get_data result))
        then Raised (AttributeError "get") s1
        else Done (pages + 1)%nat s1
    end.
Proof.
  cbn [paginate]. unfold bind at 1. rewrite Hpage. unfold next_page.
  destruct (ApiResult.success result); [| reflexivity].
  destruct (truthy (ApiResult.get_data result)) eqn:Ht; [| reflexivity].
  cbn [negb orb andb].
  destruct (ApiResult.get_data result) as [| b | z | q | t | l | d]; try reflexivity.
  unfold bind, next_cursor, ret. cbn [is_dict negb].
  destruct (truthy (dict_get "nextCursor" d)); reflexivity.
Qed.

(** The loop against the endpoint with cursors "a", "b" and "": after the
    first response it goes on with cursor "a", and ends with 3 pages. *)
Lemma paginate_follows_cursor_witness :
  outcome_value
    (paginate (get_timeline cursor_env small_config (demo_uuid 0) 10) 3 0 PNone init_state)
  = Some 3%nat.
Proof.
  eassert (Hpage : get_timeline cursor_env small_config (demo_uuid 0) 10 PNone init_state
                   = Done _ _) by (vm_compute; reflexivity).
  rewrite (paginate_follows_cursor _ 2 0 PNone init_state _ _ Hpage).
  vm_compute. reflexivity.
Defined.

(** Against the endpoint with cursors "a", "b" and "", [paginate_timeline]
    sends exactly three requests, the first without a cursor, the next two
    with the cursor returned before, and returns 3. *)
Example paginate_three_pages :
  outcome_value (paginate_timeline cursor_env small_config 10 (demo_uuid 0) 10 init_state)
  = Some 3%nat
  /\ option_map (fun s => map Request.url (sent s))
       (outcome_state
          (paginate_timeline cursor_env small_config 10 (demo_uuid 0) 10 init_state))
     = Some
         ["http://localhost:8080/api/v1/users/00000000-0000-4000-8000-000000000000/timeline?limit=10";
          "http://localhost:8080/api/v1/users/00000000-0000-4000-8000-000000000000/timeline?limit=10&cursor=a";
          "http://localhost:8080/api/v1/users/00000000-0000-4000-8000-000000000000/timeline?limit=10&cursor=b"].
Proof. split; vm_compute; reflexivity. Qed.

(** C6 fails on a successful response whose payload is text: the payload
    has no next cursor, yet the helper does not stop with its page count but
    raises AttributeError after the first request, and the exception leaves
    the scenario: the process exits with status 1 during the profile checks. *)
Lemma paginate_text_payload_raises :
  outcome_exn (paginate_timeline text_env small_config 10 (demo_uuid 0) 10 init_state)
  = Some (AttributeError "get")
  /\ option_map (fun s => length (sent s))
       (outcome_state
          (paginate_timeline text_env small_config 10 (demo_uuid 0) 10 init_state))
     = Some 1%nat
  /\ outcome_exn (run text_env small_config 10 init_state) = Some (AttributeError "get")
  /\ main text_env small_config 10 = Some 1%Z.
Proof.
  split; [vm_compute; reflexivity |]. split; [vm_compute; reflexivity |].
  split; vm_compute; reflexivity.
Qed.

(** ** Reasoning about coroutines that return *)

Section Triples.

Context {A B : Type}.

Lemma triple_ret (Q : A -> State -> Prop) (a : A) : triple (Q a) (ret a) Q.
Proof. intros s Hs. now exists a, s. Qed.

Lemma triple_bind (P : State -> Prop) (c : M A) (Q : A -> State -> Prop)
    (k : A -> M B) (R : B -> State -> Prop) :
  triple P c Q -> (forall a, triple (Q a) (k a) R) -> triple P (bind c k) R.
Proof.
  intros Hc Hk s Hs. destruct (Hc s Hs) as (a & s1 & Hrun & Hq).
  unfold bind. rewrite Hrun. now apply Hk.
Qed.

Lemma triple_weaken (P P' : State -> Prop) (c : M A) (Q Q' : A -> State -> Prop) :
  (forall s, P' s -> P s) -> (forall a s, Q a s -> Q' a s) ->
  triple P c Q -> triple P' c Q'.
Proof.
  intros HP HQ Hc s Hs. destruct (Hc s (HP s Hs)) as (a & s1 & Hrun & Hq).
  exists a, s1. auto.
Qed.

End Triples.

Lemma triple_modify (P Q : State -> Prop) (f : State -> State) :
  (forall s, P s -> Q (f s)) -> triple P (modify f) (fun _ => Q).
Proof. intros H s Hs. exists tt, (f s). auto. Qed.

Lemma triple_for_each {A : Type} (I : nat -> State -> Prop) (l : list A) (f : A -> M unit) :
  (forall i x, In x l -> triple (I i) (f x) (fun _ => I (S i))) ->
  forall i, triple (I i) (for_each l f) (fun _ => I (i + length l)%nat).
Proof.
  induction l as [|x l IH]; intros Hf i.
  - simpl. rewrite Nat.add_0_r. apply (triple_ret (fun _ => I i) tt).
  - cbn [for_each]. eapply triple_bind; [apply Hf; now left |].
    intros u. eapply triple_weaken; [| | apply (IH (fun j y Hy => Hf j y (or_intror Hy)) (S i))].
    + auto.
    + intros v s Hs. simpl in *.
      now replace (i + S (length l))%nat with (S i + length l)%nat by lia.
Qed.

Lemma triple_for_each_inv {A : Type} (P : State -> Prop) (l : list A) (f : A -> M unit) :
  (forall x, In x l -> triple P (f x) (fun _ => P)) ->
  triple P (for_each l f) (fun _ => P).
Proof.
  intros Hf. apply (triple_for_each (fun _ => P) l f (fun _ x Hx => Hf x Hx) 0%nat).
Qed.

Lemma triple_collect {A B : Type} (P : State -> Prop) (l : list A)
    (f : A -> M (list B)) (k : nat) :
  (forall x, In x l -> triple P (f x) (fun ys s => P s /\ length ys = k)) ->
  triple P (collect l f) (fun ys s => P s /\ length ys = (k * length l)%nat).
Proof.
  induction l as [|x l IH]; intros Hf.
  - simpl. intros s Hs. exists [], s. simpl. rewrite Nat.mul_0_r. auto.
  - cbn [collect]. eapply triple_bind; [apply Hf; now left |].
    intros ys. cbn beta.
    intros s [Hs Hys].
    destruct (IH (fun y Hy => Hf y (or_intror Hy)) s Hs) as (zs & s1 & Hrun & Hp & Hzs).
    unfold bind. rewrite Hrun. exists (ys ++ zs), s1. split; [reflexivity |].
    split; [exact Hp |]. rewrite length_app. simpl. lia.
Qed.

(** ** Dispatch inside the scenario *)

Lemma runtime_inv_mono (U : list string) (n m : nat) (s : State) :
  (m <= n)%nat -> runtime_inv U n s -> runtime_inv U m s.
Proof. unfold runtime_inv. intros Hm (? & ? & ? & ? & ? & ? & ?). repeat split; auto. lia. Qed.

Lemma api_call_frame (E : Env) (config : Config) (method endpoint user_id : string)
    (body : option pyval) (expected_status : option (list Z)) (s : State) :
  exists result metric t request,
    api_call E config method endpoint user_id body expected_status s
    = Done result (set_metrics (MetricsCollector.record metric) (set_now t (add_sent request s)))
    /\ Request.method request = method
    /\ ApiResult.success result = RequestMetrics.success metric
    /\ match answer (transport E (length (sent s)) request) with
       | Responds status b =>
           match body_value b with
           | Some v =>
               RequestMetrics.success metric
               = status_in status (default [200%Z] expected_status)
               /\ ApiResult.data result = Some v
           | None => True
           end
       | Fails _ => True
       end.
Proof.
  rewrite api_call_unfold.
  set (request := request_of config method endpoint user_id body).
  destruct (api_call_with_done E (transport E (length (sent s)) request) request
              method endpoint (default [200%Z] expected_status) s)
    as (result & metric & t & Hrun & _ & _ & _ & Hres & _ & Hcase).
  exists result, metric, t, request. split; [exact Hrun |].
  split; [reflexivity |]. split; [exact Hres |].
  destruct (answer (transport E (length (sent s)) request)) as [status [v | text | e] | e];
    simpl; tauto.
Qed.

(** In the setup phase a dispatched call adds to the setup requests only. *)
Lemma api_call_setup (E : Env) (config : Config) (method endpoint user_id : string)
    (body : option pyval) (expected_status : option (list Z)) (Q : State -> Prop) :
  (forall s metric t request,
      Q s -> Q (set_metrics (MetricsCollector.record metric) (set_now t (add_sent request s)))) ->
  triple
    (fun s => Q s /\ MetricsCollector.phase (metrics s) = "setup"
              /\ MetricsCollector.runtime_requests (metrics s) = [])
    (api_call E config method endpoint user_id body expected_status)
    (fun _ s => Q s /\ MetricsCollector.phase (metrics s) = "setup"
                /\ MetricsCollector.runtime_requests (metrics s) = []
                /\ MetricsCollector.setup_requests (metrics s) <> []).
Proof.
  intros HQ s (Hs & Hphase & Hrt).
  destruct (api_call_frame E config method endpoint user_id body expected_status s)
    as (result & metric & t & request & Hrun & _).
  eexists _, _. split; [exact Hrun |].
  split; [now apply HQ |].
  cbn [metrics set_metrics set_now add_sent]. unfold MetricsCollector.record.
  cbn [MetricsCollector.phase MetricsCollector.runtime_requests
       MetricsCollector.setup_requests].
  rewrite Hphase. simpl. repeat split; auto.
  intros H. now apply app_eq_nil in H as [_ H].
Qed.

(** In the runtime phase, against a transport that always succeeds, a
    dispatched call adds one successful runtime request and returns a last
    page. *)
Lemma api_call_runtime (E : Env) (config : Config) (method endpoint user_id : string)
    (body : option pyval) (expected : list Z) (U : list string) (n : nat) :
  always_succeeds E ->
  (forall status, accepted method status = true -> status_in status expected = true) ->
  triple (runtime_inv U n)
    (api_call E config method endpoint user_id body (Some expected))
    (fun result s =>
       runtime_inv U (S n) s
       /\ ApiResult.success result = true
       /\ exists v, ApiResult.data result = Some v /\ last_page v = true).
Proof.
  intros Hok Hexp s (HU & Hall & Hcel & Hphase & Hsetup & Hn & Hfail).
  destruct (api_call_frame E config method endpoint user_id body (Some expected) s)
    as (result & metric & t & request & Hrun & Hmethod & Hres & Hcase).
  destruct (Hok (length (sent s)) request) as (status & b & v & Hans & Hacc & Hv & Hlast).
  rewrite Hans, Hv in Hcase. destruct Hcase as [Hsucc Hdata].
  rewrite Hmethod in Hacc.
  change (default [200%Z] (Some expected)) with expected in Hsucc.
  rewrite (Hexp _ Hacc) in Hsucc.
  eexists _, _. split; [exact Hrun |]. split.
  - unfold runtime_inv. cbn [metrics set_metrics set_now add_sent regular_users all_users
      celebrities]. unfold MetricsCollector.record.
    cbn [MetricsCollector.phase MetricsCollector.runtime_requests
         MetricsCollector.setup_requests].
    rewrite Hphase. simpl. repeat split; auto.
    + rewrite length_app. simpl. lia.
    + rewrite failures_app_one, Hsucc. lia.
  - split; [congruence |]. now exists v.
Qed.

(** After a last page the pagination loop returns: one request was enough. *)
Lemma paginate_last_page (get_page : pyval -> M ApiResult.t) (fuel pages : nat)
    (cursor : pyval) (P : State -> Prop) (Q : State -> Prop) :
  triple P (get_page cursor)
    (fun result s => Q s /\ ApiResult.success result = true
                     /\ exists v, ApiResult.data result = Some v /\ last_page v = true) ->
  triple P (paginate get_page (S fuel) pages cursor) (fun _ => Q).
Proof.
  intros Hpage s Hs.
  destruct (Hpage s Hs) as (result & s1 & Hrun & Hq & Hsucc & v & Hdata & Hlast).
  cbn [paginate]. unfold bind at 1. rewrite Hrun.
  unfold ApiResult.get_data. rewrite Hsucc, Hdata.
  unfold last_page in Hlast.
  destruct (truthy v) eqn:Ht; cbn [negb orb] in *; [| now eexists _, _].
  destruct v as [| b | z | q | t | l | d]; try discriminate.
  unfold bind, next_cursor, ret. apply negb_true_iff in Hlast. rewrite Hlast.
  cbn [negb]. now eexists _, _.
Qed.

(** ** The setup phases with ten regular users and no celebrity *)

Lemma triple_fresh_uuid (E : Env) (P : State -> Prop) :
  (forall s, P s ->
     P (mkState (metrics s) (regular_users s) (celebrities s) (celebrity_followers s)
          (all_users s) (follow_graph s) (now s) (sent s) (S (uuids s)) (randoms s))) ->
  triple P (fresh_uuid E) (fun _ => P).
Proof. intros H s Hs. eexists _, _. split; [reflexivity |]. now apply H. Qed.

Lemma triple_next_random (P : State -> Prop) :
  (forall s, P s ->
     P (mkState (metrics s) (regular_users s) (celebrities s) (celebrity_followers s)
          (all_users s) (follow_graph s) (now s) (sent s) (uuids s) (S (randoms s)))) ->
  triple P next_random (fun _ => P).
Proof. intros H s Hs. eexists _, _. split; [reflexivity |]. now apply H. Qed.

Lemma phase_create_users_ready (E : Env) (config : Config) :
  regular config = 10%nat -> celebrities_count config = 0%nat ->
  triple (creating_users 0) (phase_create_users E config)
    (fun _ s => exists U, length U = 10%nat /\ setup_ready U s).
Proof.
  intros Hregular Hceleb. unfold phase_create_users. rewrite Hregular, Hceleb.
  eapply triple_bind.
  { apply (triple_for_each creating_users (seq 0 10)). intros i x _.
    eapply triple_bind.
    { apply (triple_fresh_uuid E (creating_users i)). intros s Hs. exact Hs. }
    intros user_id. cbn beta.
    eapply triple_bind.
    { apply (triple_modify (creating_users i)
               (fun s => (celebrities s = [] /\ length (regular_users s) = S i)
                         /\ MetricsCollector.phase (metrics s) = "setup"
                         /\ MetricsCollector.runtime_requests (metrics s) = [])).
      intros s ((Hcel & Hlen) & Hphase & Hrt & _).
      cbn [set_regular_users celebrities regular_users metrics].
      rewrite length_app. simpl. repeat split; auto; lia. }
    intros u. eapply triple_bind.
    { unfold create_tweet. apply api_call_setup. intros s metric t request H. exact H. }
    intros r. cbn beta.
    eapply triple_weaken; [| | apply (triple_ret (fun _ => creating_users (S i)) tt)].
    - intros s (HQ & Hphase & Hrt & Hsetup). unfold creating_users. auto.
    - auto. }
  intros u. cbn [seq for_each].
  eapply triple_bind; [apply (triple_ret (fun _ => creating_users (0 + length (seq 0 10))) tt) |].
  intros v. intros s ((Hcel & Hlen) & Hphase & Hrt & Hsetup).
  eexists tt, _. split; [reflexivity |].
  exists (regular_users s). split; [exact Hlen |].
  unfold setup_ready. cbn [set_all_users regular_users all_users celebrities metrics].
  rewrite Hcel, app_nil_r. repeat split; auto. apply Hsetup. simpl. lia.
Qed.

Lemma phase_build_celebrity_followers_ready (E : Env) (config : Config) (U : list string) :
  triple (setup_ready U) (phase_build_celebrity_followers E config)
    (fun _ => setup_ready U).
Proof.
  intros s Hs. pose proof Hs as (_ & _ & Hcel & _).
  unfold phase_build_celebrity_followers, bind, get_state. rewrite Hcel.
  simpl. now eexists _, _.
Qed.

Lemma triple_pre {A : Type} (P P' : State -> Prop) (c : M A) (Q : A -> State -> Prop) :
  (forall s, P' s -> P s) -> triple P c Q -> triple P' c Q.
Proof. intros HP. apply triple_weaken; auto. Qed.

Lemma triple_post {A : Type} (P : State -> Prop) (c : M A) (Q Q' : A -> State -> Prop) :
  (forall a s, Q a s -> Q' a s) -> triple P c Q -> triple P c Q'.
Proof. intros HQ. apply triple_weaken; auto. Qed.

(** Reading the state: what follows runs from the state that was read. *)
Lemma triple_get_state_bind {B : Type} (P : State -> Prop) (k : State -> M B)
    (Q : B -> State -> Prop) :
  (forall s0, P s0 -> triple P (k s0) Q) -> triple P (bind get_state k) Q.
Proof. intros Hk s Hs. unfold bind, get_state. now apply Hk. Qed.

(** A call whose result is dropped. *)
Lemma triple_then_ret {A : Type} (P : State -> Prop) (c : M A) (Q : State -> Prop) :
  triple P c (fun _ => Q) -> triple P (bind c (fun _ => ret tt)) (fun _ => Q).
Proof.
  intros Hc. eapply triple_bind; [exact Hc |]. intros a. apply (triple_ret (fun _ => Q)).
Qed.

Lemma setup_ready_api_call (E : Env) (config : Config) (method endpoint user_id : string)
    (body : option pyval) (expected_status : option (list Z)) (U : list string) :
  triple (setup_ready U) (api_call E config method endpoint user_id body expected_status)
    (fun _ => setup_ready U).
Proof.
  eapply triple_weaken;
    [| | apply (api_call_setup E config method endpoint user_id body expected_status
                  (fun s => regular_users s = U /\ all_users s = U /\ celebrities s = []))].
  - intros s (? & ? & ? & ? & ? & ?). repeat split; assumption.
  - intros r s ((? & ? & ?) & ? & ? & ?). unfold setup_ready. repeat split; assumption.
  - intros s metric t request H. exact H.
Qed.

Lemma triple_collect_inv {A B : Type} (P : State -> Prop) (l : list A)
    (f : A -> M (list B)) :
  (forall x, In x l -> triple P (f x) (fun _ => P)) ->
  triple P (collect l f) (fun _ => P).
Proof.
  induction l as [|x l IH]; intros Hf.
  - intros s Hs. now exists [], s.
  - cbn [collect]. eapply triple_bind; [apply Hf; now left |].
    intros ys. eapply triple_bind; [apply IH; intros y Hy; apply Hf; now right |].
    intros zs. apply (triple_ret (fun _ => P)).
Qed.

Lemma phase_build_social_graph_ready (E : Env) (config : Config) (U : list string) :
  triple (setup_ready U) (phase_build_social_graph E config) (fun _ => setup_ready U).
Proof.
  unfold phase_build_social_graph.
  apply triple_get_state_bind. intros s0 _.
  eapply triple_bind.
  { apply (triple_collect_inv (setup_ready U)). intros user _.
    apply triple_get_state_bind. intros s1 _.
    eapply triple_bind.
    { apply (triple_next_random (setup_ready U)). intros s Hs. exact Hs. }
    intros n. cbn beta.
    eapply triple_bind.
    { apply (triple_modify (setup_ready U) (setup_ready U)). intros s Hs. exact Hs. }
    intros u. apply (triple_ret (fun _ => setup_ready U)). }
  intros tasks. apply triple_for_each_inv. intros [user target] _.
  apply triple_then_ret. apply setup_ready_api_call.
Qed.

(** ** The runtime phases against a transport that always succeeds *)

Lemma triple_pure_pre {A : Type} (P : State -> Prop) (phi : Prop) (c : M A)
    (Q : A -> State -> Prop) :
  (phi -> triple P c Q) -> triple (fun s => P s /\ phi) c Q.
Proof. intros H s [Hs Hphi]. now apply H. Qed.

Lemma accepted_post (status : Z) :
  accepted "POST" status = true ->
  status_in status [201%Z] = true /\ status_in status [201%Z; 409%Z] = true.
Proof.
  unfold accepted, status_in. simpl. intros H. apply Z.eqb_eq in H as ->. now split.
Qed.

Lemma accepted_delete (status : Z) :
  accepted "DELETE" status = true -> status_in status [200%Z; 204%Z; 404%Z] = true.
Proof.
  unfold accepted, status_in. simpl. intros H.
  rewrite orb_false_r. now rewrite orb_assoc.
Qed.

Lemma accepted_get (status : Z) :
  accepted "GET" status = true -> status_in status [200%Z] = true.
Proof. unfold accepted, status_in. simpl. intros H. now rewrite orb_false_r. Qed.

Section Runtime.

Context (E : Env) (config : Config) (U : list string).
Hypothesis transport_ok : always_succeeds E.

Lemma create_tweet_runtime (user content : string) (n : nat) :
  triple (runtime_inv U n) (create_tweet E config user content)
    (fun _ => runtime_inv U (S n)).
Proof.
  unfold create_tweet. eapply triple_post; [| apply api_call_runtime; auto].
  - intros r s [H _]. exact H.
  - intros status H. now apply accepted_post.
Qed.

Lemma follow_user_runtime (a b : string) (n : nat) :
  triple (runtime_inv U n) (follow_user E config a b) (fun _ => runtime_inv U (S n)).
Proof.
  unfold follow_user. eapply triple_post; [| apply api_call_runtime; auto].
  - intros r s [H _]. exact H.
  - intros status H. now apply accepted_post.
Qed.

Lemma unfollow_user_runtime (a b : string) (n : nat) :
  triple (runtime_inv U n) (unfollow_user E config a b) (fun _ => runtime_inv U (S n)).
Proof.
  unfold unfollow_user. eapply triple_post; [| apply api_call_runtime; auto].
  - intros r s [H _]. exact H.
  - intros status H. now apply accepted_delete.
Qed.

Lemma get_followers_runtime (user : string) (n : nat) :
  triple (runtime_inv U n) (get_followers E config user) (fun _ => runtime_inv U (S n)).
Proof.
  unfold get_followers. eapply triple_post; [| apply api_call_runtime; auto].
  - intros r s [H _]. exact H.
  - intros status H. now apply accepted_get.
Qed.

Lemma get_following_runtime (user : string) (n : nat) :
  triple (runtime_inv U n) (get_following E config user) (fun _ => runtime_inv U (S n)).
Proof.
  unfold get_following. eapply triple_post; [| apply api_call_runtime; auto].
  - intros r s [H _]. exact H.
  - intros status H. now apply accepted_get.
Qed.

(** One page is all a pagination reads. *)
Lemma paginate_timeline_runtime (fuel : nat) (user : string) (limit n : nat) :
  triple (runtime_inv U n) (paginate_timeline E config (S fuel) user limit)
    (fun _ => runtime_inv U (S n)).
Proof.
  unfold paginate_timeline. apply paginate_last_page.
  unfold get_timeline. apply api_call_runtime; auto.
  intros status H. now apply accepted_get.
Qed.

Lemma paginate_tweets_runtime (fuel : nat) (user : string) (limit n : nat) :
  triple (runtime_inv U n) (paginate_tweets E config (S fuel) user limit)
    (fun _ => runtime_inv U (S n)).
Proof.
  unfold paginate_tweets. apply paginate_last_page.
  unfold get_user_tweets. apply api_call_runtime; auto.
  intros status H. now apply accepted_get.
Qed.

(** A loop whose every turn adds at least [k] runtime requests. *)
Lemma runtime_for_each {A : Type} (l : list A) (f : A -> M unit) (k n : nat) :
  (forall m x, In x l -> triple (runtime_inv U m) (f x) (fun _ => runtime_inv U (m + k))) ->
  triple (runtime_inv U n) (for_each l f) (fun _ => runtime_inv U (n + k * length l)).
Proof.
  intros Hf.
  eapply triple_weaken;
    [| | apply (triple_for_each (fun i => runtime_inv U (n + k * i)) l f) with (i := 0%nat)].
  - intros s Hs. cbn beta. now rewrite Nat.mul_0_r, Nat.add_0_r.
  - intros u s Hs. exact Hs.
  - intros i x Hx. eapply triple_post; [| apply (Hf (n + k * i)%nat x Hx)].
    intros u s Hs. cbn beta in *.
    now replace (n + k * S i)%nat with (n + k * i + k)%nat by lia.
Qed.

Lemma phase_create_tweets_runtime (n : nat) :
  tweets_per_user config = 1%nat ->
  triple (runtime_inv U n) (phase_create_tweets E config)
    (fun _ => runtime_inv U (n + length U)).
Proof.
  intros Htweets. unfold phase_create_tweets. rewrite Htweets.
  eapply triple_bind.
  { apply (triple_collect (runtime_inv U n) (seq 0 1) _ (1 * length U)).
    intros round_num _. apply triple_get_state_bind. intros s0 (_ & Hall & _).
    rewrite Hall. apply triple_collect. intros user _.
    apply triple_get_state_bind. intros s1 _.
    eapply triple_bind; [apply (triple_fresh_uuid E (runtime_inv U n)); auto |].
    intros u. intros s Hs. eexists _, s. split; [reflexivity |]. now split. }
  intros tasks. cbn beta. apply triple_pure_pre. intros Hlen.
  eapply triple_post; [| apply (runtime_for_each tasks _ 1 n)].
  - intros u s Hs. cbn beta in Hs. rewrite Hlen in Hs. simpl in Hs.
    eapply runtime_inv_mono; [| exact Hs]. lia.
  - intros m [user content] _. apply triple_then_ret.
    eapply triple_post; [| apply create_tweet_runtime].
    intros r s Hs. cbn beta in *. now replace (m + 1)%nat with (S m) by lia.
Qed.

Lemma phase_read_timelines_runtime (fuel n : nat) :
  timeline_reads_per_user config = 0%nat ->
  triple (runtime_inv U n) (phase_read_timelines E config fuel)
    (fun _ => runtime_inv U n).
Proof.
  intros Hreads. unfold phase_read_timelines. rewrite Hreads.
  apply triple_get_state_bind. intros s0 _. simpl.
  apply (triple_ret (fun _ => runtime_inv U n)).
Qed.

Lemma phase_check_profiles_runtime (fuel n : nat) :
  triple (runtime_inv U n) (phase_check_profiles E config (S fuel))
    (fun _ => runtime_inv U (n + 3 * length U)).
Proof.
  unfold phase_check_profiles.
  apply triple_get_state_bind. intros s0 (_ & Hall & _). rewrite Hall.
  apply runtime_for_each. intros m user _.
  eapply triple_bind; [apply paginate_tweets_runtime |]. intros pages.
  eapply triple_bind; [apply get_followers_runtime |]. intros r1.
  eapply triple_bind; [apply get_following_runtime |]. intros r2.
  eapply triple_pre; [| apply (triple_ret (fun _ => runtime_inv U (m + 3)) tt)].
  intros s Hs. now replace (m + 3)%nat with (S (S (S m))) by lia.
Qed.

Lemma phase_unfollow_some_runtime (n : nat) :
  triple (runtime_inv U n) (phase_unfollow_some E config) (fun _ => runtime_inv U n).
Proof.
  unfold phase_unfollow_some.
  apply triple_get_state_bind. intros s0 (HU & _). rewrite HU.
  apply triple_for_each_inv. intros user _.
  apply triple_get_state_bind. intros s1 _.
  set (regular_following :=
         filter (fun f => inb f (celebrities s1) = false)
           (default [] (follow_graph s1 !! user))).
  apply triple_for_each_inv. intros i Hi.
  apply in_seq in Hi.
  rewrite (index_nth regular_following i "") by lia.
  apply triple_then_ret.
  eapply triple_post; [| apply unfollow_user_runtime].
  intros r s Hs. eapply runtime_inv_mono; [| exact Hs]. lia.
Qed.

Lemma mixed_user_activity_runtime (fuel : nat) (user : string) (round_num n : nat) :
  triple (runtime_inv U n) (mixed_user_activity E config (S fuel) user round_num)
    (fun _ => runtime_inv U (n + 2)).
Proof.
  unfold mixed_user_activity.
  eapply triple_bind; [apply (triple_fresh_uuid E (runtime_inv U n)); auto |]. intros u.
  eapply triple_bind; [apply create_tweet_runtime |]. intros r.
  apply triple_get_state_bind. intros s0 _. cbn zeta.
  eapply triple_bind.
  { instantiate (1 := fun _ => runtime_inv U (S n)).
    destruct (filter _ (regular_users s0)) as [|target others].
    - apply (triple_ret (fun _ => runtime_inv U (S n)) tt).
    - eapply triple_bind; [apply (triple_next_random (runtime_inv U (S n))); auto |].
      intros k. apply triple_then_ret.
      eapply triple_post; [| apply follow_user_runtime].
      intros r' s Hs. eapply runtime_inv_mono; [| exact Hs]. lia. }
  intros v. eapply triple_bind; [apply paginate_timeline_runtime |]. intros pages.
  eapply triple_pre; [| apply (triple_ret (fun _ => runtime_inv U (n + 2)) tt)].
  intros s Hs. now replace (n + 2)%nat with (S (S n)) by lia.
Qed.

Lemma phase_mixed_activity_runtime (fuel n : nat) :
  triple (runtime_inv U n) (phase_mixed_activity E config (S fuel))
    (fun _ => runtime_inv U (n + 4 * length U)).
Proof.
  unfold phase_mixed_activity.
  apply triple_get_state_bind. intros s0 (HU & _). rewrite HU. cbn zeta.
  eapply triple_post; [| apply (runtime_for_each _ _ 2 n)].
  - intros u s Hs. cbn beta in Hs. eapply runtime_inv_mono; [| exact Hs].
    simpl. rewrite !length_app, !length_map. simpl. lia.
  - intros m [user round_num] _. apply mixed_user_activity_runtime.
Qed.

End Runtime.

(** ** The whole run *)

Lemma triple_exists_pure {A X : Type} (phi : X -> Prop) (P : X -> State -> Prop)
    (c : M A) (Q : A -> State -> Prop) :
  (forall x, phi x -> triple (P x) c Q) ->
  triple (fun s => exists x, phi x /\ P x s) c Q.
Proof. intros H s (x & Hphi & Hs). now apply (H x). Qed.

(** With requests in both phases [print_results] returns a verdict. *)
Lemma print_results_ok (E : Env) (config : Config) (m : MetricsCollector.t) :
  MetricsCollector.setup_requests m <> [] ->
  MetricsCollector.runtime_requests m <> [] ->
  exists passed panel, print_results E config m = Ok (passed, panel).
Proof.
  intros Hsetup Hruntime. destruct (RICH_AVAILABLE E) eqn:Hrich.
  - destruct (print_results_rich E config m Hrich Hsetup Hruntime) as (sr & _ & ->).
    now eexists _, _.
  - unfold print_results.
    destruct (get_phase_stats_ok "setup" m) as (st & -> & _).
    destruct (get_phase_stats_ok "runtime" m) as (rt & -> & _ & _ & _ & Hrr & _).
    change (phase_requests "runtime" m) with (MetricsCollector.runtime_requests m) in Hrr.
    cbn [rbind]. rewrite Hrich. unfold PhaseStats.get_success_rate. rewrite Hrr.
    destruct (MetricsCollector.runtime_requests m); [contradiction |].
    cbn [rbind]. now eexists _, _.
Qed.

Lemma error_rate_no_failures (requests : list RequestMetrics.t) :
  failures requests = 0%nat -> (error_rate requests == 0)%Q.
Proof.
  unfold failures, error_rate. intros ->. unfold Qnat, Qdiv. simpl (inject_Z _). ring.
Qed.

Lemma creating_users_init : creating_users 0 init_state.
Proof. unfold creating_users. simpl. repeat split; auto. lia. Qed.


Lemma ok_env_always_succeeds (rich : bool) (seconds : Q) :
  always_succeeds (ok_env rich seconds).
Proof.
  intros n r. eexists _, _, _. split; [reflexivity |].
  split; [| split; reflexivity].
  unfold accepted. destruct (String.eqb (Request.method r) "POST"); [reflexivity |].
  destruct (String.eqb (Request.method r) "DELETE"); reflexivity.
Qed.



(** A run that sends no request in a phase ends without a verdict:
    [get_phase_stats] gives a dict without 'success_rate' for a phase with
    no request, and [print_results] reads that key. *)
Lemma run_without_requests_raises :
  outcome_exn (run (ok_env true 1) empty_config 1 init_state)
  = Some (KeyError "success_rate")
  /\ outcome_exn (run (ok_env false 1) empty_config 1 init_state)
     = Some (KeyError "success_rate")
  /\ main (ok_env true 1) empty_config 1 = Some 1%Z.
Proof.
  split; [vm_compute; reflexivity |]. split; vm_compute; reflexivity.
Qed.

(** ** Percentiles are ordered *)

Lemma sorted_nth_le (l : list Q) (i j : nat) :
  StronglySorted Qle l -> (i <= j)%nat -> (j < length l)%nat ->
  (nth i l 0 <= nth j l 0)%Q.
Proof.
  intros Hs. revert i j. induction Hs as [|x l Hs IH Hx]; intros i j Hij Hj.
  - simpl in Hj. lia.
  - destruct j as [|j].
    + assert (i = 0)%nat as -> by lia. apply Qle_refl.
    + simpl in Hj. destruct i as [|i].
      * simpl. rewrite List.Forall_forall in Hx. apply Hx. apply nth_In. lia.
      * simpl. apply IH; lia.
Qed.

Lemma int_of_product_mono (n : nat) (q q' : Q) :
  (q <= q')%Q -> (int_of_product n q <= int_of_product n q')%nat.
Proof.
  intros Hq. unfold int_of_product.
  assert (H : (Qfloor (Qnat n * q) <= Qfloor (Qnat n * q'))%Z).
  { apply Qfloor_resp_le. rewrite !(Qmult_comm (Qnat n)).
    apply Qmult_le_compat_r; [exact Hq |].
    unfold Qnat. change 0%Q with (inject_Z 0). rewrite <- Zle_Qle. lia. }
  lia.
Qed.

(** The sample of a quantile over a non-empty list, as an index in range. *)
Lemma quantile_nth (q : Q) (samples : list Q) :
  samples <> [] ->
  quantile q samples
  = nth (Nat.min (int_of_product (length samples) q) (length samples - 1)) (sorted samples) 0%Q
  /\ (Nat.min (int_of_product (length samples) q) (length samples - 1)
      < length (sorted samples))%nat.
Proof.
  intros Hne. destruct samples as [|x l] eqn:Hs; [contradiction |]. rewrite <- Hs in *.
  assert (0 < length samples)%nat by (subst; simpl; lia).
  split; [subst; reflexivity | rewrite sorted_length; lia].
Qed.

Lemma quantile_mono (q q' : Q) (samples : list Q) :
  (q <= q')%Q -> (quantile q samples <= quantile q' samples)%Q.
Proof.
  intros Hq. destruct samples as [|x l] eqn:Hs; [apply Qle_refl |]. rewrite <- Hs.
  assert (Hne : samples <> []) by (subst; discriminate).
  destruct (quantile_nth q samples Hne) as [-> _].
  destruct (quantile_nth q' samples Hne) as [-> Hlt].
  apply sorted_nth_le; [apply sorted_sorted | | exact Hlt].
  pose proof (int_of_product_mono (length samples) q q' Hq). lia.
Qed.

Lemma quantile_In (q : Q) (samples : list Q) :
  samples <> [] -> In (quantile q samples) samples.
Proof.
  intros Hne. destruct (quantile_nth q samples Hne) as [-> Hlt].
  apply (Permutation_in _ (sorted_perm samples)). now apply nth_In.
Qed.

Lemma Qmean_le (a b : Q) : (a <= b)%Q -> (a <= (a + b) / 2 /\ (a + b) / 2 <= b)%Q.
Proof.
  intros Hab. split.
  - apply Qle_shift_div_l; [reflexivity |].
    assert (H2 : (a * 2 == a + a)%Q) by ring. rewrite H2.
    now apply Qplus_le_r.
  - apply Qle_shift_div_r; [reflexivity |].
    assert (H2 : (b * 2 == b + b)%Q) by ring. rewrite H2.
    now apply Qplus_le_l.
Qed.

(** The median lies between the two middle samples and below the sample
    at sorted index floor(n / 2). *)
Lemma median_value_le_half (samples : list Q) :
  (median_value samples <= quantile (1 # 2) samples)%Q.
Proof.
  destruct (Nat.odd (length samples)) eqn:Hodd.
  { rewrite median_value_odd by exact Hodd. apply Qle_refl. }
  destruct (list_eq_nil_dec samples) as [-> | Hne]; [apply Qle_refl |].
  assert (Hn : (0 < length samples)%nat) by (destruct samples; [contradiction | simpl; lia]).
  destruct (quantile_nth (1 # 2) samples Hne) as [-> Hlt].
  rewrite int_of_product_half in *.
  pose proof (Nat.div_lt (length samples) 2 Hn ltac:(lia)) as Hhalf.
  replace (Nat.min (length samples / 2) (length samples - 1)) with (length samples / 2)%nat
    by lia.
  unfold median_value.
  destruct samples as [|x l] eqn:Hs; [contradiction |]. rewrite <- Hs in *.
  rewrite Hodd.
  apply Qmean_le. apply sorted_nth_le; [apply sorted_sorted | lia |].
  rewrite sorted_length. lia.
Qed.

Lemma median_value_bounds (samples : list Q) :
  samples <> [] ->
  exists lo hi, In lo samples /\ In hi samples
                /\ (lo <= median_value samples)%Q /\ (median_value samples <= hi)%Q.
Proof.
  intros Hne.
  assert (Hn : (0 < length samples)%nat) by (destruct samples; [contradiction | simpl; lia]).
  pose proof (Nat.div_lt (length samples) 2 Hn ltac:(lia)) as Hhalf.
  assert (Hin : forall i, (i < length samples)%nat -> In (nth i (sorted samples) 0%Q) samples).
  { intros i Hi. apply (Permutation_in _ (sorted_perm samples)).
    apply nth_In. now rewrite sorted_length. }
  unfold median_value. destruct samples as [|x l] eqn:Hs; [contradiction |]. rewrite <- Hs in *.
  destruct (Nat.odd (length samples)).
  - exists (nth (length samples / 2) (sorted samples) 0%Q),
           (nth (length samples / 2) (sorted samples) 0%Q).
    split; [now apply Hin |]. split; [now apply Hin |]. split; apply Qle_refl.
  - exists (nth (length samples / 2 - 1) (sorted samples) 0%Q),
           (nth (length samples / 2) (sorted samples) 0%Q).
    split; [apply Hin; lia |]. split; [now apply Hin |].
    apply Qmean_le. apply sorted_nth_le; [apply sorted_sorted | lia |].
    rewrite sorted_length. lia.
Qed.

Lemma overall_p50_median (m : MetricsCollector.t) :
  MetricsCollector.overall_p50 m = Ok (median_value (MetricsCollector.all_latencies m)).
Proof.
  unfold MetricsCollector.overall_p50.
  destruct (MetricsCollector.all_latencies m) as [|x l] eqn:Hl; [reflexivity |].
  now apply median_ok.
Qed.

Lemma overall_quantile (a b : positive) (m : MetricsCollector.t) :
  match sorted (MetricsCollector.all_latencies m) with
  | [] => Ok 0%Q
  | _ =>
      index (sorted (MetricsCollector.all_latencies m))
        (Nat.min (int_of_product (length (sorted (MetricsCollector.all_latencies m)))
                    (Zpos a # b))
           (length (sorted (MetricsCollector.all_latencies m)) - 1))
  end = Ok (quantile (Zpos a # b) (MetricsCollector.all_latencies m)).
Proof.
  pose proof (sorted_length (MetricsCollector.all_latencies m)) as Hlen.
  destruct (MetricsCollector.all_latencies m) as [|x l] eqn:Hl; [reflexivity |].
  rewrite <- Hl in *.
  destruct (sorted (MetricsCollector.all_latencies m)) as [|y l'] eqn:Hsl.
  { rewrite Hl in Hlen. simpl in Hlen. lia. }
  rewrite <- Hsl in *. rewrite Hlen.
  assert (Hne : MetricsCollector.all_latencies m <> []) by (rewrite Hl; discriminate).
  destruct (quantile_nth (Zpos a # b) _ Hne) as [-> Hlt].
  now apply index_nth.
Qed.

(** The percentiles of every report are ordered: p50 <= p95 <= p99, for a
    bucket of the endpoint table (whose p50 is the median), for the
    statistics of a phase and for the whole collector; none of them fails.
    Over at least one sample the p95 and the p99 are recorded samples, and
    the median lies between two of them. *)
Theorem percentiles_ordered :
  (forall stats : EndpointStats.t,
      exists p50 p95 p99,
        EndpointStats.p50 stats = Ok p50
        /\ EndpointStats.p95 stats = Ok p95
        /\ EndpointStats.p99 stats = Ok p99
        /\ (p50 <= p95)%Q /\ (p95 <= p99)%Q
        /\ (EndpointStats.latencies stats <> [] ->
            In p95 (EndpointStats.latencies stats)
            /\ In p99 (EndpointStats.latencies stats)
            /\ exists lo hi,
                 In lo (EndpointStats.latencies stats)
                 /\ In hi (EndpointStats.latencies stats)
                 /\ (lo <= p50)%Q /\ (p50 <= hi)%Q))
  /\ (forall (phase : string) (m : MetricsCollector.t),
        exists stats,
          MetricsCollector.get_phase_stats phase m = Ok stats
          /\ (PhaseStats.p50 stats <= PhaseStats.p95 stats)%Q
          /\ (PhaseStats.p95 stats <= PhaseStats.p99 stats)%Q
          /\ (phase_requests phase m <> [] ->
              In (PhaseStats.p50 stats) (phase_latencies phase m)
              /\ In (PhaseStats.p95 stats) (phase_latencies phase m)
              /\ In (PhaseStats.p99 stats) (phase_latencies phase m)))
  /\ (forall m : MetricsCollector.t,
        exists p50 p95 p99,
          MetricsCollector.overall_p50 m = Ok p50
          /\ MetricsCollector.overall_p95 m = Ok p95
          /\ MetricsCollector.overall_p99 m = Ok p99
          /\ (p50 <= p95)%Q /\ (p95 <= p99)%Q).
Proof.
  assert (H5095 : (1 # 2 <= 95 # 100)%Q) by (unfold Qle; simpl; lia).
  assert (H9599 : (95 # 100 <= 99 # 100)%Q) by (unfold Qle; simpl; lia).
  split; [| split].
  - intros stats. eexists _, _, _.
    split; [apply EndpointStats_p50_median |].
    split; [apply EndpointStats_p95_quantile |].
    split; [apply EndpointStats_p99_quantile |].
    split.
    { eapply Qle_trans; [apply median_value_le_half | now apply quantile_mono]. }
    split; [now apply quantile_mono |].
    intros Hne. split; [now apply quantile_In |]. split; [now apply quantile_In |].
    now apply median_value_bounds.
  - intros phase m.
    destruct (get_phase_stats_ok phase m) as (stats & H & _ & _ & _ & _ & H50 & H95 & H99).
    exists stats. split; [exact H |]. rewrite H50, H95, H99.
    split; [now apply quantile_mono |]. split; [now apply quantile_mono |].
    intros Hne.
    assert (Hl : phase_latencies phase m <> []).
    { unfold phase_latencies. destruct (phase_requests phase m); [contradiction | discriminate]. }
    split; [now apply quantile_In |]. split; now apply quantile_In.
  - intros m. eexists _, _, _.
    split; [apply overall_p50_median |].
    split; [apply (overall_quantile 95 100) |].
    split; [apply (overall_quantile 99 100) |].
    split; [| now apply quantile_mono].
    eapply Qle_trans; [apply median_value_le_half | now apply quantile_mono].
Qed.

(** ** The collector against the log of recorded requests *)

Lemma collector_after_snoc (calls : list collector_call) (c : collector_call) :
  collector_after (calls ++ [c]) = apply_call (collector_after calls) c.
Proof. unfold collector_after. now rewrite fold_left_app. Qed.

Lemma recorded_snoc (calls : list collector_call) (c : collector_call) :
  recorded (calls ++ [c])
  = recorded calls ++ match c with CallRecord metric => [metric] | CallSetPhase _ => [] end.
Proof. unfold recorded. rewrite flat_map_app. simpl. now rewrite app_nil_r. Qed.

Lemma in_bucket_snoc (key : string) (l : list RequestMetrics.t) (metric : RequestMetrics.t) :
  in_bucket key (l ++ [metric])
  = in_bucket key l
    ++ (if String.eqb key (MetricsCollector.bucket_key metric) then [metric] else []).
Proof.
  unfold in_bucket. rewrite filter_app, filter_cons, filter_nil.
  destruct (String.eqb_spec key (MetricsCollector.bucket_key metric)) as [-> | Hne].
  - now rewrite decide_True.
  - now rewrite decide_False by congruence.
Qed.

Lemma with_error_snoc (k : string) (l : list RequestMetrics.t) (metric : RequestMetrics.t) :
  with_error k (l ++ [metric])
  = with_error k l
    ++ (if RequestMetrics.success metric then []
        else if String.eqb k (MetricsCollector.err_key metric) then [metric] else []).
Proof.
  unfold with_error. rewrite filter_app, filter_cons, filter_nil.
  destruct (RequestMetrics.success metric) eqn:Hs.
  - now rewrite decide_False by (intros [H _]; discriminate).
  - destruct (String.eqb_spec k (MetricsCollector.err_key metric)) as [-> | Hne].
    + now rewrite decide_True.
    + now rewrite decide_False by (intros [_ H]; congruence).
Qed.

Lemma collector_after_requests (calls : list collector_call) :
  MetricsCollector.requests (collector_after calls) = recorded calls.
Proof.
  induction calls as [|c calls IH] using rev_ind; [reflexivity |].
  rewrite collector_after_snoc, recorded_snoc. destruct c as [metric | phase]; simpl.
  - now rewrite IH.
  - now rewrite IH, app_nil_r.
Qed.

(** The bucket of [key] holds what the requests logged under [key] say. *)
Lemma collector_after_bucket (calls : list collector_call) (key : string) :
  let m := collector_after calls in
  let log := in_bucket key (MetricsCollector.requests m) in
  EndpointStats.total (bucket key m) = length log
  /\ EndpointStats.success (bucket key m) = MetricsCollector.count_success log
  /\ EndpointStats.failed (bucket key m) = failures log
  /\ EndpointStats.latencies (bucket key m) = map RequestMetrics.latency_ms log
  /\ (forall k, default 0%nat (EndpointStats.errors (bucket key m) !! k)
                = length (with_error k log))
  /\ (MetricsCollector.by_endpoint m !! key = None <-> log = []).
Proof.
  induction calls as [|c calls IH] using rev_ind.
  - cbn zeta. unfold collector_after, bucket. simpl. rewrite lookup_empty. simpl.
    repeat split; reflexivity.
  - cbn zeta in *. rewrite collector_after_snoc.
    destruct c as [metric | phase]; [| exact IH].
    set (m := collector_after calls) in *.
    destruct IH as (Htot & Hsucc & Hfail & Hlat & Herr & Hnone).
    cbn [apply_call]. rewrite bucket_record.
    replace (MetricsCollector.requests (MetricsCollector.record metric m))
      with (MetricsCollector.requests m ++ [metric]) by reflexivity.
    rewrite in_bucket_snoc.
    replace (MetricsCollector.by_endpoint (MetricsCollector.record metric m))
      with (<[MetricsCollector.bucket_key metric :=
                MetricsCollector.record_stats metric
                  (bucket (MetricsCollector.bucket_key metric) m)]>
              (MetricsCollector.by_endpoint m)) by reflexivity.
    destruct (String.eqb_spec key (MetricsCollector.bucket_key metric)) as [Hkey | Hkey].
    + set (log := in_bucket key (MetricsCollector.requests m)) in *.
      unfold MetricsCollector.record_stats.
      split; [| split; [| split; [| split; [| split]]]].
      * destruct (RequestMetrics.success metric); simpl; rewrite length_app; simpl; lia.
      * rewrite count_success_app, count_success_one.
        destruct (RequestMetrics.success metric); simpl; lia.
      * rewrite failures_app_one.
        destruct (RequestMetrics.success metric); simpl; lia.
      * rewrite map_app. simpl.
        destruct (RequestMetrics.success metric); simpl; now rewrite Hlat.
      * intros k. rewrite with_error_snoc, length_app.
        destruct (RequestMetrics.success metric); simpl.
        { rewrite Herr. lia. }
        destruct (String.eqb_spec k (MetricsCollector.err_key metric)) as [-> | Hk].
        -- rewrite lookup_insert_eq. simpl. rewrite Herr. lia.
        -- rewrite lookup_insert_ne by congruence. rewrite Herr. simpl. lia.
      * subst key. rewrite lookup_insert_eq. split; [discriminate |].
        intros H. apply app_eq_nil in H as [_ H]. discriminate.
    + rewrite app_nil_r. rewrite lookup_insert_ne by congruence.
      repeat split; try assumption; apply Hnone.
Qed.

(** After any sequence of [record] and [set_phase] calls on a fresh
    collector, the list of requests holds the recorded metrics in the order
    of the calls, and the bucket of every key agrees with the requests
    logged under that key: its total is their number, its success and
    failed counts are the numbers of those that succeeded and that failed,
    its latencies are theirs in the order recorded, every count of its
    error dict is the number of failed requests with that error key, and a
    key has an entry in [by_endpoint] iff a request was logged under it. *)
Theorem bucket_reflects_log (calls : list collector_call) (key : string) :
  let m := collector_after calls in
  let log := in_bucket key (MetricsCollector.requests m) in
  MetricsCollector.requests m = recorded calls
  /\ EndpointStats.total (bucket key m) = length log
  /\ EndpointStats.success (bucket key m) = MetricsCollector.count_success log
  /\ EndpointStats.failed (bucket key m) = failures log
  /\ EndpointStats.latencies (bucket key m) = map RequestMetrics.latency_ms log
  /\ (forall k, default 0%nat (EndpointStats.errors (bucket key m) !! k)
                = length (with_error k log))
  /\ (MetricsCollector.by_endpoint m !! key = None <-> log = []).
Proof.
  intros m log. split; [apply collector_after_requests |].
  apply collector_after_bucket.
Qed.

(** ** The endpoint table accounts for every request *)

(** Replacing the value of a key changes a sum over the map by the
    difference of the two values. *)
Lemma sum_list_insert {V : Type} (f : V -> nat) (g : gmap string V) (k : string) (v : V) :
  (sum_list (map (fun row => f row.2) (map_to_list (<[k := v]> g)))
   + match g !! k with Some old => f old | None => 0 end
   = sum_list (map (fun row => f row.2) (map_to_list g)) + f v)%nat.
Proof.
  assert (Hperm : forall l l' : list (string * V),
            l ≡ₚ l' -> sum_list (map (fun row => f row.2) l)
                       = sum_list (map (fun row => f row.2) l')).
  { intros l l' H. induction H; simpl; lia. }
  destruct (g !! k) as [old |] eqn:Hk.
  - rewrite <- (insert_delete_eq g k v).
    rewrite (Hperm _ _ (map_to_list_insert (delete k g) k v (lookup_delete_eq g k))).
    rewrite <- (Hperm _ _ (map_to_list_delete g k old Hk)). simpl. lia.
  - rewrite (Hperm _ _ (map_to_list_insert g k v Hk)). simpl. lia.
Qed.

Lemma table_sum_record (column : EndpointStats.t -> nat) (metric : RequestMetrics.t)
    (m : MetricsCollector.t) :
  column EndpointStats.default = 0%nat ->
  (table_sum column (MetricsCollector.record metric m)
   + column (bucket (MetricsCollector.bucket_key metric) m)
   = table_sum column m
     + column (MetricsCollector.record_stats metric
                 (bucket (MetricsCollector.bucket_key metric) m)))%nat.
Proof.
  intros Hdefault. unfold table_sum.
  replace (MetricsCollector.by_endpoint (MetricsCollector.record metric m))
    with (<[MetricsCollector.bucket_key metric :=
              MetricsCollector.record_stats metric
                (bucket (MetricsCollector.bucket_key metric) m)]>
            (MetricsCollector.by_endpoint m)) by reflexivity.
  pose proof (sum_list_insert column (MetricsCollector.by_endpoint m)
                (MetricsCollector.bucket_key metric)
                (MetricsCollector.record_stats metric
                   (bucket (MetricsCollector.bucket_key metric) m))) as H.
  unfold bucket in *.
  destruct (MetricsCollector.by_endpoint m !! MetricsCollector.bucket_key metric);
    simpl in *; [exact H | rewrite Hdefault; exact H].
Qed.

Lemma errors_sum_record (metric : RequestMetrics.t) (stats : EndpointStats.t) :
  errors_sum (MetricsCollector.record_stats metric stats)
  = (errors_sum stats + if RequestMetrics.success metric then 0 else 1)%nat.
Proof.
  unfold errors_sum, MetricsCollector.record_stats.
  destruct (RequestMetrics.success metric); cbn [EndpointStats.errors]; [lia |].
  pose proof (sum_list_insert (fun n : nat => n) (EndpointStats.errors stats)
                (MetricsCollector.err_key metric)
                (S (default 0%nat (EndpointStats.errors stats !! MetricsCollector.err_key metric))))
    as H.
  replace (map snd) with (map (fun row : string * nat => row.2)) by reflexivity.
  destruct (EndpointStats.errors stats !! MetricsCollector.err_key metric); simpl in *; lia.
Qed.

Lemma total_success_count (m : MetricsCollector.t) :
  MetricsCollector.total_success m
  = MetricsCollector.count_success (MetricsCollector.requests m).
Proof. reflexivity. Qed.

Lemma total_failed_failures (m : MetricsCollector.t) :
  MetricsCollector.total_failed m = failures (MetricsCollector.requests m).
Proof.
  unfold MetricsCollector.total_failed, failures, MetricsCollector.count_success.
  induction (MetricsCollector.requests m) as [|r l IH]; [reflexivity |].
  rewrite !filter_cons.
  pose proof (length_filter (fun r => RequestMetrics.success r = true) l) as Hle.
  destruct (RequestMetrics.success r) eqn:Hr.
  - rewrite decide_False by congruence. rewrite decide_True by reflexivity.
    simpl. rewrite IH. reflexivity.
  - rewrite decide_True by reflexivity. rewrite decide_False by congruence.
    simpl. rewrite IH. lia.
Qed.

(** After any sequence of [record] and [set_phase] calls on a fresh
    collector the endpoint table accounts for every request exactly once:
    summed over all buckets, the totals give the number of requests, the
    success counts the number of successful requests and the failed counts
    the number of failed ones, which together are all requests; and in
    every bucket the counts of the error dict sum to its failed count. *)
Theorem endpoint_table_accounts_for_all (calls : list collector_call) :
  let m := collector_after calls in
  table_sum EndpointStats.total m = MetricsCollector.total_requests m
  /\ table_sum EndpointStats.success m = MetricsCollector.total_success m
  /\ table_sum EndpointStats.failed m = MetricsCollector.total_failed m
  /\ (MetricsCollector.total_success m + MetricsCollector.total_failed m
      = MetricsCollector.total_requests m)%nat
  /\ forall key, errors_sum (bucket key m) = EndpointStats.failed (bucket key m).
Proof.
  cbn zeta. induction calls as [|c calls IH] using rev_ind.
  - repeat split.
  - rewrite collector_after_snoc. destruct c as [metric | phase]; [| exact IH].
    set (m := collector_after calls) in *.
    destruct IH as (Htot & Hsucc & Hfail & Hsum & Herr).
    cbn [apply_call].
    pose proof (table_sum_record EndpointStats.total metric m eq_refl) as H1.
    pose proof (table_sum_record EndpointStats.success metric m eq_refl) as H2.
    pose proof (table_sum_record EndpointStats.failed metric m eq_refl) as H3.
    rewrite total_failed_failures, total_success_count in *.
    unfold MetricsCollector.total_requests in *.
    replace (MetricsCollector.requests (MetricsCollector.record metric m))
      with (MetricsCollector.requests m ++ [metric]) by reflexivity.
    rewrite failures_app_one, count_success_app, count_success_one, length_app.
    unfold MetricsCollector.record_stats in H1, H2, H3.
    split; [| split; [| split; [| split]]].
    + destruct (RequestMetrics.success metric); simpl in *; lia.
    + destruct (RequestMetrics.success metric); simpl in *; lia.
    + destruct (RequestMetrics.success metric); simpl in *; lia.
    + destruct (RequestMetrics.success metric); simpl in *; lia.
    + intros key. rewrite bucket_record.
      destruct (String.eqb key (MetricsCollector.bucket_key metric)); [| apply Herr].
      rewrite errors_sum_record, Herr. unfold MetricsCollector.record_stats.
      destruct (RequestMetrics.success metric); simpl; lia.
Qed.

(** ** Rates are percentages *)

Lemma Qnat_le (k n : nat) : (k <= n)%nat -> (Qnat k <= Qnat n)%Q.
Proof. intros H. unfold Qnat. rewrite <- Zle_Qle. lia. Qed.

Lemma Qnat_pos (n : nat) : (0 < n)%nat -> (0 < Qnat n)%Q.
Proof. intros H. unfold Qnat. change 0%Q with (inject_Z 0). rewrite <- Zlt_Qlt. lia. Qed.

Lemma percentage_bounds (k n : nat) :
  (k <= n)%nat -> (0 < n)%nat ->
  (0 <= Qnat k / Qnat n * 100)%Q /\ (Qnat k / Qnat n * 100 <= 100)%Q.
Proof.
  intros Hk Hn. pose proof (Qnat_pos n Hn) as Hpos.
  assert (H0 : (0 <= Qnat k / Qnat n)%Q).
  { apply Qle_shift_div_l; [exact Hpos |]. rewrite Qmult_0_l.
    change 0%Q with (Qnat 0). apply Qnat_le. lia. }
  assert (H1 : (Qnat k / Qnat n <= 1)%Q).
  { apply Qle_shift_div_r; [exact Hpos |]. rewrite Qmult_1_l. now apply Qnat_le. }
  split.
  - apply Qmult_le_0_compat; [exact H0 | discriminate].
  - apply Qle_trans with (1 * 100)%Q; [| rewrite Qmult_1_l; apply Qle_refl].
    apply Qmult_le_compat_r; [exact H1 | discriminate].
Qed.

(** A rate of 100 % means that nothing failed. *)
Lemma percentage_full (k n : nat) :
  (k <= n)%nat -> (0 < n)%nat -> (Qnat k / Qnat n * 100 == 100)%Q -> k = n.
Proof.
  intros Hk Hn H. pose proof (Qnat_pos n Hn) as Hpos.
  assert (Hne : ~ (Qnat n == 0)%Q) by (intros E; rewrite E in Hpos; discriminate).
  assert (Heq : (Qnat k == Qnat n)%Q).
  { setoid_replace (Qnat k) with (Qnat k / Qnat n * 100 * (Qnat n / 100))%Q
      using relation Qeq by (field; exact Hne).
    rewrite H. field. }
  unfold Qnat, Qeq in Heq. simpl in Heq. lia.
Qed.


(** ** The two phases share the requests *)

Lemma collector_after_phases (calls : list collector_call) :
  let m := collector_after calls in
  MetricsCollector.requests m
  ≡ₚ MetricsCollector.setup_requests m ++ MetricsCollector.runtime_requests m
  /\ sublist (MetricsCollector.setup_requests m) (MetricsCollector.requests m)
  /\ sublist (MetricsCollector.runtime_requests m) (MetricsCollector.requests m).
Proof.
  cbn zeta. induction calls as [|c calls IH] using rev_ind.
  - unfold collector_after. simpl. repeat split; constructor.
  - rewrite collector_after_snoc. destruct c as [metric | phase]; [| exact IH].
    set (m := collector_after calls) in *. destruct IH as (Hperm & Hsetup & Hruntime).
    cbn [apply_call]. unfold MetricsCollector.record.
    cbn [MetricsCollector.requests MetricsCollector.setup_requests
         MetricsCollector.runtime_requests].
    destruct (String.eqb (MetricsCollector.phase m) "setup").
    + split; [| split].
      * rewrite Hperm. rewrite <- !app_assoc. apply Permutation_app_head.
        apply Permutation_app_comm.
      * now apply sublist_app.
      * now apply sublist_inserts_r.
    + split; [| split].
      * rewrite Hperm. now rewrite app_assoc.
      * now apply sublist_inserts_r.
      * now apply sublist_app.
Qed.

(** After any sequence of [record] and [set_phase] calls on a fresh
    collector every request is filed under exactly one phase: the list of
    all requests is a rearrangement of the setup requests followed by the
    runtime requests, each of the two lists keeps the order in which its
    requests were recorded, and the totals and success counts that
    [get_phase_stats] reports for the two phases add up to the collector's
    [total_requests] and [total_success]. *)
Theorem phases_partition_requests (calls : list collector_call) :
  let m := collector_after calls in
  MetricsCollector.requests m
  ≡ₚ MetricsCollector.setup_requests m ++ MetricsCollector.runtime_requests m
  /\ sublist (MetricsCollector.setup_requests m) (MetricsCollector.requests m)
  /\ sublist (MetricsCollector.runtime_requests m) (MetricsCollector.requests m)
  /\ exists setup runtime,
       MetricsCollector.get_phase_stats "setup" m = Ok setup
       /\ MetricsCollector.get_phase_stats "runtime" m = Ok runtime
       /\ MetricsCollector.total_requests m
          = (PhaseStats.total setup + PhaseStats.total runtime)%nat
       /\ MetricsCollector.total_success m
          = (PhaseStats.success setup + PhaseStats.success runtime)%nat
       /\ MetricsCollector.total_failed m
          = (PhaseStats.failed setup + PhaseStats.failed runtime)%nat.
Proof.
  intros m. destruct (collector_after_phases calls) as (Hperm & Hsetup & Hruntime).
  fold m in Hperm, Hsetup, Hruntime.
  split; [exact Hperm |]. split; [exact Hsetup |]. split; [exact Hruntime |].
  destruct (get_phase_stats_ok "setup" m) as (st & Hst & Ht1 & Hs1 & Hf1 & _).
  destruct (get_phase_stats_ok "runtime" m) as (rt & Hrt & Ht2 & Hs2 & Hf2 & _).
  exists st, rt. split; [exact Hst |]. split; [exact Hrt |].
  change (phase_requests "setup" m) with (MetricsCollector.setup_requests m) in *.
  change (phase_requests "runtime" m) with (MetricsCollector.runtime_requests m) in *.
  assert (Hlen : length (MetricsCollector.requests m)
                 = (length (MetricsCollector.setup_requests m)
                    + length (MetricsCollector.runtime_requests m))%nat).
  { rewrite (Permutation_length Hperm). apply length_app. }
  assert (Hcount : MetricsCollector.count_success (MetricsCollector.requests m)
                   = (MetricsCollector.count_success (MetricsCollector.setup_requests m)
                      + MetricsCollector.count_success (MetricsCollector.runtime_requests m))%nat).
  { rewrite <- count_success_app. unfold MetricsCollector.count_success.
    apply Permutation_length. now rewrite Hperm. }
  rewrite total_failed_failures, total_success_count, Ht1, Ht2, Hs1, Hs2, Hf1, Hf2.
  unfold MetricsCollector.total_requests, failures.
  pose proof (count_success_le (MetricsCollector.setup_requests m)).
  pose proof (count_success_le (MetricsCollector.runtime_requests m)).
  repeat split; lia.
Qed.

(** ** When [print_results] has a verdict *)

Lemma print_results_plain (E : Env) (config : Config) (m : MetricsCollector.t) :
  RICH_AVAILABLE E = false ->
  print_results E config m
  = match MetricsCollector.runtime_requests m with
    | [] => Err (KeyError "success_rate")
    | _ =>
        Ok (Qle_bool 95
              (Qnat (MetricsCollector.count_success (MetricsCollector.runtime_requests m))
               / Qnat (length (MetricsCollector.runtime_requests m)) * 100), None)
    end.
Proof.
  intros Hrich. unfold print_results.
  destruct (get_phase_stats_ok "setup" m) as (st & -> & _).
  destruct (get_phase_stats_ok "runtime" m) as (rt & -> & _ & _ & _ & Hrr & _).
  change (phase_requests "runtime" m) with (MetricsCollector.runtime_requests m) in Hrr.
  cbn [rbind]. rewrite Hrich. unfold PhaseStats.get_success_rate. rewrite Hrr.
  destruct (MetricsCollector.runtime_requests m); reflexivity.
Qed.

Lemma print_results_rich_empty (E : Env) (config : Config) (m : MetricsCollector.t) :
  RICH_AVAILABLE E = true ->
  MetricsCollector.setup_requests m = [] \/ MetricsCollector.runtime_requests m = [] ->
  print_results E config m = Err (KeyError "success_rate").
Proof.
  intros Hrich Hempty. unfold print_results.
  destruct (get_phase_stats_ok "setup" m) as (st & -> & _ & _ & _ & Hsr & _).
  destruct (get_phase_stats_ok "runtime" m) as (rt & -> & _ & _ & _ & Hrr & _).
  change (phase_requests "setup" m) with (MetricsCollector.setup_requests m) in Hsr.
  change (phase_requests "runtime" m) with (MetricsCollector.runtime_requests m) in Hrr.
  cbn [rbind]. rewrite Hrich. unfold PhaseStats.get_success_rate. rewrite Hsr, Hrr.
  destruct (MetricsCollector.setup_requests m) as [|r1 l1]; [reflexivity |].
  destruct Hempty as [H | H]; [discriminate |]. rewrite H. reflexivity.
Qed.

Lemma print_results_cases (E : Env) (config : Config) (m : MetricsCollector.t) :
  match print_results E config m with
  | Ok (passed, panel) =>
      MetricsCollector.runtime_requests m <> []
      /\ (RICH_AVAILABLE E = true -> MetricsCollector.setup_requests m <> [])
      /\ (RICH_AVAILABLE E = false ->
          panel = None
          /\ (passed = true <-> (error_rate (MetricsCollector.runtime_requests m) <= 5)%Q))
  | Err e =>
      e = KeyError "success_rate"
      /\ (MetricsCollector.runtime_requests m = []
          \/ (RICH_AVAILABLE E = true /\ MetricsCollector.setup_requests m = []))
  end.
Proof.
  destruct (RICH_AVAILABLE E) eqn:Hrich.
  - destruct (list_eq_nil_dec (MetricsCollector.setup_requests m)) as [Hs | Hs].
    { rewrite print_results_rich_empty by auto. auto. }
    destruct (list_eq_nil_dec (MetricsCollector.runtime_requests m)) as [Hr | Hr].
    { rewrite print_results_rich_empty by auto. auto. }
    destruct (print_results_rich E config m Hrich Hs Hr) as (sr & _ & ->).
    split; [exact Hr |]. split; [auto | discriminate].
  - rewrite print_results_plain by exact Hrich.
    destruct (MetricsCollector.runtime_requests m) as [|r l] eqn:Hr; [auto |].
    rewrite <- Hr. assert (Hne : MetricsCollector.runtime_requests m <> [])
      by (rewrite Hr; discriminate).
    split; [exact Hne |]. split; [discriminate |]. intros _. split; [reflexivity |].
    change (Qle_bool 95) with (Qle_bool (100 - 5)).
    rewrite (Qle_bool_complement (error_rate (MetricsCollector.runtime_requests m)))
      by now apply error_rate_complement.
    apply Qle_bool_iff.
Qed.

(** [print_results] either returns a verdict or raises KeyError on
    'success_rate', and nothing else.  It raises exactly when the runtime
    phase has no request or, with rich, when the setup phase has none.
    Without rich its verdict carries no panel, passes iff the runtime error
    rate is at most 5 %, and is the same for every configuration: neither
    threshold is read. *)
Theorem print_results_verdict_or_keyerror
    (E : Env) (config : Config) (m : MetricsCollector.t) :
  match print_results E config m with
  | Ok (passed, panel) =>
      MetricsCollector.runtime_requests m <> []
      /\ (RICH_AVAILABLE E = true -> MetricsCollector.setup_requests m <> [])
      /\ (RICH_AVAILABLE E = false ->
          panel = None
          /\ (passed = true <-> (error_rate (MetricsCollector.runtime_requests m) <= 5)%Q))
  | Err e =>
      e = KeyError "success_rate"
      /\ (MetricsCollector.runtime_requests m = []
          \/ (RICH_AVAILABLE E = true /\ MetricsCollector.setup_requests m = []))
  end
  /\ (RICH_AVAILABLE E = false ->
      forall config', print_results E config' m = print_results E config m).
Proof.
  split; [apply print_results_cases |].
  intros Hrich config'. now rewrite !print_results_plain.
Qed.

(** Loosening the thresholds never turns a pass into a failure: a collector
    that passes under one configuration passes under every configuration
    whose two thresholds are at least as large. *)
Theorem verdict_monotone_in_thresholds
    (E : Env) (config config' : Config) (m : MetricsCollector.t) (panel : option Panel)
    (Hrate : (max_error_rate_percent config <= max_error_rate_percent config')%Q)
    (Hp95 : (max_p95_latency_ms config <= max_p95_latency_ms config')%Q)
    (Hpass : print_results E config m = Ok (true, panel)) :
  exists panel', print_results E config' m = Ok (true, panel').
Proof.
  destruct (RICH_AVAILABLE E) eqn:Hrich.
  - destruct (list_eq_nil_dec (MetricsCollector.setup_requests m)) as [Hs | Hs].
    { rewrite print_results_rich_empty in Hpass by auto. discriminate. }
    destruct (list_eq_nil_dec (MetricsCollector.runtime_requests m)) as [Hr | Hr].
    { rewrite print_results_rich_empty in Hpass by auto. discriminate. }
    destruct (print_results_rich E config m Hrich Hs Hr) as (sr & _ & H).
    destruct (print_results_rich E config' m Hrich Hs Hr) as (sr' & _ & ->).
    rewrite H in Hpass.
    assert (Hboth : Qle_bool (error_rate (MetricsCollector.runtime_requests m))
                      (max_error_rate_percent config)
                    && Qlt_bool (quantile (95 # 100)
                                   (map RequestMetrics.latency_ms
                                      (MetricsCollector.runtime_requests m)))
                         (max_p95_latency_ms config) = true) by congruence.
    apply andb_prop in Hboth as [H1 H2].
    apply Qle_bool_iff in H1. apply Qlt_bool_iff in H2.
    assert (H1' : Qle_bool (error_rate (MetricsCollector.runtime_requests m))
                    (max_error_rate_percent config') = true).
    { apply Qle_bool_iff. eapply Qle_trans; eassumption. }
    assert (H2' : Qlt_bool (quantile (95 # 100)
                              (map RequestMetrics.latency_ms
                                 (MetricsCollector.runtime_requests m)))
                    (max_p95_latency_ms config') = true).
    { apply Qlt_bool_iff. eapply Qlt_le_trans; eassumption. }
    rewrite H1', H2'. simpl. now eexists.
  - rewrite print_results_plain in * by exact Hrich. now exists panel.
Qed.

Lemma verdict_monotone_in_thresholds_witness :
  exists panel',
    print_results (ok_env true 1) (mkConfig "http://localhost:8080" 2 0 0 1 0 None None 0 10 500)
      (sample_collector 49 1 150)
    = Ok (true, panel').
Proof.
  apply (verdict_monotone_in_thresholds (ok_env true 1) small_config
           (mkConfig "http://localhost:8080" 2 0 0 1 0 None None 0 10 500)
           (sample_collector 49 1 150) (Some (PassedPanel (4900 # 50) 150))).
  - vm_compute. discriminate.
  - vm_compute. discriminate.
  - vm_compute. reflexivity.
Defined.

(** ** Pagination: requests, pages and endless cursors *)

Lemma api_call_sends_one (E : Env) (config : Config) (method endpoint user_id : string)
    (body : option pyval) (expected_status : option (list Z)) (s : State) :
  exists result s',
    api_call E config method endpoint user_id body expected_status s = Done result s'
    /\ length (sent s') = S (length (sent s))
    /\ length (MetricsCollector.requests (metrics s'))
       = S (length (MetricsCollector.requests (metrics s))).
Proof.
  rewrite api_call_unfold.
  destruct (api_call_with_done E
              (transport E (length (sent s)) (request_of config method endpoint user_id body))
              (request_of config method endpoint user_id body)
              method endpoint (default [200%Z] expected_status) s)
    as (result & metric & t & -> & _).
  eexists _, _. split; [reflexivity |].
  cbn [sent metrics set_metrics set_now add_sent MetricsCollector.record
       MetricsCollector.requests].
  rewrite !length_app. simpl. lia.
Qed.

Lemma paginate_counts (get_page : pyval -> M ApiResult.t) :
  one_request get_page ->
  forall (fuel pages : nat) (cursor : pyval) (s : State),
    match paginate get_page fuel pages cursor s with
    | Done n s' => (pages < n <= pages + fuel)%nat /\ grown_by (n - pages) s s'
    | Raised e s' =>
        e = AttributeError "get"
        /\ exists k, (1 <= k <= fuel)%nat /\ grown_by k s s'
    | Pending => True
    end.
Proof.
  intros Hget. induction fuel as [|fuel IH]; intros pages cursor s; [exact I |].
  destruct (Hget cursor s) as (result & s1 & Hpage & Hsent & Hreq).
  cbn [paginate]. unfold bind at 1. rewrite Hpage.
  assert (Hone : grown_by 1 s s1) by (unfold grown_by; lia).
  assert (Hstop : match ret (A := nat) (pages + 1)%nat s1 with
                  | Done n s' => (pages < n <= pages + S fuel)%nat /\ grown_by (n - pages) s s'
                  | Raised e s' =>
                      e = AttributeError "get"
                      /\ exists k, (1 <= k <= S fuel)%nat /\ grown_by k s s'
                  | Pending => True
                  end).
  { unfold ret. split; [lia |]. now replace (pages + 1 - pages)%nat with 1%nat by lia. }
  destruct (negb (ApiResult.success result) || negb (truthy (ApiResult.get_data result)));
    [exact Hstop |].
  unfold bind, next_cursor.
  destruct (ApiResult.get_data result) as [| b | z | q | t | l | d];
    try (unfold raise; split; [reflexivity |]; exists 1%nat; split; [lia | exact Hone]).
  unfold ret at 1.
  destruct (negb (truthy (dict_get "nextCursor" d))); [exact Hstop |].
  specialize (IH (pages + 1)%nat (dict_get "nextCursor" d) s1).
  unfold grown_by in *.
  destruct (paginate get_page fuel (pages + 1) (dict_get "nextCursor" d) s1)
    as [n s' | e s' |]; [| | exact I].
  - destruct IH as (Hn & Hs1 & Hr1). split; [lia |]. split; lia.
  - destruct IH as (He & k & Hk & Hs1 & Hr1). split; [exact He |].
    exists (S k). split; [lia |]. split; lia.
Qed.

Lemma get_timeline_one_request (E : Env) (config : Config) (user_id : string) (limit : nat) :
  one_request (get_timeline E config user_id limit).
Proof. intros cursor s. apply api_call_sends_one. Qed.

Lemma get_user_tweets_one_request (E : Env) (config : Config) (user_id : string)
    (limit : nat) :
  one_request (get_user_tweets E config user_id limit).
Proof. intros cursor s. apply api_call_sends_one. Qed.

(** Whatever the target answers, the number of pages [paginate_timeline]
    and [paginate_tweets] return is the number of requests they have sent
    and recorded, and it is at least 1: the first page is always requested.
    When they end with an exception it is the AttributeError of a payload
    that is no JSON object, raised after at least one request.  ([fuel]
    bounds the iterations the model follows.) *)
Theorem paginate_pages_are_requests
    (E : Env) (config : Config) (fuel : nat) (user_id : string) (limit : nat) (s : State) :
  match paginate_timeline E config fuel user_id limit s with
  | Done pages s' => (1 <= pages <= fuel)%nat /\ grown_by pages s s'
  | Raised e s' =>
      e = AttributeError "get" /\ exists k, (1 <= k <= fuel)%nat /\ grown_by k s s'
  | Pending => True
  end
  /\ match paginate_tweets E config fuel user_id limit s with
     | Done pages s' => (1 <= pages <= fuel)%nat /\ grown_by pages s s'
     | Raised e s' =>
         e = AttributeError "get" /\ exists k, (1 <= k <= fuel)%nat /\ grown_by k s s'
     | Pending => True
     end.
Proof.
  unfold paginate_timeline, paginate_tweets. split.
  - pose proof (paginate_counts _ (get_timeline_one_request E config user_id limit)
                  fuel 0%nat PNone s) as H.
    destruct (paginate (get_timeline E config user_id limit) fuel 0 PNone s)
      as [n s' | e s' |]; [| exact H | exact I].
    destruct H as [Hn Hg]. rewrite Nat.sub_0_r in Hg. split; [lia | exact Hg].
  - pose proof (paginate_counts _ (get_user_tweets_one_request E config user_id limit)
                  fuel 0%nat PNone s) as H.
    destruct (paginate (get_user_tweets E config user_id limit) fuel 0 PNone s)
      as [n s' | e s' |]; [| exact H | exact I].
    destruct H as [Hn Hg]. rewrite Nat.sub_0_r in Hg. split; [lia | exact Hg].
Qed.

(** A getter whose every response is successful and carries a next cursor. *)
Lemma paginate_pending (get_page : pyval -> M ApiResult.t) :
  (forall cursor s, exists result s' d,
      get_page cursor s = Done result s'
      /\ ApiResult.success result = true
      /\ ApiResult.get_data result = PDict d
      /\ truthy (dict_get "nextCursor" d) = true) ->
  forall (fuel pages : nat) (cursor : pyval) (s : State),
    paginate get_page fuel pages cursor s = Pending.
Proof.
  intros Hget. induction fuel as [|fuel IH]; intros pages cursor s; [reflexivity |].
  destruct (Hget cursor s) as (result & s1 & d & Hpage & Hsucc & Hdata & Hcur).
  cbn [paginate]. unfold bind at 1. rewrite Hpage, Hsucc, Hdata.
  assert (Hd : truthy (PDict d) = true) by (destruct d; [discriminate | reflexivity]).
  rewrite Hd. cbn [negb orb]. unfold bind, next_cursor, ret. rewrite Hcur. cbn [negb].
  apply IH.
Qed.

Lemma api_call_endless (E : Env) (config : Config) (endpoint user_id : string) (s : State) :
  (forall n r, exists d,
      answer (transport E n r) = Responds 200%Z (BodyJson (PDict d))
      /\ truthy (dict_get "nextCursor" d) = true) ->
  exists result s' d,
    api_call E config "GET" endpoint user_id None (Some [200%Z]) s = Done result s'
    /\ ApiResult.success result = true
    /\ ApiResult.get_data result = PDict d
    /\ truthy (dict_get "nextCursor" d) = true.
Proof.
  intros Hcursor. rewrite api_call_unfold.
  destruct (Hcursor (length (sent s)) (request_of config "GET" endpoint user_id None))
    as (d & Hanswer & Hcur).
  destruct (api_call_with_done E
              (transport E (length (sent s)) (request_of config "GET" endpoint user_id None))
              (request_of config "GET" endpoint user_id None)
              "GET" endpoint (default [200%Z] (Some [200%Z])) s)
    as (result & metric & t & -> & _ & _ & _ & Hres & _ & Hcase).
  rewrite Hanswer in Hcase. destruct Hcase as (Hsucc & _ & Hdata).
  eexists _, _, d. split; [reflexivity |]. split; [now rewrite Hres, Hsucc |].
  split; [| exact Hcur]. unfold ApiResult.get_data. now rewrite Hdata.
Qed.

(** The pagination loop has no page limit: against a target whose every
    response is a 200 with a JSON object carrying a non-empty nextCursor,
    [paginate_timeline] and [paginate_tweets] never return, however many
    iterations are followed. *)
Theorem paginate_never_returns
    (E : Env) (config : Config) (user_id : string) (limit fuel : nat) (s : State)
    (Hcursor : forall n r, exists d,
        answer (transport E n r) = Responds 200%Z (BodyJson (PDict d))
        /\ truthy (dict_get "nextCursor" d) = true) :
  paginate_timeline E config fuel user_id limit s = Pending
  /\ paginate_tweets E config fuel user_id limit s = Pending.
Proof.
  unfold paginate_timeline, paginate_tweets.
  split; apply paginate_pending; intros cursor s0; now apply api_call_endless.
Qed.

(** Against the endpoint whose every response carries the cursor "a", a
    thousand iterations do not end the loop. *)
Lemma paginate_never_returns_witness :
  paginate_timeline endless_env small_config 1000 (demo_uuid 0) 10 init_state = Pending
  /\ paginate_tweets endless_env small_config 1000 (demo_uuid 0) 10 init_state = Pending.
Proof.
  apply (paginate_never_returns endless_env small_config (demo_uuid 0) 10 1000 init_state).
  intros n r. exists [("nextCursor", PStr "a")]. split; reflexivity.
Defined.

(** ** The bucket of every operation *)

Lemma starts_with_eq (p s : string) :
  starts_with p s = true -> String.length p = String.length s -> p = s.
Proof.
  revert s. induction p as [|a p IH]; intros [|b s] H Hlen; simpl in *;
    try reflexivity; try discriminate.
  destruct (Ascii.eqb_spec a b) as [-> | _]; [| discriminate].
  f_equal. apply IH; [exact H | lia].
Qed.

(** Replacing in a string as long as the pattern: all of it or nothing. *)
Lemma py_replace_from_same_length (old new s : string) :
  old <> "" -> String.length s = String.length old ->
  py_replace_from old new 0 s = if String.eqb old s then new else s.
Proof.
  intros Hne Hlen. destruct (String.eqb_spec old s) as [<- | Hdiff].
  - now apply py_replace_from_self.
  - destruct s as [|c s]; [destruct old; [congruence | discriminate] |].
    cbn [py_replace_from].
    destruct (starts_with old (String c s)) eqn:Hst.
    + apply starts_with_eq in Hst; [congruence | now symmetry].
    + rewrite py_replace_from_shorter; [reflexivity | simpl in Hlen; lia].
Qed.

Section BucketPaths.

Variable uuid_ok : string -> bool.

Hypothesis uuid_ok_length : forall s, uuid_ok s = true -> (32 <= String.length s)%nat.
Hypothesis uuid_ok_canonical : forall s, uuid_canonical s = true -> uuid_ok s = true.

Lemma uuid_ok_short (s : string) : (String.length s < 32)%nat -> uuid_ok s = false.
Proof.
  intros Hs. destruct (uuid_ok s) eqn:H; [| reflexivity].
  apply uuid_ok_length in H. lia.
Qed.

(** The key of a path given by its segments, none of which holds "?". *)
Lemma normalize_endpoint_path (segments : list string) (query : string) :
  segments <> [] ->
  Forall (fun seg => has_char "/" seg = false) segments ->
  Forall (fun seg => has_char "?" seg = false) segments ->
  normalize_endpoint uuid_ok (py_join "/" segments) 
  = fold_left (normalize_step uuid_ok) segments (py_join "/" segments)
  /\ normalize_endpoint uuid_ok (py_join "/" segments +:+ String "?" query)
     = fold_left (normalize_step uuid_ok) segments (py_join "/" segments).
Proof.
  intros Hne Hslash Hq.
  assert (Hjoin : has_char "?" (py_join "/" segments) = false)
    by (apply has_char_py_join; [reflexivity | exact Hq]).
  unfold normalize_endpoint. fold (normalize_step uuid_ok).
  rewrite (py_split_none "?") by exact Hjoin.
  rewrite py_split_append_sep by exact Hjoin.
  cbn [hd]. now rewrite py_split_join.
Qed.

Lemma user_path_key (a what : string) :
  uuid_canonical a = true -> (String.length what < 32)%nat ->
  has_char "/" what = false -> has_char "?" what = false ->
  fold_left (normalize_step uuid_ok) [""; "api"; "v1"; "users"; a; what]
    (py_join "/" [""; "api"; "v1"; "users"; a; what])
  = "/api/v1/users/{id}/" +:+ what.
Proof.
  intros Ha Hwhat _ _.
  pose proof (uuid_ok_canonical a Ha) as Hok.
  pose proof (uuid_ok_length a Hok) as Hlen.
  assert (Hne : a <> "") by (intros ->; simpl in Hlen; lia).
  cbn [fold_left]. unfold normalize_step.
  rewrite (uuid_ok_short ""), (uuid_ok_short "api"), (uuid_ok_short "v1"),
    (uuid_ok_short "users"), (uuid_ok_short what), Hok by (simpl; lia).
  rewrite py_replace_nonempty by exact Hne.
  rewrite py_replace_from_join
    by (exact Hne || apply (proj1 (uuid_canonical_separators a Ha))).
  cbn [map]. rewrite py_replace_from_self by exact Hne.
  rewrite !py_replace_from_shorter by (simpl; lia).
  reflexivity.
Qed.

Lemma follow_path_key (a b : string) :
  uuid_canonical a = true -> uuid_canonical b = true ->
  fold_left (normalize_step uuid_ok) [""; "api"; "v1"; "users"; a; "follow"; b]
    (py_join "/" [""; "api"; "v1"; "users"; a; "follow"; b])
  = "/api/v1/users/{id}/follow/{id}".
Proof.
  intros Ha Hb.
  pose proof (uuid_ok_canonical a Ha) as Hoka.
  pose proof (uuid_ok_canonical b Hb) as Hokb.
  pose proof (uuid_ok_length a Hoka) as Hlena.
  pose proof (uuid_ok_length b Hokb) as Hlenb.
  assert (Hsame : String.length b = String.length a).
  { apply canonical_from_length in Ha, Hb. lia. }
  assert (Hnea : a <> "") by (intros ->; simpl in Hlena; lia).
  assert (Hneb : b <> "") by (intros ->; simpl in Hlenb; lia).
  cbn [fold_left]. unfold normalize_step.
  rewrite (uuid_ok_short ""), (uuid_ok_short "api"), (uuid_ok_short "v1"),
    (uuid_ok_short "users"), (uuid_ok_short "follow"), Hoka, Hokb by (simpl; lia).
  rewrite (py_replace_nonempty a), (py_replace_nonempty b) by assumption.
  rewrite (py_replace_from_join a)
    by (exact Hnea || apply (proj1 (uuid_canonical_separators a Ha))).
  cbn [map]. rewrite py_replace_from_self by exact Hnea.
  rewrite !(py_replace_from_shorter a) by (simpl; lia).
  rewrite (py_replace_from_same_length a "{id}" b) by assumption.
  rewrite (py_replace_from_join b)
    by (exact Hneb || apply (proj1 (uuid_canonical_separators b Hb))).
  destruct (String.eqb a b); cbn [map];
    rewrite ?py_replace_from_self by exact Hneb;
    rewrite !(py_replace_from_shorter b) by (simpl; lia); reflexivity.
Qed.

End BucketPaths.

Lemma api_call_bucket_key (E : Env) (config : Config) (method endpoint user_id : string)
    (body : option pyval) (expected_status : option (list Z)) (s : State) :
  exists result metric s',
    api_call E config method endpoint user_id body expected_status s = Done result s'
    /\ MetricsCollector.requests (metrics s')
       = MetricsCollector.requests (metrics s) ++ [metric]
    /\ MetricsCollector.bucket_key metric
       = method +:+ " " +:+ normalize_endpoint (uuid_ok E) endpoint.
Proof.
  rewrite api_call_unfold.
  destruct (api_call_with_done E
              (transport E (length (sent s)) (request_of config method endpoint user_id body))
              (request_of config method endpoint user_id body)
              method endpoint (default [200%Z] expected_status) s)
    as (result & metric & t & -> & Hep & Hm & _).
  exists result, metric. eexists. split; [reflexivity |]. split; [reflexivity |].
  unfold MetricsCollector.bucket_key. now rewrite Hep, Hm.
Qed.

Lemma page_url_query (E : Env) (user_id what : string) (limit : nat) (cursor : pyval) :
  exists query,
    page_url E user_id what limit cursor
    = ("/api/v1/users/" +:+ user_id +:+ what) +:+ String "?" query.
Proof.
  unfold page_url. destruct (truthy cursor); eexists; rewrite <- !append_assoc.
  - rewrite !append_assoc. simpl. reflexivity.
  - rewrite !append_assoc. simpl. reflexivity.
Qed.

Lemma followers_url_query (user_id what : string) (query : string) :
  "/api/v1/users/" +:+ user_id +:+ what +:+ String "?" query
  = ("/api/v1/users/" +:+ user_id +:+ what) +:+ String "?" query.
Proof. now rewrite !append_assoc. Qed.

(** With identifiers in the text form of [str(uuid.uuid4())], which
    [uuid.UUID] accepts (while it accepts nothing shorter than 32
    characters), every operation files its request in one bucket that
    depends on the operation alone, not on the users, the page size or the
    cursor: the seven rows of the endpoint table. *)
Theorem operations_bucket_keys
    (E : Env) (config : Config) (a b content : string) (limit : nat) (cursor : pyval)
    (s : State)
    (uuid_ok_length : forall t, uuid_ok E t = true -> (32 <= String.length t)%nat)
    (uuid_ok_canonical : forall t, uuid_canonical t = true -> uuid_ok E t = true)
    (Ha : uuid_canonical a = true) (Hb : uuid_canonical b = true) :
  recorded_under (create_tweet E config a content) s "POST /api/v1/tweets"
  /\ recorded_under (follow_user E config a b) s "POST /api/v1/users/{id}/follow/{id}"
  /\ recorded_under (unfollow_user E config a b) s "DELETE /api/v1/users/{id}/follow/{id}"
  /\ recorded_under (get_timeline E config a limit cursor) s
       "GET /api/v1/users/{id}/timeline"
  /\ recorded_under (get_user_tweets E config a limit cursor) s
       "GET /api/v1/users/{id}/tweets"
  /\ recorded_under (get_followers E config a) s "GET /api/v1/users/{id}/followers"
  /\ recorded_under (get_following E config a) s "GET /api/v1/users/{id}/following".
Proof.
  assert (Hcall : forall method endpoint user_id body expected key,
            method +:+ " " +:+ normalize_endpoint (uuid_ok E) endpoint = key ->
            recorded_under (api_call E config method endpoint user_id body expected) s key).
  { intros method endpoint user_id body expected key <-. apply api_call_bucket_key. }
  assert (Huser : forall what query,
            (String.length what < 32)%nat ->
            has_char "/" what = false -> has_char "?" what = false ->
            normalize_endpoint (uuid_ok E)
              (("/api/v1/users/" +:+ a +:+ String "/" what) +:+ String "?" query)
            = "/api/v1/users/{id}/" +:+ what).
  { intros what query Hlen Hslash Hq.
    destruct (uuid_canonical_separators a Ha) as [Ha1 Ha2].
    change ("/api/v1/users/" +:+ a +:+ String "/" what)
      with (py_join "/" [""; "api"; "v1"; "users"; a; what]).
    destruct (normalize_endpoint_path (uuid_ok E) [""; "api"; "v1"; "users"; a; what] query)
      as [_ ->]; [discriminate | repeat constructor; assumption
                  | repeat constructor; assumption |].
    now apply user_path_key. }
  assert (Hfollow : normalize_endpoint (uuid_ok E)
                      ("/api/v1/users/" +:+ a +:+ "/follow/" +:+ b)
                    = "/api/v1/users/{id}/follow/{id}").
  { destruct (uuid_canonical_separators a Ha) as [Ha1 Ha2].
    destruct (uuid_canonical_separators b Hb) as [Hb1 Hb2].
    change ("/api/v1/users/" +:+ a +:+ "/follow/" +:+ b)
      with (py_join "/" [""; "api"; "v1"; "users"; a; "follow"; b]).
    destruct (normalize_endpoint_path (uuid_ok E)
                [""; "api"; "v1"; "users"; a; "follow"; b] "")
      as [-> _]; [discriminate | repeat constructor; assumption
                  | repeat constructor; assumption |].
    now apply follow_path_key. }
  split; [| split; [| split; [| split; [| split; [| split]]]]].
  - apply Hcall. f_equal. f_equal.
    change "/api/v1/tweets" with (py_join "/" [""; "api"; "v1"; "tweets"]) at 1.
    destruct (normalize_endpoint_path (uuid_ok E) [""; "api"; "v1"; "tweets"] "")
      as [-> _]; [discriminate | repeat constructor | repeat constructor |].
    cbn [fold_left]. unfold normalize_step.
    rewrite (uuid_ok_short _ uuid_ok_length ""), (uuid_ok_short _ uuid_ok_length "api"),
      (uuid_ok_short _ uuid_ok_length "v1"), (uuid_ok_short _ uuid_ok_length "tweets")
      by (simpl; lia).
    reflexivity.
  - apply Hcall. now rewrite Hfollow.
  - apply Hcall. now rewrite Hfollow.
  - apply Hcall. destruct (page_url_query E a "/timeline" limit cursor) as [query ->].
    now rewrite (Huser "timeline" query) by (reflexivity || (simpl; lia)).
  - apply Hcall. destruct (page_url_query E a "/tweets" limit cursor) as [query ->].
    now rewrite (Huser "tweets" query) by (reflexivity || (simpl; lia)).
  - apply Hcall.
    change ("/api/v1/users/" +:+ a +:+ "/followers?limit=" +:+ str_nat 20)
      with ("/api/v1/users/" +:+ a +:+ "/followers" +:+ String "?" ("limit=" +:+ str_nat 20)).
    rewrite (followers_url_query a "/followers" ("limit=" +:+ str_nat 20)).
    now rewrite (Huser "followers") by (reflexivity || (simpl; lia)).
  - apply Hcall.
    change ("/api/v1/users/" +:+ a +:+ "/following?limit=" +:+ str_nat 20)
      with ("/api/v1/users/" +:+ a +:+ "/following" +:+ String "?" ("limit=" +:+ str_nat 20)).
    rewrite (followers_url_query a "/following" ("limit=" +:+ str_nat 20)).
    now rewrite (Huser "following") by (reflexivity || (simpl; lia)).
Qed.

(** The seven operations of the user 00000000-... in the example
    environment, whose identifier check is the canonical text form. *)
Lemma operations_bucket_keys_witness :
  recorded_under (create_tweet (ok_env true 1) small_config (demo_uuid 0) "hello")
    init_state "POST /api/v1/tweets"
  /\ recorded_under (follow_user (ok_env true 1) small_config (demo_uuid 0) (demo_uuid 1))
       init_state "POST /api/v1/users/{id}/follow/{id}"
  /\ recorded_under (unfollow_user (ok_env true 1) small_config (demo_uuid 0) (demo_uuid 1))
       init_state "DELETE /api/v1/users/{id}/follow/{id}"
  /\ recorded_under (get_timeline (ok_env true 1) small_config (demo_uuid 0) 10 (PStr "a"))
       init_state "GET /api/v1/users/{id}/timeline"
  /\ recorded_under (get_user_tweets (ok_env true 1) small_config (demo_uuid 0) 10 (PStr "a"))
       init_state "GET /api/v1/users/{id}/tweets"
  /\ recorded_under (get_followers (ok_env true 1) small_config (demo_uuid 0))
       init_state "GET /api/v1/users/{id}/followers"
  /\ recorded_under (get_following (ok_env true 1) small_config (demo_uuid 0))
       init_state "GET /api/v1/users/{id}/following".
Proof.
  apply (operations_bucket_keys (ok_env true 1) small_config (demo_uuid 0) (demo_uuid 1)
           "hello" 10 (PStr "a") init_state).
  - exact uuid_canonical_length.
  - intros t Ht. exact Ht.
  - reflexivity.
  - reflexivity.
Defined.

(** ** Reasoning about coroutines whatever their outcome *)

Lemma ensures_ret {A : Type} (P : State -> Prop) (a : A) : ensures P (ret a) P.
Proof. intros s Hs. exact Hs. Qed.

Lemma ensures_raise {A : Type} (P : State -> Prop) (e : exn) : ensures P (raise (A := A) e) P.
Proof. intros s Hs. exact Hs. Qed.

Lemma ensures_bind {A B : Type} (P Q R : State -> Prop) (c : M A) (k : A -> M B) :
  ensures P c Q -> (forall s, Q s -> R s) -> (forall a, ensures Q (k a) R) ->
  ensures P (bind c k) R.
Proof.
  intros Hc HQ Hk s Hs. specialize (Hc s Hs). unfold bind.
  destruct (c s) as [a s1 | e s1 |]; [now apply Hk | now apply HQ | exact I].
Qed.

Lemma ensures_seq {A B : Type} (J : State -> Prop) (c : M A) (k : A -> M B) :
  ensures J c J -> (forall a, ensures J (k a) J) -> ensures J (bind c k) J.
Proof. intros Hc Hk. apply (ensures_bind J J J); auto. Qed.

Lemma ensures_get_state {B : Type} (J : State -> Prop) (k : State -> M B) :
  (forall s0, ensures J (k s0) J) -> ensures J (bind get_state k) J.
Proof. intros Hk s Hs. unfold bind, get_state. now apply Hk. Qed.

Lemma ensures_modify (P Q : State -> Prop) (f : State -> State) :
  (forall s, P s -> Q (f s)) -> ensures P (modify f) Q.
Proof. intros H s Hs. now apply H. Qed.

Lemma ensures_for_each {A : Type} (J : State -> Prop) (l : list A) (f : A -> M unit) :
  (forall x, ensures J (f x) J) -> ensures J (for_each l f) J.
Proof.
  intros Hf. induction l as [|x l IH]; [apply ensures_ret |].
  cbn [for_each]. apply ensures_seq; [apply Hf | intros _; exact IH].
Qed.

Lemma ensures_collect {A B : Type} (J : State -> Prop) (l : list A) (f : A -> M (list B)) :
  (forall x, ensures J (f x) J) -> ensures J (collect l f) J.
Proof.
  intros Hf. induction l as [|x l IH]; [apply ensures_ret |].
  cbn [collect]. apply ensures_seq; [apply Hf | intros ys].
  apply ensures_seq; [exact IH | intros zs; apply ensures_ret].
Qed.

Lemma ensures_triple {A : Type} (P : State -> Prop) (c : M A) (Q : State -> Prop) :
  triple P c (fun _ => Q) -> ensures P c Q.
Proof. intros Hc s Hs. destruct (Hc s Hs) as (a & s' & -> & Hq). exact Hq. Qed.

(** What a dispatched call does to the state. *)
Lemma api_call_outcome (E : Env) (config : Config) (method endpoint user_id : string)
    (body : option pyval) (expected_status : option (list Z)) (s : State) :
  exists result metric t,
    api_call E config method endpoint user_id body expected_status s
    = Done result
        (set_metrics (MetricsCollector.record metric)
           (set_now t (add_sent (request_of config method endpoint user_id body) s)))
    /\ outcome_of E config (request_of config method endpoint user_id body) metric.
Proof.
  rewrite api_call_unfold.
  destruct (api_call_with_done E
              (transport E (length (sent s)) (request_of config method endpoint user_id body))
              (request_of config method endpoint user_id body)
              method endpoint (default [200%Z] expected_status) s)
    as (result & metric & t & -> & Hep & Hm & _).
  exists result, metric, t. split; [reflexivity |].
  split; [exact Hm |]. exists endpoint. split; [reflexivity | exact Hep].
Qed.

Section Stable.

Context (E : Env) (config : Config) (J : State -> Prop).
Hypothesis J_stable : stable E config J.

Lemma ensures_api_call (method endpoint user_id : string) (body : option pyval)
    (expected_status : option (list Z)) :
  ensures J (api_call E config method endpoint user_id body expected_status) J.
Proof.
  intros s Hs.
  destruct (api_call_outcome E config method endpoint user_id body expected_status s)
    as (result & metric & t & -> & Hout).
  now apply (proj2 J_stable).
Qed.

Lemma ensures_bookkeeping (f : State -> State) :
  (forall s, metrics (f s) = metrics s /\ sent (f s) = sent s) -> ensures J (modify f) J.
Proof.
  intros Hf. apply ensures_modify. intros s Hs.
  destruct (Hf s) as [Hm Hsent]. exact (proj1 J_stable s (f s) Hm Hsent Hs).
Qed.

Lemma ensures_fresh_uuid : ensures J (fresh_uuid E) J.
Proof. intros s Hs. unfold fresh_uuid. now apply (proj1 J_stable s). Qed.

Lemma ensures_next_random : ensures J next_random J.
Proof. intros s Hs. unfold next_random. now apply (proj1 J_stable s). Qed.

Lemma ensures_sleep (seconds : Q) : ensures J (sleep seconds) J.
Proof. apply ensures_bookkeeping. intros s. now split. Qed.

Lemma ensures_paginate (get_page : pyval -> M ApiResult.t) :
  (forall cursor, ensures J (get_page cursor) J) ->
  forall (fuel pages : nat) (cursor : pyval),
    ensures J (paginate get_page fuel pages cursor) J.
Proof.
  intros Hget. induction fuel as [|fuel IH]; intros pages cursor; [intros s _; exact I |].
  cbn [paginate]. apply ensures_seq; [apply Hget | intros result].
  destruct (negb (ApiResult.success result) || negb (truthy (ApiResult.get_data result)));
    [apply ensures_ret |].
  apply ensures_seq.
  - unfold next_cursor. destruct (ApiResult.get_data result);
      apply ensures_raise || apply ensures_ret.
  - intros c. destruct (negb (truthy c)); [apply ensures_ret | apply IH].
Qed.

Ltac keeps_step :=
  cbn beta;
  lazymatch goal with
  | |- ensures _ (ret _) _ => apply ensures_ret
  | |- ensures _ (raise _) _ => apply ensures_raise
  | |- ensures _ (api_call _ _ _ _ _ _ _) _ => apply ensures_api_call
  | |- ensures _ (fresh_uuid _) _ => apply ensures_fresh_uuid
  | |- ensures _ next_random _ => apply ensures_next_random
  | |- ensures _ (sleep _) _ => apply ensures_sleep
  | |- ensures _ (modify _) _ => apply ensures_bookkeeping; intros ?; now split
  | |- ensures _ (bind get_state _) _ => apply ensures_get_state; intros ?
  | |- ensures _ (bind _ _) _ => apply ensures_seq; [| intros ?]
  | |- ensures _ (for_each _ _) _ => apply ensures_for_each; intros ?
  | |- ensures _ (collect _ _) _ => apply ensures_collect; intros ?
  | |- ensures _ (paginate _ _ _ _) _ => apply ensures_paginate; intros ?
  end.

Lemma ensures_create_tweet (user_id content : string) :
  ensures J (create_tweet E config user_id content) J.
Proof. unfold create_tweet. apply ensures_api_call. Qed.

Lemma ensures_follow_user (a b : string) : ensures J (follow_user E config a b) J.
Proof. unfold follow_user. apply ensures_api_call. Qed.

Lemma ensures_unfollow_user (a b : string) : ensures J (unfollow_user E config a b) J.
Proof. unfold unfollow_user. apply ensures_api_call. Qed.

Lemma ensures_paginate_timeline (fuel : nat) (user_id : string) (limit : nat) :
  ensures J (paginate_timeline E config fuel user_id limit) J.
Proof.
  unfold paginate_timeline. apply ensures_paginate. intros cursor.
  unfold get_timeline. apply ensures_api_call.
Qed.

Lemma ensures_paginate_tweets (fuel : nat) (user_id : string) (limit : nat) :
  ensures J (paginate_tweets E config fuel user_id limit) J.
Proof.
  unfold paginate_tweets. apply ensures_paginate. intros cursor.
  unfold get_user_tweets. apply ensures_api_call.
Qed.

Lemma ensures_draw_followers (celeb : string) (n : nat) :
  ensures J (draw_followers E celeb n) J.
Proof.
  induction n as [|n IH]; [apply ensures_ret |].
  cbn [draw_followers].
  apply ensures_seq; [apply ensures_fresh_uuid | intros follower_id].
  apply ensures_seq; [apply ensures_bookkeeping; intros s; now split | intros _].
  apply ensures_seq; [exact IH | intros tasks; apply ensures_ret].
Qed.

Lemma ensures_phase_create_users : ensures J (phase_create_users E config) J.
Proof.
  unfold phase_create_users. repeat keeps_step; apply ensures_create_tweet.
Qed.

Lemma ensures_phase_build_celebrity_followers :
  ensures J (phase_build_celebrity_followers E config) J.
Proof.
  unfold phase_build_celebrity_followers.
  apply ensures_get_state. intros s0. apply ensures_seq.
  { apply ensures_collect. intros celeb. apply ensures_draw_followers. }
  intros tasks. apply ensures_for_each. intros [follower_id celeb].
  apply ensures_seq; [apply ensures_follow_user | intros _; apply ensures_ret].
Qed.

Lemma ensures_phase_build_social_graph : ensures J (phase_build_social_graph E config) J.
Proof.
  unfold phase_build_social_graph. repeat keeps_step.
  destruct x as [user target].
  apply ensures_seq; [apply ensures_follow_user | intros _; apply ensures_ret].
Qed.

Lemma ensures_phase_create_tweets : ensures J (phase_create_tweets E config) J.
Proof.
  unfold phase_create_tweets. repeat keeps_step.
  destruct x as [user content].
  apply ensures_seq; [apply ensures_create_tweet | intros _; apply ensures_ret].
Qed.

Lemma ensures_phase_read_timelines (fuel : nat) :
  ensures J (phase_read_timelines E config fuel) J.
Proof.
  unfold phase_read_timelines. apply ensures_get_state. intros s0.
  apply ensures_for_each. intros user.
  apply ensures_seq; [apply ensures_paginate_timeline | intros _; apply ensures_ret].
Qed.

Lemma ensures_phase_check_profiles (fuel : nat) :
  ensures J (phase_check_profiles E config fuel) J.
Proof.
  unfold phase_check_profiles. apply ensures_get_state. intros s0.
  apply ensures_for_each. intros user.
  apply ensures_seq; [apply ensures_paginate_tweets | intros _].
  apply ensures_seq; [unfold get_followers; apply ensures_api_call | intros _].
  apply ensures_seq; [unfold get_following; apply ensures_api_call | intros _].
  apply ensures_ret.
Qed.

Lemma ensures_phase_unfollow_some : ensures J (phase_unfollow_some E config) J.
Proof.
  unfold phase_unfollow_some. apply ensures_get_state. intros s0.
  apply ensures_for_each. intros user. apply ensures_get_state. intros s1.
  apply ensures_for_each. intros i.
  destruct (index _ i) as [followee | e]; [| apply ensures_raise].
  apply ensures_seq; [apply ensures_unfollow_user | intros _; apply ensures_ret].
Qed.

Lemma ensures_mixed_user_activity (fuel : nat) (user : string) (round_num : nat) :
  ensures J (mixed_user_activity E config fuel user round_num) J.
Proof.
  unfold mixed_user_activity.
  apply ensures_seq; [apply ensures_fresh_uuid | intros u].
  apply ensures_seq; [apply ensures_create_tweet | intros _].
  apply ensures_get_state. intros s0.
  apply ensures_seq.
  { destruct (filter _ (regular_users s0)) as [|target others]; [apply ensures_ret |].
    apply ensures_seq; [apply ensures_next_random | intros n].
    apply ensures_seq; [apply ensures_follow_user | intros _; apply ensures_ret]. }
  intros _.
  apply ensures_seq; [apply ensures_paginate_timeline | intros _; apply ensures_ret].
Qed.

Lemma ensures_phase_mixed_activity (fuel : nat) :
  ensures J (phase_mixed_activity E config fuel) J.
Proof.
  unfold phase_mixed_activity. apply ensures_get_state. intros s0.
  apply ensures_for_each. intros [user round_num]. apply ensures_mixed_user_activity.
Qed.

(** The runtime phases and the end of [run], from the switch to "runtime" on. *)
Lemma ensures_runtime (fuel : nat) :
  (forall s t, J s -> J (set_metrics (MetricsCollector.set_end_time t) s)) ->
  ensures J
    (phase_create_tweets E config ;;;
     sleep (delay_after_writes_ms config / 1000) ;;;
     phase_read_timelines E config fuel ;;;
     phase_check_profiles E config fuel ;;;
     phase_unfollow_some E config ;;;
     phase_mixed_activity E config fuel ;;;
     modify (fun s => set_metrics (MetricsCollector.set_end_time (now s)) s) ;;;
     let! s := get_state in
     match print_results E config (metrics s) with
     | Ok (passed, _) => ret passed
     | Err e => raise e
     end) J.
Proof.
  intros Hend.
  apply ensures_seq; [apply ensures_phase_create_tweets | intros _].
  apply ensures_seq; [apply ensures_sleep | intros _].
  apply ensures_seq; [apply ensures_phase_read_timelines | intros _].
  apply ensures_seq; [apply ensures_phase_check_profiles | intros _].
  apply ensures_seq; [apply ensures_phase_unfollow_some | intros _].
  apply ensures_seq; [apply ensures_phase_mixed_activity | intros _].
  apply ensures_seq; [apply ensures_modify; intros s Hs; now apply Hend | intros _].
  apply ensures_get_state. intros s0.
  destruct (print_results E config (metrics s0)) as [[passed panel] | e];
    [apply ensures_ret | apply ensures_raise].
Qed.

End Stable.

Lemma ensures_pre {A : Type} (P P' Q : State -> Prop) (c : M A) :
  (forall s, P' s -> P s) -> ensures P c Q -> ensures P' c Q.
Proof. intros HP Hc s Hs. apply Hc. now apply HP. Qed.

(** ** Every request sent is recorded *)

Lemma same_log_record (m m' : MetricsCollector.t) (metric : RequestMetrics.t) :
  same_log m m' ->
  same_log (MetricsCollector.record metric m) (MetricsCollector.record metric m').
Proof.
  intros (Hreq & Hby & Hphase & Hsetup & Hruntime).
  unfold same_log, MetricsCollector.record.
  cbn [MetricsCollector.requests MetricsCollector.by_endpoint MetricsCollector.phase
       MetricsCollector.setup_requests MetricsCollector.runtime_requests].
  rewrite Hreq, Hby, Hphase, Hsetup, Hruntime. repeat split; reflexivity.
Qed.

Lemma log_consistent_init (E : Env) (config : Config) : log_consistent E config init_state.
Proof.
  unfold log_consistent. simpl. split; [constructor |]. split; [reflexivity |].
  split; [reflexivity |]. exists []. repeat split; reflexivity.
Qed.

Lemma log_consistent_stable (E : Env) (config : Config) :
  stable E config (log_consistent E config).
Proof.
  split.
  - intros s s' Hm Hsent. unfold log_consistent. now rewrite Hm, Hsent.
  - intros s metric t request Hout (Hall & Horder & Hsetup & calls & Hlog).
    unfold log_consistent. cbn [metrics sent set_metrics set_now add_sent].
    split; [| split; [| split]].
    + cbn [MetricsCollector.record MetricsCollector.requests].
      apply Forall2_app; [exact Hall |]. constructor; [exact Hout | constructor].
    + unfold MetricsCollector.record.
      cbn [MetricsCollector.requests MetricsCollector.setup_requests
           MetricsCollector.runtime_requests].
      rewrite Horder.
      destruct (String.eqb_spec (MetricsCollector.phase (metrics s)) "setup") as [Hp | Hp].
      * rewrite (Hsetup Hp). now rewrite !app_nil_r.
      * now rewrite app_assoc.
    + unfold MetricsCollector.record.
      cbn [MetricsCollector.phase MetricsCollector.runtime_requests].
      intros Hp. rewrite Hp. simpl. now apply Hsetup.
    + exists (calls ++ [CallRecord metric]). rewrite collector_after_snoc.
      now apply same_log_record.
Qed.

Lemma log_consistent_set_phase (E : Env) (config : Config) (s : State) :
  log_consistent E config s ->
  log_consistent E config (set_metrics (MetricsCollector.set_phase "runtime") s).
Proof.
  intros (Hall & Horder & Hsetup & calls & Hreq & Hby & Hphase & Hs & Hr).
  unfold log_consistent. cbn [metrics sent set_metrics].
  split; [exact Hall |]. split; [exact Horder |]. split; [discriminate |].
  exists (calls ++ [CallSetPhase "runtime"]). rewrite collector_after_snoc.
  unfold same_log. simpl. auto.
Qed.

Lemma log_consistent_set_end_time (E : Env) (config : Config) (s : State) (t : Q) :
  log_consistent E config s ->
  log_consistent E config (set_metrics (MetricsCollector.set_end_time t) s).
Proof. intros H. exact H. Qed.

(** Whatever the target answers, when a run returns its verdict every
    request sent has been recorded exactly once: the recorded metrics are,
    in some order, the outcomes of the requests sent (same method, the path
    the bucket path of the endpoint requested).  The order is left open:
    tasks that are gathered record as they complete.  When a run ends with
    an exception, no more metrics are recorded than requests were sent.
    Either way all setup requests come before all runtime requests, and the
    collector is one that [record] and [set_phase] calls produce from a
    fresh one, up to its start and end times. *)
Theorem run_records_every_request (E : Env) (config : Config) (fuel : nat) :
  match run E config fuel init_state with
  | Done _ s' =>
      (exists outcomes,
         Permutation outcomes (MetricsCollector.requests (metrics s'))
         /\ Forall2 (outcome_of E config) (sent s') outcomes)
      /\ MetricsCollector.requests (metrics s')
         = MetricsCollector.setup_requests (metrics s')
           ++ MetricsCollector.runtime_requests (metrics s')
      /\ exists calls, same_log (metrics s') (collector_after calls)
  | Raised _ s' =>
      (length (MetricsCollector.requests (metrics s')) <= length (sent s'))%nat
      /\ MetricsCollector.requests (metrics s')
         = MetricsCollector.setup_requests (metrics s')
           ++ MetricsCollector.runtime_requests (metrics s')
      /\ exists calls, same_log (metrics s') (collector_after calls)
  | Pending => True
  end.
Proof.
  assert (Hrun : ensures (eq init_state) (run E config fuel) (log_consistent E config)).
  { pose proof (log_consistent_stable E config) as Hst.
    pose proof (log_consistent_init E config) as Hinit.
    unfold run. destruct (negb (health E)); [intros s <-; exact Hinit |].
    apply (ensures_bind _ (eq init_state)); [| intros s <-; exact Hinit | intros _].
    { apply ensures_modify. intros s <-. reflexivity. }
    apply (ensures_bind _ (eq init_state)); [| intros s <-; exact Hinit | intros _].
    { apply ensures_modify. intros s <-. reflexivity. }
    apply (ensures_pre (log_consistent E config)); [intros s <-; exact Hinit |].
    apply ensures_seq; [now apply ensures_phase_create_users | intros _].
    apply ensures_seq; [now apply ensures_phase_build_celebrity_followers | intros _].
    apply ensures_seq; [now apply ensures_phase_build_social_graph | intros _].
    apply ensures_seq.
    { apply ensures_modify. intros s Hs. now apply log_consistent_set_phase. }
    intros _. apply ensures_runtime; [exact Hst |].
    intros s t Hs. now apply log_consistent_set_end_time. }
  specialize (Hrun init_state eq_refl).
  destruct (run E config fuel init_state) as [passed s' | e s' |]; [| | exact I];
    destruct Hrun as (Hall & Horder & _ & Hcalls).
  - split; [| now split]. exists (MetricsCollector.requests (metrics s')).
    split; [reflexivity | exact Hall].
  - split; [| now split]. rewrite (Forall2_length _ _ _ Hall). lia.
Qed.

(** ** The phases that return whatever the target answers *)

Lemma grown_by_refl (s : State) : grown_by 0 s s.
Proof. unfold grown_by. lia. Qed.

Lemma grown_by_trans (a b : nat) (s s1 s2 : State) :
  grown_by a s s1 -> grown_by b s1 s2 -> grown_by (a + b) s s2.
Proof. unfold grown_by. lia. Qed.

Lemma same_users_refl (s : State) : same_users s s.
Proof. unfold same_users. auto. Qed.

Lemma same_users_trans (s s1 s2 : State) :
  same_users s s1 -> same_users s1 s2 -> same_users s s2.
Proof.
  unfold same_users. intros (? & ? & ? & ? & ?) (? & ? & ? & ? & ?).
  repeat split; congruence.
Qed.

(** A dispatched call returns, having sent and recorded one request; it
    leaves the users, the UUIDs and the random draws as they were. *)
Lemma api_call_effect (E : Env) (config : Config) (method endpoint user_id : string)
    (body : option pyval) (expected_status : option (list Z)) (s : State) :
  exists result s',
    api_call E config method endpoint user_id body expected_status s = Done result s'
    /\ sent s' = sent s ++ [request_of config method endpoint user_id body]
    /\ grown_by 1 s s' /\ same_users s s'
    /\ uuids s' = uuids s /\ randoms s' = randoms s.
Proof.
  destruct (api_call_outcome E config method endpoint user_id body expected_status s)
    as (result & metric & t & -> & _).
  eexists _, _. split; [reflexivity |]. split; [reflexivity |]. split.
  - unfold grown_by. cbn [sent metrics set_metrics set_now add_sent MetricsCollector.record
                          MetricsCollector.requests].
    rewrite !length_app. simpl. lia.
  - split; [apply same_users_refl || (unfold same_users; auto) | auto].
Qed.

Lemma counting_api_call (E : Env) (config : Config) (method endpoint user_id : string)
    (body : option pyval) (expected_status : option (list Z)) (s0 : State) (k : nat) :
  triple (counting s0 k) (api_call E config method endpoint user_id body expected_status)
    (fun _ => counting s0 (S k)).
Proof.
  intros s [Hg Hu].
  destruct (api_call_effect E config method endpoint user_id body expected_status s)
    as (result & s' & Hrun & _ & Hg1 & Hu1 & _).
  exists result, s'. split; [exact Hrun |]. split.
  - replace (S k) with (k + 1)%nat by lia. eapply grown_by_trans; eassumption.
  - eapply same_users_trans; eassumption.
Qed.

(** A loop of [n] dispatched calls. *)
Lemma counting_for_each {A : Type} (s0 : State) (l : list A) (f : A -> M unit) :
  (forall x k, triple (counting s0 k) (f x) (fun _ => counting s0 (S k))) ->
  forall k, triple (counting s0 k) (for_each l f) (fun _ => counting s0 (k + length l)).
Proof.
  intros Hf. apply (triple_for_each (counting s0) l f). intros i x _. apply Hf.
Qed.

Lemma triple_collect_sum {A B : Type} (P : State -> Prop) (l : list A)
    (f : A -> M (list B)) (g : A -> nat) :
  (forall x, In x l -> triple P (f x) (fun ys s => P s /\ length ys = g x)) ->
  triple P (collect l f) (fun ys s => P s /\ length ys = sum_list (map g l)).
Proof.
  induction l as [|x l IH]; intros Hf.
  - intros s Hs. exists [], s. auto.
  - cbn [collect]. eapply triple_bind; [apply Hf; now left |].
    intros ys. cbn beta. intros s [Hs Hys].
    destruct (IH (fun y Hy => Hf y (or_intror Hy)) s Hs) as (zs & s1 & Hrun & Hp & Hzs).
    unfold bind. rewrite Hrun. exists (ys ++ zs), s1. split; [reflexivity |].
    split; [exact Hp |]. rewrite length_app. simpl. lia.
Qed.

Lemma sum_list_const {A : Type} (l : list A) (k : nat) :
  sum_list (map (fun _ => k) l) = (length l * k)%nat.
Proof. induction l as [|x l IH]; simpl; lia. Qed.

(** *** Phase 4 *)

Lemma phase_create_tweets_spec (E : Env) (config : Config) (s : State) :
  exists s',
    phase_create_tweets E config s = Done tt s'
    /\ grown_by (length (all_users s) * tweets_per_user config) s s'
    /\ same_users s s'
    /\ Forall (fun r => Request.method r = "POST"
                        /\ Request.url r = base_url config +:+ "/api/v1/tweets")
         (sent_since s s').
Proof.
  set (P := fun s1 : State => sent s1 = sent s /\ metrics s1 = metrics s /\ same_users s s1).
  assert (Hcollect : triple P
            (collect (seq 0 (tweets_per_user config)) (fun round_num =>
               let! s := get_state in
               collect (all_users s) (fun user =>
                 let! s := get_state in
                 let user_type := if inb user (celebrities s) then "celebrity 🌟" else "user" in
                 let! u := fresh_uuid E in
                 ret [(user, "Tweet " +:+ str_nat (round_num + 1) +:+ " from " +:+ user_type
                              +:+ " - " +:+ hex8 u)])))
            (fun tasks s1 => P s1
               /\ length tasks
                  = sum_list (map (fun _ => length (all_users s)) (seq 0 (tweets_per_user config))))).
  { apply triple_collect_sum. intros round_num _.
    apply triple_get_state_bind. intros s1 (_ & _ & _ & _ & _ & Hall & _).
    rewrite Hall.
    eapply triple_post;
      [| apply (triple_collect_sum P (all_users s) _ (fun _ => 1%nat))].
    - intros ys s2 [Hp Hlen]. split; [exact Hp |].
      rewrite Hlen, sum_list_const. lia.
    - intros user _. apply triple_get_state_bind. intros s2 _.
      intros s3 (Hsent & Hm & Hu). cbv beta zeta delta [bind fresh_uuid ret].
      eexists _, _. split; [reflexivity |].
      split; [| reflexivity]. unfold P. cbn [sent metrics]. split; [exact Hsent |].
      split; [exact Hm |]. exact Hu. }
  assert (Hsend : forall tasks,
            triple (fun s1 => P s1)
              (for_each tasks (fun '(user, content) =>
                 create_tweet E config user content ;;; ret tt))
              (fun _ s' => grown_by (length tasks) s s' /\ same_users s s'
                           /\ Forall (fun r => Request.method r = "POST"
                                               /\ Request.url r
                                                  = base_url config +:+ "/api/v1/tweets")
                                (sent_since s s'))).
  { intros tasks.
    set (I := fun (i : nat) (s1 : State) =>
                grown_by i s s1 /\ same_users s s1
                /\ Forall (fun r => Request.method r = "POST"
                                    /\ Request.url r = base_url config +:+ "/api/v1/tweets")
                     (sent_since s s1)).
    eapply triple_weaken.
    3: { apply (triple_for_each I tasks) with (i := 0%nat).
         intros i [user content] _. apply triple_then_ret.
         intros s1 (Hg & Hu & Hall). unfold create_tweet.
         destruct (api_call_effect E config "POST" "/api/v1/tweets" user
                     (Some (PDict [("content", PStr content)])) (Some [201%Z]) s1)
           as (result & s2 & Hrun & Hsent & Hg1 & Hu1 & _).
         exists result, s2. split; [exact Hrun |]. unfold I. split; [| split].
         + replace (S i) with (i + 1)%nat by lia. eapply grown_by_trans; eassumption.
         + eapply same_users_trans; eassumption.
         + unfold sent_since in *. rewrite Hsent.
           rewrite drop_app_le by (destruct Hg as [Hg _]; lia).
           apply Forall_app. split; [exact Hall |]. repeat constructor. }
    - intros s1 (Hsent & Hm & Hu). unfold I, grown_by, sent_since.
      rewrite Hsent, Hm, drop_all.
      split; [split; lia |]. split; [exact Hu | constructor].
    - intros u s1 H. exact H. }
  assert (Hphase : triple P (phase_create_tweets E config)
            (fun _ s' =>
               grown_by (length (all_users s) * tweets_per_user config) s s'
               /\ same_users s s'
               /\ Forall (fun r => Request.method r = "POST"
                                   /\ Request.url r = base_url config +:+ "/api/v1/tweets")
                    (sent_since s s'))).
  { unfold phase_create_tweets. eapply triple_bind; [exact Hcollect |].
    intros tasks. cbn beta. apply triple_pure_pre. intros Hlen.
    eapply triple_post; [| apply Hsend].
    intros u s' (Hg & Hu & Hall). rewrite Hlen, sum_list_const, length_seq in Hg.
    split; [| split; assumption]. now rewrite Nat.mul_comm. }
  destruct (Hphase s) as ([] & s' & Hrun & H).
  { unfold P. repeat split; reflexivity. }
  now exists s'.
Qed.

(** *** Phase 1 *)

Lemma triple_for_each_seq (I : nat -> State -> Prop) (f : nat -> M unit) (n : nat) :
  (forall i, (i < n)%nat -> triple (I i) (f i) (fun _ => I (S i))) ->
  triple (I 0%nat) (for_each (seq 0 n) f) (fun _ => I n).
Proof.
  assert (Hgen : forall a,
            (forall i, (i < n)%nat -> triple (I (a + i)%nat) (f (a + i)%nat)
                                        (fun _ => I (S (a + i)))) ->
            triple (I a) (for_each (seq a n) f) (fun _ => I (a + n)%nat)).
  { induction n as [|n IH]; intros a Hf.
    - simpl. rewrite Nat.add_0_r. apply (triple_ret (fun _ => I a) tt).
    - cbn [seq for_each]. eapply triple_bind.
      { specialize (Hf 0%nat ltac:(lia)). rewrite Nat.add_0_r in Hf. exact Hf. }
      intros u. replace (a + S n)%nat with (S a + n)%nat by lia.
      apply IH. intros i Hi. replace (S a + i)%nat with (a + S i)%nat by lia.
      apply Hf. lia. }
  intros Hf. apply (Hgen 0%nat). exact Hf.
Qed.

Lemma map_seq_S {A : Type} (f : nat -> A) (a n : nat) :
  map f (seq a (S n)) = map f (seq a n) ++ [f (a + n)%nat].
Proof. now rewrite seq_S, map_app. Qed.

Lemma phase_create_users_spec (E : Env) (config : Config) (s : State) :
  exists s',
    phase_create_users E config s = Done tt s'
    /\ sent s'
       = sent s
         ++ map (first_tweet E config (uuids s) regular_greeting) (seq 0 (regular config))
         ++ map (first_tweet E config (uuids s + regular config) celebrity_greeting)
              (seq 0 (celebrities_count config))
    /\ grown_by (phase1_ops config) s s'
    /\ regular_users s' = regular_users s ++ map (uuid4 E) (seq (uuids s) (regular config))
    /\ celebrities s'
       = celebrities s
         ++ map (uuid4 E) (seq (uuids s + regular config) (celebrities_count config))
    /\ all_users s' = regular_users s' ++ celebrities s'
    /\ celebrity_followers s' = celebrity_followers s
    /\ follow_graph s' = follow_graph s
    /\ uuids s' = (uuids s + phase1_ops config)%nat.
Proof.
  set (I1 := fun (i : nat) (s1 : State) =>
               sent s1 = sent s ++ map (first_tweet E config (uuids s) regular_greeting) (seq 0 i)
               /\ length (MetricsCollector.requests (metrics s1))
                  = (length (MetricsCollector.requests (metrics s)) + i)%nat
               /\ regular_users s1 = regular_users s ++ map (uuid4 E) (seq (uuids s) i)
               /\ uuids s1 = (uuids s + i)%nat
               /\ celebrities s1 = celebrities s
               /\ celebrity_followers s1 = celebrity_followers s
               /\ follow_graph s1 = follow_graph s).
  set (R := regular config).
  set (I2 := fun (j : nat) (s1 : State) =>
               sent s1
               = sent s ++ map (first_tweet E config (uuids s) regular_greeting) (seq 0 R)
                 ++ map (first_tweet E config (uuids s + R) celebrity_greeting) (seq 0 j)
               /\ length (MetricsCollector.requests (metrics s1))
                  = (length (MetricsCollector.requests (metrics s)) + R + j)%nat
               /\ regular_users s1 = regular_users s ++ map (uuid4 E) (seq (uuids s) R)
               /\ uuids s1 = (uuids s + R + j)%nat
               /\ celebrities s1 = celebrities s ++ map (uuid4 E) (seq (uuids s + R) j)
               /\ celebrity_followers s1 = celebrity_followers s
               /\ follow_graph s1 = follow_graph s).
  assert (Hphase : triple (I1 0%nat) (phase_create_users E config)
                     (fun _ s' => I2 (celebrities_count config) s'
                                  /\ all_users s' = regular_users s' ++ celebrities s')).
  { unfold phase_create_users. fold R. eapply triple_bind.
    { apply (triple_for_each_seq I1). intros i _.
      intros s1 (Hsent & Hreq & Hreg & Huu & Hcel & Hcf & Hfg).
      cbv beta iota delta [bind fresh_uuid modify ret].
      match goal with
      | |- context [create_tweet E config ?u ?c ?b] =>
          destruct (api_call_effect E config "POST" "/api/v1/tweets" u
                      (Some (PDict [("content", PStr c)])) (Some [201%Z]) b)
            as (result & s2 & Hrun & Hsent2 & [_ Hreq2] & Hu2 & Huu2 & _);
          unfold create_tweet; rewrite Hrun
      end.
      exists tt, s2. split; [reflexivity |].
      destruct Hu2 as (Hreg2 & Hcel2 & Hcf2 & _ & Hfg2).
      cbn [sent metrics regular_users celebrities celebrity_followers follow_graph uuids
           set_regular_users] in *.
      unfold I1. rewrite Hsent2, Hreq2, Hreg2, Hcel2, Hcf2, Hfg2, Huu2.
      rewrite !map_seq_S, Hsent, Hreq, Hreg, Huu. cbn [Nat.add].
      rewrite <- !app_assoc.
      repeat split; try assumption; try reflexivity; lia. }
    intros u0. eapply triple_bind.
    { eapply triple_pre; [| apply (triple_for_each_seq I2)].
      - intros s1 (Hsent & Hreq & Hreg & Huu & Hcel & Hcf & Hfg). unfold I2.
        cbn [seq map]. rewrite !app_nil_r, !Nat.add_0_r. repeat split; assumption.
      - intros j _.
        intros s1 (Hsent & Hreq & Hreg & Huu & Hcel & Hcf & Hfg).
        cbv beta iota delta [bind fresh_uuid modify ret].
        match goal with
        | |- context [create_tweet E config ?u ?c ?b] =>
            destruct (api_call_effect E config "POST" "/api/v1/tweets" u
                        (Some (PDict [("content", PStr c)])) (Some [201%Z]) b)
              as (result & s2 & Hrun & Hsent2 & [_ Hreq2] & Hu2 & Huu2 & _);
            unfold create_tweet; rewrite Hrun
        end.
        exists tt, s2. split; [reflexivity |].
        destruct Hu2 as (Hreg2 & Hcel2 & Hcf2 & _ & Hfg2).
        cbn [sent metrics regular_users celebrities celebrity_followers follow_graph uuids
             set_celebrities] in *.
        unfold I2. rewrite Hsent2, Hreq2, Hreg2, Hcel2, Hcf2, Hfg2, Huu2.
        rewrite !map_seq_S, Hsent, Hreq, Hreg, Hcel, Huu. cbn [Nat.add].
        rewrite <- !app_assoc.
        repeat split; try assumption; try reflexivity; lia. }
    intros u1. apply triple_modify. intros s1 H. split; [exact H | reflexivity]. }
  destruct (Hphase s) as ([] & s' & Hrun & (Hsent & Hreq & Hreg & Huu & Hcel & Hcf & Hfg) & Hall).
  { unfold I1. cbn [seq map]. rewrite !app_nil_r, !Nat.add_0_r. repeat split; reflexivity. }
  exists s'. split; [exact Hrun |]. split; [exact Hsent |]. split.
  { unfold grown_by, phase1_ops. rewrite Hsent, !length_app, !length_map, !length_seq.
    fold R. lia. }
  unfold phase1_ops. fold R. rewrite Nat.add_assoc. auto 10.
Qed.

(** *** Phase 2 *)

(** The followers of one celebrity are drawn: [n] fresh UUIDs, no request. *)
Lemma draw_followers_spec (E : Env) (celeb : string) (n : nat) (s : State) :
  exists tasks s',
    draw_followers E celeb n s = Done tasks s'
    /\ tasks = map (fun i => (uuid4 E (uuids s + i), celeb)) (seq 0 n)
    /\ sent s' = sent s /\ metrics s' = metrics s
    /\ regular_users s' = regular_users s /\ celebrities s' = celebrities s
    /\ all_users s' = all_users s /\ follow_graph s' = follow_graph s
    /\ celebrity_followers s' = celebrity_followers s ++ map (uuid4 E) (seq (uuids s) n)
    /\ uuids s' = (uuids s + n)%nat.
Proof.
  revert s. induction n as [|n IH]; intros s.
  - exists [], s. cbn [draw_followers seq map]. unfold ret.
    rewrite app_nil_r, Nat.add_0_r. repeat split; reflexivity.
  - cbn [draw_followers]. cbv beta iota delta [bind fresh_uuid modify ret].
    match goal with
    | |- context [draw_followers E celeb n ?b] =>
        destruct (IH b) as (tasks & s' & Hrun & Htasks & Hsent & Hm & Hreg & Hcel & Hall
                            & Hfg & Hcf & Huu);
        rewrite Hrun
    end.
    cbn [sent metrics regular_users celebrities celebrity_followers all_users follow_graph
         uuids set_celebrity_followers] in *.
    eexists _, s'. split; [reflexivity |].
    rewrite Hcf, Huu, Htasks, <- app_assoc. cbn [seq map app].
    rewrite <- !seq_shift, !map_map, Nat.add_0_r.
    repeat split; try assumption; try lia.
    + f_equal. apply map_ext. intros i. now rewrite Nat.add_succ_r.
Qed.

Lemma triple_collect_indexed {A B : Type} (I : nat -> State -> Prop) (l : list A)
    (f : A -> M (list B)) (k : nat) :
  (forall i x, In x l -> triple (I i) (f x) (fun ys s => I (S i) s /\ length ys = k)) ->
  forall i, triple (I i) (collect l f)
              (fun ys s => I (i + length l)%nat s /\ length ys = (length l * k)%nat).
Proof.
  induction l as [|x l IH]; intros Hf i.
  - intros s Hs. exists [], s. simpl. rewrite Nat.add_0_r. auto.
  - cbn [collect]. eapply triple_bind; [apply Hf; now left |].
    intros ys. cbn beta. intros s [Hs Hys].
    destruct (IH (fun j y Hy => Hf j y (or_intror Hy)) (S i) s Hs)
      as (zs & s1 & Hrun & Hp & Hzs).
    unfold bind. rewrite Hrun. exists (ys ++ zs), s1. split; [reflexivity |].
    split.
    + simpl. now replace (i + S (length l))%nat with (S i + length l)%nat by lia.
    + rewrite length_app. simpl. lia.
Qed.

Lemma phase_build_celebrity_followers_spec (E : Env) (config : Config) (s : State) :
  exists s',
    phase_build_celebrity_followers E config s = Done tt s'
    /\ grown_by (length (celebrities s) * threshold) s s'
    /\ length (celebrity_followers s')
       = (length (celebrity_followers s) + length (celebrities s) * threshold)%nat
    /\ regular_users s' = regular_users s /\ celebrities s' = celebrities s
    /\ all_users s' = all_users s /\ follow_graph s' = follow_graph s
    /\ uuids s' = (uuids s + length (celebrities s) * threshold)%nat
    /\ Forall (fun r => Request.method r = "POST") (sent_since s s').
Proof.
  set (F := fun (s1 : State) =>
              regular_users s1 = regular_users s /\ celebrities s1 = celebrities s
              /\ all_users s1 = all_users s /\ follow_graph s1 = follow_graph s).
  set (I := fun (i : nat) (s1 : State) =>
              sent s1 = sent s /\ metrics s1 = metrics s /\ F s1
              /\ length (celebrity_followers s1)
                 = (length (celebrity_followers s) + i * threshold)%nat
              /\ uuids s1 = (uuids s + i * threshold)%nat).
  set (n := (length (celebrities s) * threshold)%nat).
  set (K := fun (k : nat) (s1 : State) =>
              grown_by k s s1 /\ F s1
              /\ length (celebrity_followers s1) = (length (celebrity_followers s) + n)%nat
              /\ uuids s1 = (uuids s + n)%nat
              /\ Forall (fun r => Request.method r = "POST") (sent_since s s1)).
  assert (Hphase : triple (I 0%nat) (phase_build_celebrity_followers E config)
                     (fun _ => K n)).
  { unfold phase_build_celebrity_followers.
    apply triple_get_state_bind. intros s0 (_ & _ & (_ & Hcel0 & _) & _). rewrite Hcel0.
    eapply triple_bind.
    { apply (triple_collect_indexed I (celebrities s) _ threshold) with (i := 0%nat).
      intros i celeb _ s1 (Hsent & Hm & (Hreg & Hcel & Hall & Hfg) & Hcf & Huu).
      destruct (draw_followers_spec E celeb threshold s1)
        as (tasks & s2 & Hrun & Htasks & Hsent2 & Hm2 & Hreg2 & Hcel2 & Hall2 & Hfg2
            & Hcf2 & Huu2).
      exists tasks, s2. split; [exact Hrun |]. split.
      - unfold I, F. rewrite Hsent2, Hm2, Hreg2, Hcel2, Hall2, Hfg2, Hcf2, Huu2.
        rewrite length_app, length_map, length_seq.
        repeat split; try assumption; lia.
      - rewrite Htasks. now rewrite length_map, length_seq. }
    intros tasks. cbn beta. apply triple_pure_pre. intros Hlen.
    eapply triple_weaken.
    3: { apply (triple_for_each K tasks) with (i := 0%nat).
         intros k [follower_id celeb] _. apply triple_then_ret.
         intros s1 (Hg & (Hreg & Hcel & Hall & Hfg) & Hcf & Huu & Hposts).
         unfold follow_user.
         destruct (api_call_effect E config "POST"
                     ("/api/v1/users/" +:+ follower_id +:+ "/follow/" +:+ celeb)
                     follower_id None (Some [201%Z; 409%Z]) s1)
           as (result & s2 & Hrun & Hsent2 & Hg2 & (Hreg2 & Hcel2 & Hcf2 & Hall2 & Hfg2)
               & Huu2 & _).
         exists result, s2. split; [exact Hrun |]. unfold K, F.
         rewrite Hreg2, Hcel2, Hcf2, Hall2, Hfg2, Huu2.
         split; [replace (S k) with (k + 1)%nat by lia; eapply grown_by_trans; eassumption |].
         split; [repeat split; assumption |]. split; [exact Hcf |]. split; [exact Huu |].
         unfold sent_since in *. rewrite Hsent2.
         rewrite drop_app_le by (destruct Hg as [Hg _]; lia).
         apply Forall_app. split; [exact Hposts |]. repeat constructor. }
    - intros s1 (Hsent & Hm & HF & Hcf & Huu). unfold K, grown_by, sent_since.
      rewrite Hsent, Hm, drop_all. rewrite Nat.add_0_l in Hcf, Huu.
      split; [split; lia |]. split; [exact HF |]. split; [exact Hcf |].
      split; [exact Huu | constructor].
    - intros u s1 H. cbn beta in H. rewrite Nat.add_0_l, Hlen in H. exact H. }
  destruct (Hphase s) as ([] & s' & Hrun & Hg & (Hreg & Hcel & Hall & Hfg) & Hcf & Huu & Hposts).
  { unfold I, F. rewrite Nat.mul_0_l, !Nat.add_0_r. repeat split; reflexivity. }
  exists s'. split; [exact Hrun |]. split; [exact Hg |]. split; [exact Hcf |].
  split; [exact Hreg |]. split; [exact Hcel |]. split; [exact Hall |].
  split; [exact Hfg |]. split; [exact Huu | exact Hposts].
Qed.

(** *** Phase 3 *)

(** A list of follows is carried out: one POST for each. *)
Lemma follow_all_spec (E : Env) (config : Config) (tasks : list (string * string))
    (s : State) :
  exists s' new,
    for_each tasks (fun '(a, b) => follow_user E config a b ;;; ret tt) s = Done tt s'
    /\ sent s' = sent s ++ new
    /\ length new = length tasks
    /\ Forall (fun r => Request.method r = "POST") new
    /\ grown_by (length tasks) s s'
    /\ same_users s s' /\ uuids s' = uuids s.
Proof.
  revert s. induction tasks as [|[a b] tasks IH]; intros s.
  - exists s, []. cbn [for_each]. unfold ret. rewrite app_nil_r.
    split; [reflexivity |]. split; [reflexivity |]. split; [reflexivity |].
    split; [constructor |]. split; [apply grown_by_refl |].
    split; [apply same_users_refl | reflexivity].
  - cbn [for_each]. unfold follow_user.
    destruct (api_call_effect E config "POST"
                ("/api/v1/users/" +:+ a +:+ "/follow/" +:+ b) a None
                (Some [201%Z; 409%Z]) s)
      as (result & s1 & Hrun & Hsent & Hg & Hu & Huu & _).
    destruct (IH s1) as (s' & new & Hrun' & Hsent' & Hlen & Hposts & Hg' & Hu' & Huu').
    exists s', (request_of config "POST" ("/api/v1/users/" +:+ a +:+ "/follow/" +:+ b)
                  a None :: new).
    cbv beta iota delta [bind ret]. rewrite Hrun. cbv beta iota. 
    split; [exact Hrun' |]. split; [now rewrite Hsent', Hsent, <- app_assoc |].
    split; [simpl; lia |]. split; [constructor; [reflexivity | exact Hposts] |].
    split; [exact (grown_by_trans 1 _ _ _ _ Hg Hg') |].
    split; [eapply same_users_trans; eassumption | congruence].
Qed.

Lemma sent_since_app (s s' : State) (new : list Request.t) :
  sent s' = sent s ++ new -> sent_since s s' = new.
Proof. intros H. unfold sent_since. rewrite H. apply drop_app_length. Qed.

Lemma others_of_length (user : string) (users : list string) :
  In user users -> (length (others_of user users) < length users)%nat.
Proof.
  unfold others_of. induction users as [|u users IH]; intros Hin; [contradiction |].
  rewrite filter_cons. pose proof (length_filter (fun u => u <> user) users) as Hle.
  destruct (decide (u <> user)) as [Hne | Heq]; simpl.
  - destruct Hin as [-> | Hin]; [contradiction |]. specialize (IH Hin). lia.
  - lia.
Qed.

Lemma others_of_length_nodup (user : string) (users : list string) :
  List.NoDup users -> In user users ->
  length (others_of user users) = (length users - 1)%nat.
Proof.
  unfold others_of. induction users as [|u users IH]; intros Hnd Hin; [contradiction |].
  inversion Hnd as [|? ? Hnot Hnd']; subst. rewrite filter_cons.
  destruct (decide (u <> user)) as [Hne | Heq]; simpl.
  - destruct Hin as [-> | Hin]; [contradiction |]. rewrite (IH Hnd' Hin).
    destruct users; [contradiction | simpl; lia].
  - assert (u = user) as -> by (destruct (decide (u = user)); [assumption | contradiction]).
    rewrite Nat.sub_0_r. f_equal.
    clear -Hnot. induction users as [|v users IH]; [reflexivity |].
    rewrite filter_cons. rewrite decide_True.
    + f_equal. apply IH. intros H. apply Hnot. now right.
    + intros ->. apply Hnot. now left.
Qed.

Lemma sum_list_bounds {A : Type} (g : A -> nat) (l : list A) (b : nat) :
  ((forall x, In x l -> (g x <= b)%nat) -> (sum_list (map g l) <= length l * b)%nat)
  /\ ((forall x, In x l -> (g x < b)%nat) -> l <> [] ->
      (sum_list (map g l) < length l * b)%nat)
  /\ ((forall x, In x l -> g x = b) -> sum_list (map g l) = (length l * b)%nat).
Proof.
  induction l as [|x l (IHle & IHlt & IHeq)].
  - split; [simpl; lia |]. split; [intros _ H; contradiction | reflexivity].
  - split; [| split].
    + intros H. cbn [map sum_list length]. cbn [sum_list_with].
      pose proof (H x (or_introl eq_refl)).
      specialize (IHle (fun y Hy => H y (or_intror Hy))). simpl in *. lia.
    + intros H _. pose proof (H x (or_introl eq_refl)).
      assert (Hle : (sum_list (map g l) <= length l * b)%nat).
      { apply IHle. intros y Hy. specialize (H y (or_intror Hy)). lia. }
      simpl in *. lia.
    + intros H. pose proof (H x (or_introl eq_refl)).
      specialize (IHeq (fun y Hy => H y (or_intror Hy))). simpl in *. lia.
Qed.

(** The number of follows of phase 3 against the number announced. *)
Lemma follows_of_sum (config : Config) (users celebs : list string) :
  let total := sum_list (map (follows_of config users celebs) users) in
  let announced :=
    (length users * (follows_per_regular_user config + length celebs))%nat in
  (total <= announced)%nat
  /\ (users <> [] -> (length users <= follows_per_regular_user config)%nat ->
      (total < announced)%nat)
  /\ (List.NoDup users -> (follows_per_regular_user config < length users)%nat ->
      total = announced).
Proof.
  cbn zeta.
  destruct (sum_list_bounds (follows_of config users celebs) users
              (follows_per_regular_user config + length celebs)) as (Hle & Hlt & Heq).
  split; [| split].
  - apply Hle. intros user _. unfold follows_of. lia.
  - intros Hne Hf. apply Hlt; [| exact Hne]. intros user Hin. unfold follows_of.
    pose proof (others_of_length user users Hin). lia.
  - intros Hnd Hf. apply Heq. intros user Hin. unfold follows_of.
    rewrite (others_of_length_nodup user users Hnd Hin). lia.
Qed.

Lemma phase_build_social_graph_spec (E : Env) (config : Config) (s : State) :
  sample_sized E ->
  exists s' new,
    phase_build_social_graph E config s = Done tt s'
    /\ sent s' = sent s ++ new
    /\ Forall (fun r => Request.method r = "POST") new
    /\ grown_by (sum_list (map (follows_of config (regular_users s) (celebrities s))
                             (regular_users s))) s s'
    /\ regular_users s' = regular_users s /\ celebrities s' = celebrities s
    /\ celebrity_followers s' = celebrity_followers s /\ all_users s' = all_users s
    /\ uuids s' = uuids s.
Proof.
  intros Hsample.
  set (P := fun s1 : State =>
              sent s1 = sent s /\ metrics s1 = metrics s
              /\ regular_users s1 = regular_users s /\ celebrities s1 = celebrities s
              /\ celebrity_followers s1 = celebrity_followers s
              /\ all_users s1 = all_users s /\ uuids s1 = uuids s).
  set (total := sum_list (map (follows_of config (regular_users s) (celebrities s))
                            (regular_users s))).
  assert (Hphase : triple P (phase_build_social_graph E config)
            (fun _ s' => exists new,
               sent s' = sent s ++ new
               /\ Forall (fun r => Request.method r = "POST") new
               /\ grown_by total s s'
               /\ regular_users s' = regular_users s /\ celebrities s' = celebrities s
               /\ celebrity_followers s' = celebrity_followers s
               /\ all_users s' = all_users s /\ uuids s' = uuids s)).
  { unfold phase_build_social_graph.
    apply triple_get_state_bind. intros s0 (_ & _ & Hreg0 & _). rewrite Hreg0.
    eapply triple_bind.
    { apply (triple_collect_sum P (regular_users s) _
               (follows_of config (regular_users s) (celebrities s))).
      intros user _ s1 (Hsent & Hm & Hreg & Hcel & Hcf & Hall & Huu).
      cbv beta iota zeta delta [bind get_state next_random modify ret].
      eexists _, _. split; [reflexivity |].
      cbn [sent metrics regular_users celebrities celebrity_followers all_users uuids
           set_follow_graph].
      split; [unfold P; cbn [sent metrics regular_users celebrities celebrity_followers
                               all_users uuids]; repeat split; assumption |].
      rewrite length_map, length_app, Hreg, Hcel. unfold follows_of, others_of.
      rewrite Hsample by lia. reflexivity. }
    intros tasks. cbn beta. apply triple_pure_pre. intros Hlen.
    intros s1 (Hsent & Hm & Hreg & Hcel & Hcf & Hall & Huu).
    destruct (follow_all_spec E config tasks s1)
      as (s' & new & Hrun & Hsent' & Hnew & Hposts & Hg & (Hreg' & Hcel' & Hcf' & Hall' & _)
          & Huu').
    exists tt, s'. split; [exact Hrun |]. exists new.
    split; [congruence |]. split; [exact Hposts |]. split.
    { unfold grown_by in *. rewrite Hsent, Hm in Hg. fold total in Hlen.
      rewrite Hlen in Hg. exact Hg. }
    repeat split; congruence. }
  destruct (Hphase s) as ([] & s' & Hrun & new & H).
  { unfold P. repeat split; reflexivity. }
  now exists s', new.
Qed.

(** *** Phase 7 *)

(** The unfollows of one user: the first [m] of its followees [rf]. *)
Lemma unfollow_loop_spec (E : Env) (config : Config) (user : string) (rf : list string)
    (m : nat) :
  forall (a : nat) (s : State),
    (a + m <= length rf)%nat ->
    exists s' new,
      for_each (seq a m) (fun i =>
        match index rf i with
        | Ok followee => unfollow_user E config user followee ;;; ret tt
        | Err e => raise e
        end) s = Done tt s'
      /\ sent s' = sent s ++ new
      /\ length new = m
      /\ grown_by m s s'
      /\ same_users s s'
      /\ Forall (fun r => exists followee,
                   In followee rf /\ r = unfollow_request config user followee) new.
Proof.
  induction m as [|m IH]; intros a s Hm.
  - exists s, []. cbn [seq for_each]. unfold ret. rewrite app_nil_r.
    split; [reflexivity |]. split; [reflexivity |]. split; [reflexivity |].
    split; [apply grown_by_refl |]. split; [apply same_users_refl | constructor].
  - cbn [seq for_each].
    destruct (lookup_lt_is_Some_2 rf a ltac:(lia)) as [followee Hlookup].
    unfold index at 1. rewrite Hlookup. unfold unfollow_user.
    destruct (api_call_effect E config "DELETE"
                ("/api/v1/users/" +:+ user +:+ "/follow/" +:+ followee) user None
                (Some [200%Z; 204%Z; 404%Z]) s)
      as (result & s1 & Hrun & Hsent & Hg & Hu & _).
    destruct (IH (S a) s1 ltac:(lia)) as (s' & new & Hrun' & Hsent' & Hlen & Hg' & Hu' & Hall).
    exists s', (unfollow_request config user followee :: new).
    cbv beta iota delta [bind ret]. rewrite Hrun. cbv beta iota.
    split; [exact Hrun' |]. split; [now rewrite Hsent', Hsent, <- app_assoc |].
    split; [simpl; lia |]. split; [exact (grown_by_trans 1 _ _ _ _ Hg Hg') |].
    split; [eapply same_users_trans; eassumption |].
    constructor; [| exact Hall].
    exists followee. split; [| reflexivity].
    apply list_elem_of_In. now apply (list_elem_of_lookup_2 rf a).
Qed.

Lemma phase_unfollow_some_spec (E : Env) (config : Config) (s : State) :
  exists s' new,
    phase_unfollow_some E config s = Done tt s'
    /\ sent s' = sent s ++ new
    /\ (length new <= length (regular_users s) * default 1%nat (unfollows_per_user config))%nat
    /\ grown_by (length new) s s'
    /\ same_users s s'
    /\ Forall (fun r => Request.method r = "DELETE" /\ regular_unfollow config s r) new.
Proof.
  set (per := default 1%nat (unfollows_per_user config)).
  assert (Hloop : forall (l : list string) (s1 : State),
            (forall u, In u l -> In u (regular_users s)) -> same_users s s1 ->
            exists s' new,
              for_each l (fun user =>
                let! s := get_state in
                let following := default [] (follow_graph s !! user) in
                let regular_following :=
                  filter (fun f => inb f (celebrities s) = false) following in
                for_each (seq 0 (Nat.min per (length regular_following))) (fun i =>
                  match index regular_following i with
                  | Ok followee => unfollow_user E config user followee ;;; ret tt
                  | Err e => raise e
                  end)) s1 = Done tt s'
              /\ sent s' = sent s1 ++ new
              /\ (length new <= length l * per)%nat
              /\ grown_by (length new) s1 s'
              /\ same_users s s'
              /\ Forall (fun r => Request.method r = "DELETE" /\ regular_unfollow config s r)
                   new).
  { induction l as [|user l IH]; intros s1 Hl Hu.
    - exists s1, []. cbn [for_each]. unfold ret. rewrite app_nil_r.
      split; [reflexivity |]. split; [reflexivity |]. split; [simpl; lia |].
      split; [apply grown_by_refl |]. split; [exact Hu | constructor].
    - cbn [for_each]. unfold bind at 1. cbv beta. unfold bind at 1, get_state at 1.
      cbv beta iota zeta.
      pose proof Hu as (_ & Hcel & _ & _ & Hfg). rewrite Hcel, Hfg.
      set (rf := filter (fun f => inb f (celebrities s) = false)
                   (default [] (follow_graph s !! user))).
      destruct (unfollow_loop_spec E config user rf (Nat.min per (length rf)) 0%nat s1
                  ltac:(lia))
        as (s2 & new1 & Hrun1 & Hsent1 & Hlen1 & Hg1 & Hu1 & Hall1).
      rewrite Hrun1.
      destruct (IH s2 (fun u Hin => Hl u (or_intror Hin))
                  (same_users_trans _ _ _ Hu Hu1))
        as (s' & new2 & Hrun2 & Hsent2 & Hlen2 & Hg2 & Hu2 & Hall2).
      exists s', (new1 ++ new2). split; [exact Hrun2 |].
      split; [now rewrite Hsent2, Hsent1, <- app_assoc |].
      split; [rewrite length_app; simpl; lia |].
      split.
      { rewrite length_app, Hlen1. rewrite <- Hlen1 at 1.
        eapply grown_by_trans; [| exact Hg2]. now rewrite Hlen1. }
      split; [exact Hu2 |].
      apply Forall_app. split; [| exact Hall2].
      eapply Forall_impl; [exact Hall1 |]. intros r (followee & Hin & ->).
      split; [reflexivity |]. exists user, followee.
      apply list_elem_of_In, list_elem_of_filter in Hin as [Hnot Hin].
      split; [apply Hl; now left |]. split; [now apply list_elem_of_In | auto]. }
  unfold phase_unfollow_some. fold per.
  unfold bind at 1, get_state at 1. cbv beta iota zeta.
  destruct (Hloop (regular_users s) s (fun u H => H) (same_users_refl s))
    as (s' & new & H).
  now exists s', new.
Qed.

(** *** What the setup and the write phases send *)

(** Phase 1 returns whatever the target answers.  It takes the next
    regular + celebrities UUIDs as the new users, the regular users first,
    and sends exactly one request for each, in that order: the POST of the
    user's first tweet, sent in the user's name.  That is the total of its
    progress bar.  In the end all_users is the regular users followed by
    the celebrities. *)
Theorem phase_create_users_first_tweets (E : Env) (config : Config) (s : State) :
  exists s',
    phase_create_users E config s = Done tt s'
    /\ sent s'
       = sent s
         ++ map (first_tweet E config (uuids s) regular_greeting) (seq 0 (regular config))
         ++ map (first_tweet E config (uuids s + regular config) celebrity_greeting)
              (seq 0 (celebrities_count config))
    /\ grown_by (phase1_ops config) s s'
    /\ regular_users s' = regular_users s ++ map (uuid4 E) (seq (uuids s) (regular config))
    /\ celebrities s'
       = celebrities s
         ++ map (uuid4 E) (seq (uuids s + regular config) (celebrities_count config))
    /\ all_users s' = regular_users s' ++ celebrities s'.
Proof.
  destruct (phase_create_users_spec E config s)
    as (s' & Hrun & Hsent & Hg & Hreg & Hcel & Hall & _).
  exists s'. auto 10.
Qed.



Lemma take_sample_sized (rich : bool) (transport : nat -> Request.t -> Exchange) :
  sample_sized (demo_env rich transport).
Proof. intros n population k Hk. cbn [random_sample demo_env]. rewrite length_take. lia. Qed.


(** Phase 4 returns whatever the target answers and sends exactly one
    POST /api/v1/tweets for every user and round, tweets_per_user times the
    number of users in all: the total of its progress bar when the users
    are those of the configuration.  It changes no list of users. *)
Theorem phase_create_tweets_volume (E : Env) (config : Config) (s : State) :
  exists s',
    phase_create_tweets E config s = Done tt s'
    /\ grown_by (length (all_users s) * tweets_per_user config) s s'
    /\ same_users s s'
    /\ Forall (fun r => Request.method r = "POST"
                        /\ Request.url r = base_url config +:+ "/api/v1/tweets")
         (sent_since s s')
    /\ (length (all_users s) = (regular config + celebrities_count config)%nat ->
        grown_by (phase4_ops config) s s').
Proof.
  destruct (phase_create_tweets_spec E config s) as (s' & Hrun & Hg & Hu & Hposts).
  exists s'. split; [exact Hrun |]. split; [exact Hg |]. split; [exact Hu |].
  split; [exact Hposts |]. intros Hlen. unfold phase4_ops. now rewrite <- Hlen.
Qed.

(** Phase 7 returns whatever the target answers and whatever the follow
    graph holds: it never indexes past the end of a user's followees.  It
    sends DELETE requests only, at most unfollows_per_user for each regular
    user (the total of its progress bar is an upper bound), each in the name
    of a regular user for someone of that user's entry in the follow graph
    who is no celebrity.  It changes no list of users. *)
Theorem phase_unfollow_some_spares_celebrities (E : Env) (config : Config) (s : State) :
  exists s' new,
    phase_unfollow_some E config s = Done tt s'
    /\ sent s' = sent s ++ new
    /\ (length new <= length (regular_users s) * default 1%nat (unfollows_per_user config))%nat
    /\ grown_by (length new) s s'
    /\ same_users s s'
    /\ Forall (fun r => Request.method r = "DELETE" /\ regular_unfollow config s r) new
    /\ (length (regular_users s) = regular config ->
        (length new <= phase7_ops config)%nat).
Proof.
  destruct (phase_unfollow_some_spec E config s)
    as (s' & new & Hrun & Hsent & Hlen & Hg & Hu & Hall).
  exists s', new. split; [exact Hrun |]. split; [exact Hsent |]. split; [exact Hlen |].
  split; [exact Hg |]. split; [exact Hu |]. split; [exact Hall |].
  intros Hreg. unfold phase7_ops. now rewrite <- Hreg.
Qed.

(** ** The setup volume of a run against the volume announced *)

Lemma ensures_bind_done {A B : Type} (s0 s1 : State) (a : A) (c : M A) (k : A -> M B)
    (R : State -> Prop) :
  c s0 = Done a s1 -> ensures (eq s1) (k a) R -> ensures (eq s0) (bind c k) R.
Proof. intros Hc Hk s <-. unfold bind. rewrite Hc. now apply Hk. Qed.

Lemma setup_phase_stable (E : Env) (config : Config) :
  stable E config
    (fun s => log_consistent E config s /\ MetricsCollector.phase (metrics s) = "setup").
Proof.
  destruct (log_consistent_stable E config) as [H1 H2]. split.
  - intros s s' Hm Hsent [HJ Hp]. split; [now apply (H1 s) |]. now rewrite Hm.
  - intros s metric t request Hout [HJ Hp]. split; [now apply H2 |]. exact Hp.
Qed.

Lemma runtime_phase_stable (E : Env) (config : Config) (k : nat) :
  stable E config
    (fun s => MetricsCollector.phase (metrics s) = "runtime"
              /\ length (MetricsCollector.setup_requests (metrics s)) = k).
Proof.
  split.
  - intros s s' Hm Hsent H. now rewrite Hm.
  - intros s metric t request Hout [Hp Hk]. cbn [metrics set_metrics set_now add_sent].
    unfold MetricsCollector.record.
    cbn [MetricsCollector.phase MetricsCollector.setup_requests].
    rewrite Hp. split; [reflexivity | exact Hk].
Qed.

(** The setup requests of a state in the setup phase are the requests sent. *)
Lemma setup_requests_sent (E : Env) (config : Config) (s : State) :
  log_consistent E config s -> MetricsCollector.phase (metrics s) = "setup" ->
  length (MetricsCollector.setup_requests (metrics s)) = length (sent s).
Proof.
  intros (Hall & Horder & Hsetup & _) Hp.
  rewrite (Forall2_length _ _ _ Hall), Horder, (Hsetup Hp), app_nil_r. reflexivity.
Qed.

(** If [random.sample] returns as many elements as it is asked for, then
    however a run ends, with a verdict or with an exception, the number of
    setup requests it has recorded is at most the "Setup" volume that
    [print_config] announces; against a healthy target it is that volume
    when the generated user ids are distinct and there are more regular
    users than follows_per_regular_user, and it is less when there are
    regular users but no more than follows_per_regular_user. *)
Theorem setup_volume_within_announced
    (E : Env) (config : Config) (fuel : nat) (Hsample : sample_sized E) :
  match run E config fuel init_state with
  | Done _ s' | Raised _ s' =>
      let n := length (MetricsCollector.setup_requests (metrics s')) in
      (n <= setup_ops config)%nat
      /\ (health E = true ->
          List.NoDup (map (uuid4 E) (seq 0 (regular config))) ->
          (follows_per_regular_user config < regular config)%nat ->
          n = setup_ops config)
      /\ (health E = true ->
          (1 <= regular config <= follows_per_regular_user config)%nat ->
          (n < setup_ops config)%nat)
  | Pending => True
  end.
Proof.
  destruct (health E) eqn:Hhealth.
  2: { unfold run. rewrite Hhealth. cbn [negb]. unfold ret. cbn zeta. simpl length.
       split; [lia |]. split; discriminate. }
  destruct (phase_create_users_spec E config init_state)
    as (s1 & Hrun1 & Hsent1 & _ & Hreg1 & Hcel1 & _).
  destruct (phase_build_celebrity_followers_spec E config s1)
    as (s2 & Hrun2 & [Hsent2 _] & _ & Hreg2 & Hcel2 & _).
  destruct (phase_build_social_graph_spec E config s2 Hsample)
    as (s3 & new & Hrun3 & _ & _ & [Hsent3 _] & _).
  set (J := fun s => log_consistent E config s /\ MetricsCollector.phase (metrics s) = "setup").
  pose proof (setup_phase_stable E config) as HJ. fold J in HJ.
  assert (HJ0 : J init_state) by (split; [apply log_consistent_init | reflexivity]).
  pose proof (ensures_phase_create_users E config J HJ init_state HJ0) as HJ1.
  rewrite Hrun1 in HJ1.
  pose proof (ensures_phase_build_celebrity_followers E config J HJ s1 HJ1) as HJ2.
  rewrite Hrun2 in HJ2.
  pose proof (ensures_phase_build_social_graph E config J HJ s2 HJ2) as HJ3.
  rewrite Hrun3 in HJ3.
  set (U := regular_users s2) in *. set (Cs := celebrities s2) in *.
  assert (HU : U = map (uuid4 E) (seq 0 (regular config))).
  { subst U. rewrite Hreg2, Hreg1. reflexivity. }
  assert (HlenU : length U = regular config) by now rewrite HU, length_map, length_seq.
  assert (HlenC : length Cs = celebrities_count config).
  { subst Cs. rewrite Hcel2, Hcel1. cbn [celebrities init_state app].
    now rewrite length_map, length_seq. }
  set (follows := sum_list (map (follows_of config U Cs) U)) in *.
  set (k := length (MetricsCollector.setup_requests (metrics s3))).
  assert (Hk : k = (regular config + celebrities_count config
                    + celebrities_count config * threshold + follows)%nat).
  { subst k. rewrite (setup_requests_sent E config s3 (proj1 HJ3) (proj2 HJ3)).
    rewrite Hsent3, Hsent2, Hsent1, Hcel1, !length_app, !length_map, !length_seq.
    cbn [sent celebrities init_state length app]. lia. }
  destruct (follows_of_sum config U Cs) as (Hle & Hlt & Heq).
  cbn zeta in Hle, Hlt, Heq. fold follows in Hle, Hlt, Heq.
  rewrite HlenU, HlenC in Hle, Hlt, Heq.
  set (Jr := fun s => MetricsCollector.phase (metrics s) = "runtime"
                      /\ length (MetricsCollector.setup_requests (metrics s)) = k).
  assert (Hrun : ensures (eq init_state) (run E config fuel) Jr).
  { unfold run. rewrite Hhealth. cbn [negb].
    apply (ensures_bind_done init_state init_state tt); [reflexivity |].
    apply (ensures_bind_done init_state init_state tt); [reflexivity |].
    apply (ensures_bind_done init_state s1 tt); [exact Hrun1 |].
    apply (ensures_bind_done s1 s2 tt); [exact Hrun2 |].
    apply (ensures_bind_done s2 s3 tt); [exact Hrun3 |].
    apply (ensures_bind_done s3 (set_metrics (MetricsCollector.set_phase "runtime") s3) tt);
      [reflexivity |].
    apply (ensures_pre Jr); [intros s <-; split; reflexivity |].
    apply ensures_runtime; [apply runtime_phase_stable |].
    intros s t H. exact H. }
  specialize (Hrun init_state eq_refl).
  assert (Hfinal : forall s', Jr s' ->
            let n := length (MetricsCollector.setup_requests (metrics s')) in
            (n <= setup_ops config)%nat
            /\ (true = true ->
                List.NoDup (map (uuid4 E) (seq 0 (regular config))) ->
                (follows_per_regular_user config < regular config)%nat ->
                n = setup_ops config)
            /\ (true = true ->
                (1 <= regular config <= follows_per_regular_user config)%nat ->
                (n < setup_ops config)%nat)).
  { intros s' [_ Hn]. cbn zeta. rewrite Hn, Hk. unfold setup_ops, total_celeb_follows.
    split; [lia |]. split.
    - intros _ Hnd Hf. rewrite <- HU in Hnd. specialize (Heq Hnd Hf). lia.
    - intros _ [H1 Hf].
      assert (HneU : U <> []) by (intros H0; rewrite H0 in HlenU; simpl in HlenU; lia).
      specialize (Hlt HneU Hf). lia. }
  destruct (run E config fuel init_state) as [passed s' | e s' |];
    [now apply Hfinal | now apply Hfinal | exact I].
Qed.

(** The bound for the example environment, whose samples are taken from the
    front of the population, and two regular users. *)
Lemma setup_volume_within_announced_witness :
  match run (ok_env true 1) small_config 1 init_state with
  | Done _ s' | Raised _ s' =>
      let n := length (MetricsCollector.setup_requests (metrics s')) in
      (n <= setup_ops small_config)%nat
      /\ (health (ok_env true 1) = true ->
          List.NoDup (map (uuid4 (ok_env true 1)) (seq 0 (regular small_config))) ->
          (follows_per_regular_user small_config < regular small_config)%nat ->
          n = setup_ops small_config)
      /\ (health (ok_env true 1) = true ->
          (1 <= regular small_config <= follows_per_regular_user small_config)%nat ->
          (n < setup_ops small_config)%nat)
  | Pending => True
  end.
Proof.
  exact (setup_volume_within_announced (ok_env true 1) small_config 1
           (take_sample_sized true _)).
Defined.

(** ** The exit status *)

Lemma bind_done_inv {A B : Type} (c : M A) (k : A -> M B) (s s' : State) (b : B) :
  bind c k s = Done b s' -> exists a s1, c s = Done a s1 /\ k a s1 = Done b s'.
Proof.
  unfold bind. destruct (c s) as [a s1 | e s1 |]; [| discriminate | discriminate].
  intros H. now exists a, s1.
Qed.

(** A run that returns against a healthy target returns what
    [print_results] returns on the collector it leaves. *)
Lemma run_done (E : Env) (config : Config) (fuel : nat) (s s' : State) (passed : bool) :
  health E = true -> run E config fuel s = Done passed s' ->
  exists panel, print_results E config (metrics s') = Ok (passed, panel).
Proof.
  intros Hhealth H. unfold run in H. rewrite Hhealth in H. cbn [negb] in H.
  do 13 (apply bind_done_inv in H as (? & ? & _ & H)).
  unfold bind, get_state in H.
  match type of H with
  | context [print_results E config (metrics ?last)] =>
      destruct (print_results E config (metrics last)) as [[p panel] | e] eqn:Hprint;
        [| discriminate]
  end.
  unfold ret in H. injection H as -> ->. now exists panel.
Qed.


(** ** The target's base url *)

Lemma py_rstrip_decompose (c : ascii) (s : string) :
  exists k, s = py_rstrip c s +:+ repeat_char c k.
Proof.
  induction s as [|a s [k IH]]; [now exists 0%nat |].
  cbn [py_rstrip]. destruct (py_rstrip c s) as [|b r] eqn:Hr.
  - destruct (Ascii.eqb_spec a c) as [-> | Hne].
    + exists (S k). simpl in *. now rewrite IH at 1.
    + exists k. simpl in *. now rewrite IH at 1.
  - exists k. simpl in *. now rewrite IH at 1.
Qed.

Lemma py_rstrip_ends (c : ascii) (s : string) : ends_with c (py_rstrip c s) = false.
Proof.
  induction s as [|a s IH]; [reflexivity |].
  cbn [py_rstrip]. destruct (py_rstrip c s) as [|b r] eqn:Hr.
  - destruct (Ascii.eqb a c) eqn:Hac; [reflexivity |]. simpl. exact Hac.
  - cbn [ends_with] in *. exact IH.
Qed.

Lemma py_rstrip_fixed (c : ascii) (s : string) :
  ends_with c s = false -> py_rstrip c s = s.
Proof.
  induction s as [|a s IH]; [reflexivity |].
  intros H. cbn [py_rstrip]. destruct s as [|b r].
  - simpl in *. now rewrite H.
  - cbn [ends_with] in H. rewrite (IH H). reflexivity.
Qed.

(** The base url is the configured host without its trailing slashes: the
    host is the base url followed by slashes only, the base url does not
    end with a slash, stripping it again changes nothing, and the url of
    every request is the base url followed by the endpoint, so that no
    slash of the host stands before the one the endpoint begins with. *)
Theorem base_url_strips_trailing_slashes
    (E : Env) (config : Config) (method endpoint user_id : string)
    (body : option pyval) (expected_status : option (list Z)) (s : State) :
  (exists k, host config = base_url config +:+ repeat_char "/" k)
  /\ ends_with "/" (base_url config) = false
  /\ py_rstrip "/" (base_url config) = base_url config
  /\ exists result s',
       api_call E config method endpoint user_id body expected_status s = Done result s'
       /\ exists request,
            sent s' = sent s ++ [request]
            /\ Request.url request = base_url config +:+ endpoint.
Proof.
  unfold base_url. split; [apply py_rstrip_decompose |].
  split; [apply py_rstrip_ends |].
  split; [apply py_rstrip_fixed, py_rstrip_ends |].
  destruct (api_call_effect E config method endpoint user_id body expected_status s)
    as (result & s' & Hrun & Hsent & _).
  exists result, s'. split; [exact Hrun |].
  exists (request_of config method endpoint user_id body). split; [exact Hsent | reflexivity].
Qed.

(** ** The exceptions of a run *)

Section RaisesOnly.

Context {A B : Type} (allowed : exn -> State -> Prop).

Lemma raises_only_ret (a : A) : raises_only allowed (ret a).
Proof. intros s. exact I. Qed.

Lemma raises_only_bind (c : M A) (k : A -> M B) :
  raises_only allowed c -> (forall a, raises_only allowed (k a)) ->
  raises_only allowed (bind c k).
Proof.
  intros Hc Hk s. specialize (Hc s). unfold bind.
  destruct (c s) as [a s1 | e s1 |]; [apply Hk | exact Hc | exact I].
Qed.

Lemma raises_only_raise (e : exn) :
  (forall s, allowed e s) -> raises_only allowed (raise (A := A) e).
Proof. intros H s. apply H. Qed.

Lemma raises_only_get_state (k : State -> M B) :
  (forall s0, raises_only allowed (k s0)) -> raises_only allowed (bind get_state k).
Proof. intros Hk s. unfold bind, get_state. apply Hk. Qed.

(** A coroutine that always returns raises nothing. *)
Lemma raises_only_total (c : M A) :
  (forall s, exists a s', c s = Done a s') -> raises_only allowed c.
Proof. intros Hc s. destruct (Hc s) as (a & s' & ->). exact I. Qed.

End RaisesOnly.

Lemma raises_only_for_each {A : Type} (allowed : exn -> State -> Prop) (l : list A)
    (f : A -> M unit) :
  (forall x, raises_only allowed (f x)) -> raises_only allowed (for_each l f).
Proof.
  intros Hf. induction l as [|x l IH]; [apply raises_only_ret |].
  cbn [for_each]. apply raises_only_bind; [apply Hf | intros _; exact IH].
Qed.

Lemma raises_only_api_call (allowed : exn -> State -> Prop) (E : Env) (config : Config)
    (method endpoint user_id : string) (body : option pyval)
    (expected_status : option (list Z)) :
  raises_only allowed (api_call E config method endpoint user_id body expected_status).
Proof.
  apply raises_only_total. intros s.
  destruct (api_call_effect E config method endpoint user_id body expected_status s)
    as (result & s' & Hrun & _).
  now exists result, s'.
Qed.

Lemma raises_only_paginate (allowed : exn -> State -> Prop)
    (get_page : pyval -> M ApiResult.t) :
  (forall e s, e = AttributeError "get" -> allowed e s) ->
  (forall cursor, raises_only allowed (get_page cursor)) ->
  forall (fuel pages : nat) (cursor : pyval),
    raises_only allowed (paginate get_page fuel pages cursor).
Proof.
  intros Hallowed Hget. induction fuel as [|fuel IH]; intros pages cursor; [intros s; exact I |].
  cbn [paginate]. apply raises_only_bind; [apply Hget | intros result].
  destruct (negb (ApiResult.success result) || negb (truthy (ApiResult.get_data result)));
    [apply raises_only_ret |].
  apply raises_only_bind.
  - unfold next_cursor. destruct (ApiResult.get_data result);
      try (apply raises_only_raise; intros st; now apply Hallowed); apply raises_only_ret.
  - intros c. destruct (negb (truthy c)); [apply raises_only_ret | apply IH].
Qed.

Section RunRaises.

Context (E : Env) (config : Config).

Let allowed := run_exception E.

Lemma allowed_attribute_error (e : exn) (s : State) :
  e = AttributeError "get" -> allowed e s.
Proof. intros ->. now left. Qed.

Lemma raises_only_paginate_timeline (fuel : nat) (user_id : string) (limit : nat) :
  raises_only allowed (paginate_timeline E config fuel user_id limit).
Proof.
  unfold paginate_timeline. apply raises_only_paginate; [apply allowed_attribute_error |].
  intros cursor. unfold get_timeline. apply raises_only_api_call.
Qed.

Lemma raises_only_paginate_tweets (fuel : nat) (user_id : string) (limit : nat) :
  raises_only allowed (paginate_tweets E config fuel user_id limit).
Proof.
  unfold paginate_tweets. apply raises_only_paginate; [apply allowed_attribute_error |].
  intros cursor. unfold get_user_tweets. apply raises_only_api_call.
Qed.

Lemma raises_only_phase_read_timelines (fuel : nat) :
  raises_only allowed (phase_read_timelines E config fuel).
Proof.
  unfold phase_read_timelines. apply raises_only_get_state. intros s0.
  apply raises_only_for_each. intros user.
  apply raises_only_bind; [apply raises_only_paginate_timeline | intros _].
  apply raises_only_ret.
Qed.

Lemma raises_only_phase_check_profiles (fuel : nat) :
  raises_only allowed (phase_check_profiles E config fuel).
Proof.
  unfold phase_check_profiles. apply raises_only_get_state. intros s0.
  apply raises_only_for_each. intros user.
  apply raises_only_bind; [apply raises_only_paginate_tweets | intros _].
  apply raises_only_bind; [unfold get_followers; apply raises_only_api_call | intros _].
  apply raises_only_bind; [unfold get_following; apply raises_only_api_call | intros _].
  apply raises_only_ret.
Qed.

Lemma raises_only_mixed_user_activity (fuel : nat) (user : string) (round_num : nat) :
  raises_only allowed (mixed_user_activity E config fuel user round_num).
Proof.
  unfold mixed_user_activity.
  apply raises_only_bind; [apply raises_only_total; intros s; now eexists _, _ | intros u].
  apply raises_only_bind; [unfold create_tweet; apply raises_only_api_call | intros _].
  apply raises_only_get_state. intros s0.
  apply raises_only_bind.
  { destruct (filter _ (regular_users s0)) as [|target others]; [apply raises_only_ret |].
    apply raises_only_bind; [apply raises_only_total; intros s; now eexists _, _ | intros n].
    apply raises_only_bind; [unfold follow_user; apply raises_only_api_call | intros _].
    apply raises_only_ret. }
  intros _.
  apply raises_only_bind; [apply raises_only_paginate_timeline | intros _].
  apply raises_only_ret.
Qed.

Lemma raises_only_phase_mixed_activity (fuel : nat) :
  raises_only allowed (phase_mixed_activity E config fuel).
Proof.
  unfold phase_mixed_activity. apply raises_only_get_state. intros s0.
  apply raises_only_for_each. intros [user round_num].
  apply raises_only_mixed_user_activity.
Qed.

Lemma raises_only_print_results :
  raises_only allowed
    (let! s := get_state in
     match print_results E config (metrics s) with
     | Ok (passed, _) => ret passed
     | Err e => raise e
     end).
Proof.
  intros s. unfold bind, get_state.
  pose proof (print_results_cases E config (metrics s)) as H.
  destruct (print_results E config (metrics s)) as [[passed panel] | e]; [exact I |].
  unfold raise. right. exact H.
Qed.

(** Phase 3 returns whatever the target answers and the sample is. *)
Lemma phase_build_social_graph_total (s : State) :
  exists s', phase_build_social_graph E config s = Done tt s'.
Proof.
  assert (Hphase : triple (fun _ => True) (phase_build_social_graph E config)
                     (fun _ _ => True)).
  { unfold phase_build_social_graph. apply triple_get_state_bind. intros s0 _.
    eapply triple_bind.
    { apply (triple_collect_inv (fun _ => True)). intros user _ s1 _.
      cbv beta iota zeta delta [bind get_state next_random modify ret].
      now eexists _, _. }
    intros tasks s1 _.
    destruct (follow_all_spec E config tasks s1) as (s' & new & Hrun & _).
    now exists tt, s'. }
  destruct (Hphase s I) as ([] & s' & Hrun & _). now exists s'.
Qed.

End RunRaises.

(** Whatever the target answers, a run ends with one of two exceptions
    only, if it ends with an exception at all: the AttributeError that
    pagination raises on a payload that is no JSON object, or the KeyError
    that [print_results] raises on 'success_rate' when the runtime phase
    has recorded no request (or, with rich, the setup phase has not).  In
    particular no IndexError and no StatisticsError ever leaves a run. *)
Theorem run_raises_only (E : Env) (config : Config) (fuel : nat) (s : State) :
  match run E config fuel s with
  | Raised e s' =>
      e = AttributeError "get"
      \/ (e = KeyError "success_rate"
          /\ (MetricsCollector.runtime_requests (metrics s') = []
              \/ (RICH_AVAILABLE E = true
                  /\ MetricsCollector.setup_requests (metrics s') = [])))
  | _ => True
  end.
Proof.
  assert (Htotal : forall (c : M unit),
            (forall s0, exists s', c s0 = Done tt s') -> raises_only (run_exception E) c).
  { intros c Hc. apply raises_only_total. intros s0. destruct (Hc s0) as [s' ->].
    now exists tt, s'. }
  assert (Hrun : raises_only (run_exception E) (run E config fuel)).
  { unfold run. destruct (negb (health E)); [apply raises_only_ret |].
    apply raises_only_bind; [apply Htotal; intros s0; now eexists | intros _].
    apply raises_only_bind; [apply Htotal; intros s0; now eexists | intros _].
    apply raises_only_bind; [| intros _].
    { apply Htotal. intros s0.
      destruct (phase_create_users_spec E config s0) as (s' & Hrun & _). now exists s'. }
    apply raises_only_bind; [| intros _].
    { apply Htotal. intros s0.
      destruct (phase_build_celebrity_followers_spec E config s0) as (s' & Hrun & _).
      now exists s'. }
    apply raises_only_bind; [apply Htotal, phase_build_social_graph_total | intros _].
    apply raises_only_bind; [apply Htotal; intros s0; now eexists | intros _].
    apply raises_only_bind; [| intros _].
    { apply Htotal. intros s0.
      destruct (phase_create_tweets_spec E config s0) as (s' & Hrun & _). now exists s'. }
    apply raises_only_bind; [apply Htotal; intros s0; now eexists | intros _].
    apply raises_only_bind; [apply raises_only_phase_read_timelines | intros _].
    apply raises_only_bind; [apply raises_only_phase_check_profiles | intros _].
    apply raises_only_bind; [| intros _].
    { apply Htotal. intros s0.
      destruct (phase_unfollow_some_spec E config s0) as (s' & new & Hrun & _).
      now exists s'. }
    apply raises_only_bind; [apply raises_only_phase_mixed_activity | intros _].
    apply raises_only_bind; [apply Htotal; intros s0; now eexists | intros _].
    apply raises_only_print_results. }
  exact (Hrun s).
Qed.


(** ** A run against a target that accepts every request *)

Lemma triple_bind_done {A B : Type} (s0 s1 : State) (a : A) (c : M A) (k : A -> M B)
    (Q : B -> State -> Prop) :
  c s0 = Done a s1 -> triple (eq s1) (k a) Q -> triple (eq s0) (bind c k) Q.
Proof. intros Hc Hk s <-. unfold bind. rewrite Hc. now apply Hk. Qed.

Lemma length_concat_const {A B : Type} (l : list A) (xs : list B) :
  length (concat (map (fun _ => l) xs)) = (length xs * length l)%nat.
Proof. induction xs as [|x xs IH]; simpl; [reflexivity |]. now rewrite length_app, IH. Qed.

(** Phase 3 returns whatever the sample is, and keeps the users. *)
Lemma phase_build_social_graph_users (E : Env) (config : Config) (s : State) :
  exists s',
    phase_build_social_graph E config s = Done tt s'
    /\ regular_users s' = regular_users s /\ all_users s' = all_users s
    /\ (length (sent s) <= length (sent s'))%nat.
Proof.
  set (P := fun s1 : State =>
              regular_users s1 = regular_users s /\ all_users s1 = all_users s
              /\ (length (sent s) <= length (sent s1))%nat).
  assert (Hphase : triple P (phase_build_social_graph E config) (fun _ => P)).
  { unfold phase_build_social_graph. apply triple_get_state_bind. intros s0 _.
    eapply triple_bind.
    { apply (triple_collect_inv P). intros user _ s1 H1.
      cbv beta iota zeta delta [bind get_state next_random modify ret].
      eexists _, _. split; [reflexivity | exact H1]. }
    intros tasks s1 (Hreg & Hall & Hsent).
    destruct (follow_all_spec E config tasks s1)
      as (s' & new & Hrun & _ & _ & _ & [Hgrow _] & (Hreg' & _ & _ & Hall' & _) & _).
    exists tt, s'. split; [exact Hrun |]. unfold P.
    rewrite Hreg', Hall', Hgrow. split; [exact Hreg |]. split; [exact Hall | lia]. }
  destruct (Hphase s) as ([] & s' & Hrun & HP).
  { unfold P. split; [reflexivity |]. split; [reflexivity | lia]. }
  now exists s'.
Qed.

Section RuntimeOk.

Context (E : Env) (config : Config) (Rs As : list string).
Hypothesis transport_ok : always_succeeds E.

Lemma runtime_ok_mono (n m : nat) (s : State) :
  (m <= n)%nat -> runtime_ok Rs As n s -> runtime_ok Rs As m s.
Proof. unfold runtime_ok. intros Hm (? & ? & ? & ? & ? & ?). repeat split; auto. lia. Qed.

(** In the runtime phase a dispatched call adds one successful runtime
    request and returns a last page. *)
Lemma api_call_runtime_ok (method endpoint user_id : string) (body : option pyval)
    (expected : list Z) (n : nat) :
  (forall status, accepted method status = true -> status_in status expected = true) ->
  triple (runtime_ok Rs As n)
    (api_call E config method endpoint user_id body (Some expected))
    (fun result s =>
       runtime_ok Rs As (S n) s
       /\ ApiResult.success result = true
       /\ exists v, ApiResult.data result = Some v /\ last_page v = true).
Proof.
  intros Hexp s (HR & HA & Hphase & Hsetup & Hn & Hfail).
  destruct (api_call_frame E config method endpoint user_id body (Some expected) s)
    as (result & metric & t & request & Hrun & Hmethod & Hres & Hcase).
  destruct (transport_ok (length (sent s)) request)
    as (status & b & v & Hans & Hacc & Hv & Hlast).
  rewrite Hans, Hv in Hcase. destruct Hcase as [Hsucc Hdata].
  rewrite Hmethod in Hacc.
  change (default [200%Z] (Some expected)) with expected in Hsucc.
  rewrite (Hexp _ Hacc) in Hsucc.
  eexists _, _. split; [exact Hrun |]. split.
  - unfold runtime_ok. cbn [metrics set_metrics set_now add_sent regular_users all_users].
    unfold MetricsCollector.record.
    cbn [MetricsCollector.phase MetricsCollector.runtime_requests
         MetricsCollector.setup_requests].
    rewrite Hphase. simpl. repeat split; auto.
    + rewrite length_app. simpl. lia.
    + rewrite failures_app_one, Hsucc. lia.
  - split; [congruence |]. now exists v.
Qed.

Lemma create_tweet_ok (user content : string) (n : nat) :
  triple (runtime_ok Rs As n) (create_tweet E config user content)
    (fun _ => runtime_ok Rs As (S n)).
Proof.
  unfold create_tweet. eapply triple_post; [| apply api_call_runtime_ok].
  - intros r s [H _]. exact H.
  - intros status H. now apply accepted_post.
Qed.

Lemma follow_user_ok (a b : string) (n : nat) :
  triple (runtime_ok Rs As n) (follow_user E config a b) (fun _ => runtime_ok Rs As (S n)).
Proof.
  unfold follow_user. eapply triple_post; [| apply api_call_runtime_ok].
  - intros r s [H _]. exact H.
  - intros status H. now apply accepted_post.
Qed.

Lemma unfollow_user_ok (a b : string) (n : nat) :
  triple (runtime_ok Rs As n) (unfollow_user E config a b)
    (fun _ => runtime_ok Rs As (S n)).
Proof.
  unfold unfollow_user. eapply triple_post; [| apply api_call_runtime_ok].
  - intros r s [H _]. exact H.
  - intros status H. now apply accepted_delete.
Qed.

Lemma get_followers_ok (user : string) (n : nat) :
  triple (runtime_ok Rs As n) (get_followers E config user)
    (fun _ => runtime_ok Rs As (S n)).
Proof.
  unfold get_followers. eapply triple_post; [| apply api_call_runtime_ok].
  - intros r s [H _]. exact H.
  - intros status H. now apply accepted_get.
Qed.

Lemma get_following_ok (user : string) (n : nat) :
  triple (runtime_ok Rs As n) (get_following E config user)
    (fun _ => runtime_ok Rs As (S n)).
Proof.
  unfold get_following. eapply triple_post; [| apply api_call_runtime_ok].
  - intros r s [H _]. exact H.
  - intros status H. now apply accepted_get.
Qed.

(** A pagination ends after its first page. *)
Lemma paginate_timeline_ok (fuel : nat) (user : string) (limit n : nat) :
  triple (runtime_ok Rs As n) (paginate_timeline E config (S fuel) user limit)
    (fun _ => runtime_ok Rs As (S n)).
Proof.
  unfold paginate_timeline. apply paginate_last_page.
  unfold get_timeline. apply api_call_runtime_ok.
  intros status H. now apply accepted_get.
Qed.

Lemma paginate_tweets_ok (fuel : nat) (user : string) (limit n : nat) :
  triple (runtime_ok Rs As n) (paginate_tweets E config (S fuel) user limit)
    (fun _ => runtime_ok Rs As (S n)).
Proof.
  unfold paginate_tweets. apply paginate_last_page.
  unfold get_user_tweets. apply api_call_runtime_ok.
  intros status H. now apply accepted_get.
Qed.

(** A loop whose every turn adds at least [k] runtime requests. *)
Lemma runtime_ok_for_each {A : Type} (l : list A) (f : A -> M unit) (k n : nat) :
  (forall m x, In x l ->
     triple (runtime_ok Rs As m) (f x) (fun _ => runtime_ok Rs As (m + k))) ->
  triple (runtime_ok Rs As n) (for_each l f)
    (fun _ => runtime_ok Rs As (n + k * length l)).
Proof.
  intros Hf.
  eapply triple_weaken;
    [| | apply (triple_for_each (fun i => runtime_ok Rs As (n + k * i)) l f) with (i := 0%nat)].
  - intros s Hs. cbn beta. now rewrite Nat.mul_0_r, Nat.add_0_r.
  - intros u s Hs. exact Hs.
  - intros i x Hx. eapply triple_post; [| apply (Hf (n + k * i)%nat x Hx)].
    intros u s Hs. cbn beta in *.
    now replace (n + k * S i)%nat with (n + k * i + k)%nat by lia.
Qed.

Lemma phase_create_tweets_ok (n : nat) :
  triple (runtime_ok Rs As n) (phase_create_tweets E config)
    (fun _ => runtime_ok Rs As (n + length As * tweets_per_user config)).
Proof.
  unfold phase_create_tweets.
  eapply triple_bind.
  { apply (triple_collect (runtime_ok Rs As n) (seq 0 (tweets_per_user config)) _
             (1 * length As)).
    intros round_num _. apply triple_get_state_bind. intros s0 (_ & Hall & _).
    rewrite Hall. apply triple_collect. intros user _.
    apply triple_get_state_bind. intros s1 _.
    eapply triple_bind; [apply (triple_fresh_uuid E (runtime_ok Rs As n)); auto |].
    intros u. intros s Hs. eexists _, s. split; [reflexivity |]. now split. }
  intros tasks. cbn beta. apply triple_pure_pre. intros Hlen.
  eapply triple_post; [| apply (runtime_ok_for_each tasks _ 1 n)].
  - intros u s Hs. cbn beta in Hs. rewrite Hlen, length_seq in Hs.
    eapply runtime_ok_mono; [| exact Hs]. lia.
  - intros m [user content] _. apply triple_then_ret.
    eapply triple_post; [| apply create_tweet_ok].
    intros r s Hs. cbn beta in *. now replace (m + 1)%nat with (S m) by lia.
Qed.

Lemma phase_read_timelines_ok (fuel n : nat) :
  triple (runtime_ok Rs As n) (phase_read_timelines E config (S fuel))
    (fun _ => runtime_ok Rs As (n + length Rs * timeline_reads_per_user config)).
Proof.
  unfold phase_read_timelines.
  apply triple_get_state_bind. intros s0 (HR & _). rewrite HR. cbn zeta.
  eapply triple_post; [| apply (runtime_ok_for_each _ _ 1 n)].
  - intros u s Hs. cbn beta in Hs. rewrite length_concat_const, length_seq in Hs.
    eapply runtime_ok_mono; [| exact Hs]. lia.
  - intros m user _. apply triple_then_ret.
    eapply triple_post; [| apply paginate_timeline_ok].
    intros r s Hs. cbn beta in *. now replace (m + 1)%nat with (S m) by lia.
Qed.

Lemma phase_check_profiles_ok (fuel n : nat) :
  triple (runtime_ok Rs As n) (phase_check_profiles E config (S fuel))
    (fun _ => runtime_ok Rs As (n + 3 * length As)).
Proof.
  unfold phase_check_profiles.
  apply triple_get_state_bind. intros s0 (_ & Hall & _). rewrite Hall.
  apply runtime_ok_for_each. intros m user _.
  eapply triple_bind; [apply paginate_tweets_ok |]. intros pages.
  eapply triple_bind; [apply get_followers_ok |]. intros r1.
  eapply triple_bind; [apply get_following_ok |]. intros r2.
  eapply triple_pre; [| apply (triple_ret (fun _ => runtime_ok Rs As (m + 3)) tt)].
  intros s Hs. now replace (m + 3)%nat with (S (S (S m))) by lia.
Qed.

Lemma phase_unfollow_some_ok (n : nat) :
  triple (runtime_ok Rs As n) (phase_unfollow_some E config)
    (fun _ => runtime_ok Rs As n).
Proof.
  unfold phase_unfollow_some.
  apply triple_get_state_bind. intros s0 (HR & _). rewrite HR.
  apply triple_for_each_inv. intros user _.
  apply triple_get_state_bind. intros s1 _.
  set (regular_following :=
         filter (fun f => inb f (celebrities s1) = false)
           (default [] (follow_graph s1 !! user))).
  apply triple_for_each_inv. intros i Hi.
  apply in_seq in Hi.
  rewrite (index_nth regular_following i "") by lia.
  apply triple_then_ret.
  eapply triple_post; [| apply unfollow_user_ok].
  intros r s Hs. eapply runtime_ok_mono; [| exact Hs]. lia.
Qed.

Lemma mixed_user_activity_ok (fuel : nat) (user : string) (round_num n : nat) :
  triple (runtime_ok Rs As n) (mixed_user_activity E config (S fuel) user round_num)
    (fun _ => runtime_ok Rs As (n + 2)).
Proof.
  unfold mixed_user_activity.
  eapply triple_bind; [apply (triple_fresh_uuid E (runtime_ok Rs As n)); auto |]. intros u.
  eapply triple_bind; [apply create_tweet_ok |]. intros r.
  apply triple_get_state_bind. intros s0 _. cbn zeta.
  eapply triple_bind.
  { instantiate (1 := fun _ => runtime_ok Rs As (S n)).
    destruct (filter _ (regular_users s0)) as [|target others].
    - apply (triple_ret (fun _ => runtime_ok Rs As (S n)) tt).
    - eapply triple_bind; [apply (triple_next_random (runtime_ok Rs As (S n))); auto |].
      intros k. apply triple_then_ret.
      eapply triple_post; [| apply follow_user_ok].
      intros r' s Hs. eapply runtime_ok_mono; [| exact Hs]. lia. }
  intros v. eapply triple_bind; [apply paginate_timeline_ok |]. intros pages.
  eapply triple_pre; [| apply (triple_ret (fun _ => runtime_ok Rs As (n + 2)) tt)].
  intros s Hs. now replace (n + 2)%nat with (S (S n)) by lia.
Qed.

Lemma phase_mixed_activity_ok (fuel n : nat) :
  triple (runtime_ok Rs As n) (phase_mixed_activity E config (S fuel))
    (fun _ => runtime_ok Rs As (n + 4 * length Rs)).
Proof.
  unfold phase_mixed_activity.
  apply triple_get_state_bind. intros s0 (HR & _). rewrite HR. cbn zeta.
  eapply triple_post; [| apply (runtime_ok_for_each _ _ 2 n)].
  - intros u s Hs. cbn beta in Hs. eapply runtime_ok_mono; [| exact Hs].
    simpl. rewrite !length_app, !length_map. simpl. lia.
  - intros m [user round_num] _. apply mixed_user_activity_ok.
Qed.

(** The runtime phases and the verdict, from the switch to the runtime
    phase on. *)
Lemma runtime_phases_ok (fuel : nat) :
  let total :=
    (length As * tweets_per_user config + length Rs * timeline_reads_per_user config
     + 3 * length As + 4 * length Rs)%nat in
  (1 <= length As)%nat ->
  triple (runtime_ok Rs As 0)
    (phase_create_tweets E config ;;;
     sleep (delay_after_writes_ms config / 1000) ;;;
     phase_read_timelines E config (S fuel) ;;;
     phase_check_profiles E config (S fuel) ;;;
     phase_unfollow_some E config ;;;
     phase_mixed_activity E config (S fuel) ;;;
     modify (fun s => set_metrics (MetricsCollector.set_end_time (now s)) s) ;;;
     let! s := get_state in
     match print_results E config (metrics s) with
     | Ok (passed, _) => ret passed
     | Err e => raise e
     end)
    (fun passed s =>
       runtime_ok Rs As total s
       /\ exists panel, print_results E config (metrics s) = Ok (passed, panel)).
Proof.
  intros total Husers.
  eapply triple_bind; [apply phase_create_tweets_ok |]. intros u6.
  eapply triple_bind.
  { apply (triple_modify (runtime_ok Rs As (0 + length As * tweets_per_user config))
             (runtime_ok Rs As (0 + length As * tweets_per_user config))).
    intros s Hs. exact Hs. }
  intros u7. eapply triple_bind; [apply phase_read_timelines_ok |].
  intros u8. eapply triple_bind; [apply phase_check_profiles_ok |].
  intros u9. eapply triple_bind; [apply phase_unfollow_some_ok |].
  intros u10. eapply triple_bind; [apply phase_mixed_activity_ok |].
  intros u11. eapply triple_bind.
  { apply (triple_modify _ (runtime_ok Rs As total)).
    intros s Hs. eapply runtime_ok_mono; [| exact Hs]. subst total. lia. }
  intros u12 s Hs. pose proof Hs as (_ & _ & _ & Hsetup & Hn & _).
  assert (Hruntime : MetricsCollector.runtime_requests (metrics s) <> []).
  { intros H. rewrite H in Hn. subst total. simpl in Hn. lia. }
  destruct (print_results_ok E config (metrics s) Hsetup Hruntime) as (passed & panel & Hpr).
  unfold bind, get_state. rewrite Hpr. exists passed, s.
  split; [reflexivity |]. split; [exact Hs |]. now exists panel.
Qed.

End RuntimeOk.


